(** * Stormshadow: rule ledger, garbage collection, spoofer and attack session

    A shallow embedding of the parts of the toolkit that manage tagged
    firewall rules ([utils/network/iptables.py]), the per-packet rewrite
    handler and its address pool ([sip_attacks/spoofer.py]), the start of the
    spoofing coordinator ([sip_attacks/sip_spoofing.py]) and the stop of an
    attack session ([utils/attack/AttackSession.py]).

    Python values are modelled as follows.
    - [str] is [string]; a character is a code point below 256.
    - [int] is [Z] (the interpreter's limit on the number of digits that
      [int()] and [str()] convert is not modelled).
    - [Optional[T]] is [option T]; a raised exception is a value of [exn].
    - The clock ([_now()]) is an explicit argument [now].
    - The heartbeat directory is a finite map from paths to modification
      times; the firewall is a finite map from (table, chain) to the lines
      that [iptables -S] prints for the chain. *)

From Stdlib Require Import ZArith NArith Ascii String List Bool Lia.
From stdpp Require Import base option list gmap strings.

Local Open Scope string_scope.
Local Open Scope list_scope.
Local Open Scope Z_scope.

(** ** Python string primitives *)

Module PyStr.

(** [str.isspace] on one character (code points below 256). *)
Definition is_space (c : ascii) : bool :=
  let n := N_of_ascii c in
  (((9 <=? n) && (n <=? 13)) || ((28 <=? n) && (n <=? 32))
   || (n =? 133) || (n =? 160))%N.

(** Membership of a character in the argument of [strip(chars)]. *)
Definition in_chars (chars : string) (c : ascii) : bool :=
  existsb (Ascii.eqb c) (list_ascii_of_string chars).

Fixpoint lstrip_by (p : ascii -> bool) (s : string) : string :=
  match s with
  | EmptyString => EmptyString
  | String c s' => if p c then lstrip_by p s' else s
  end.

Fixpoint rstrip_by (p : ascii -> bool) (s : string) : string :=
  match s with
  | EmptyString => EmptyString
  | String c s' =>
      match rstrip_by p s' with
      | EmptyString => if p c then EmptyString else String c EmptyString
      | r => String c r
      end
  end.

Definition strip_by (p : ascii -> bool) (s : string) : string :=
  rstrip_by p (lstrip_by p s).

(** [s.strip()] and [s.strip(chars)]. *)
Definition strip (s : string) : string := strip_by is_space s.
Definition strip_chars (chars s : string) : string := strip_by (in_chars chars) s.

(** [s.startswith(p)], [s.endswith(p)] and [sub in s]. *)
Definition startswith (s p : string) : bool := String.prefix p s.

Fixpoint contains (sub s : string) : bool :=
  String.prefix sub s ||
  match s with
  | EmptyString => false
  | String _ s' => contains sub s'
  end.

Fixpoint endswith (s p : string) : bool :=
  String.eqb s p ||
  match s with
  | EmptyString => false
  | String _ s' => endswith s' p
  end.

(** [c in s] for one character. *)
Fixpoint has_char (c : ascii) (s : string) : bool :=
  match s with
  | EmptyString => false
  | String d s' => Ascii.eqb d c || has_char c s'
  end.

(** [s.split(sep)] for a separator of one character. *)
Fixpoint split_on (sep : ascii) (s : string) : list string :=
  match s with
  | EmptyString => [EmptyString]
  | String c s' =>
      if Ascii.eqb c sep then EmptyString :: split_on sep s'
      else match split_on sep s' with
           | x :: xs => String c x :: xs
           | [] => [String c EmptyString]
           end
  end.

(** [sep.join(parts)]. *)
Definition join (sep : string) (parts : list string) : string :=
  String.concat sep parts.

(** The last character of a string, if any. *)
Fixpoint last_char (s : string) : option ascii :=
  match s with
  | EmptyString => None
  | String c EmptyString => Some c
  | String _ s' => last_char s'
  end.

(** The string without its first [n] characters: [s[n:]]. *)
Fixpoint skip (n : nat) (s : string) : string :=
  match n, s with
  | O, _ => s
  | S n', String _ s' => skip n' s'
  | S _, EmptyString => EmptyString
  end.

(** [s.replace(old, new, 1)] for a non-empty [old]. *)
Fixpoint replace_first (old new s : string) : string :=
  if String.prefix old s then new +:+ skip (String.length old) s
  else match s with
       | EmptyString => EmptyString
       | String c s' => String c (replace_first old new s')
       end.

(** [s.split(sep, 1)] for a non-empty [sep]: the text before the first
    occurrence of [sep] and the text after it, or [s] alone. *)
Fixpoint split_once (sep s : string) : list string :=
  if String.prefix sep s then [EmptyString; skip (String.length sep) s]
  else match s with
       | EmptyString => [EmptyString]
       | String c s' =>
           match split_once sep s' with
           | [x; y] => [String c x; y]
           | _ => [s]
           end
       end.

(** The longest prefix of characters that satisfy [p], and the rest. *)
Fixpoint span (p : ascii -> bool) (s : string) : string * string :=
  match s with
  | EmptyString => (EmptyString, EmptyString)
  | String c s' =>
      if p c then let '(a, b) := span p s' in (String c a, b)
      else (EmptyString, s)
  end.

(** *** [str(n)] and [int(s)] for integers *)

Definition digit_char (d : N) : ascii := ascii_of_N (48 + d).

Definition digit_val (c : ascii) : option N :=
  let n := N_of_ascii c in
  if ((48 <=? n) && (n <=? 57))%N then Some (n - 48)%N else None.

Definition is_digit (c : ascii) : bool :=
  match digit_val c with Some _ => true | None => false end.

Fixpoint all_digits (s : string) : bool :=
  match s with
  | EmptyString => true
  | String c s' => is_digit c && all_digits s'
  end.

(** The decimal digits of [n] in front of [acc], most significant first. *)
Fixpoint digits_go (fuel : nat) (n : N) (acc : string) : string :=
  let acc' := String (digit_char (n mod 10)) acc in
  match fuel with
  | O => acc'
  | S f => if (n / 10 =? 0)%N then acc' else digits_go f (n / 10) acc'
  end.

Definition str_N (n : N) : string := digits_go (N.to_nat (N.log2 n)) n EmptyString.

(** [str(z)]. *)
Definition py_str (z : Z) : string :=
  if z <? 0 then String "-" (str_N (Z.to_N (- z))) else str_N (Z.to_N z).

(** Digits with single underscores between them, as [int()] accepts them.
    [prev] tells whether the previous character was a digit. *)
Fixpoint parse_digits (s : string) (acc : N) (prev : bool) : option N :=
  match s with
  | EmptyString => if prev then Some acc else None
  | String c s' =>
      match digit_val c with
      | Some d => parse_digits s' (10 * acc + d)%N true
      | None => if Ascii.eqb c "_" && prev then parse_digits s' acc false else None
      end
  end.

(** The white space that [int()] skips at both ends: of the characters
    below 128 only those of the C locale. *)
Definition is_int_space (c : ascii) : bool :=
  let n := N_of_ascii c in
  (((9 <=? n) && (n <=? 13)) || (n =? 32) || (n =? 133) || (n =? 160))%N.

(** [int(s)]: [None] stands for [ValueError]. *)
Definition py_int (s : string) : option Z :=
  match strip_by is_int_space s with
  | EmptyString => None
  | String c r as t =>
      if Ascii.eqb c "-" then (fun n => - Z.of_N n) <$> parse_digits r 0 false
      else if Ascii.eqb c "+" then Z.of_N <$> parse_digits r 0 false
      else Z.of_N <$> parse_digits t 0 false
  end.

(** The double quote character and a text between double quotes. *)
Definition dquote : ascii := "034"%char.
Definition quoted (s : string) : string :=
  String dquote (s +:+ String dquote EmptyString).

(** Truth value of a string: [if s:]. *)
Definition truthy (s : string) : bool := negb (String.eqb s EmptyString).

(** Whether every character of [s] satisfies [p]. *)
Fixpoint all_chars (p : ascii -> bool) (s : string) : bool :=
  match s with
  | EmptyString => true
  | String c s' => p c && all_chars p s'
  end.

(** [s.split(sep)] for a non-empty separator: [k] counts the characters of
    a separator just matched that are still to be passed over. *)
Fixpoint split_go (sep : string) (k : nat) (s : string) : list string :=
  match s with
  | EmptyString => [EmptyString]
  | String c s' =>
      match k with
      | S k' => split_go sep k' s'
      | O =>
          if String.prefix sep s
          then EmptyString :: split_go sep (String.length sep - 1) s'
          else match split_go sep 0 s' with
               | x :: xs => String c x :: xs
               | [] => [String c EmptyString]
               end
      end
  end.

Definition split_str (sep s : string) : list string := split_go sep 0 s.

Definition newline : ascii := "010"%char.

End PyStr.

Import PyStr.

(** ** Exceptions and results *)

Inductive exn : Type :=
  | FileNotFoundError | IsADirectoryError | CalledProcessError | RuntimeError
  | IndexError | ValueError | TimeoutError | OSError | Scapy_Exception.

Inductive result (A : Type) : Type :=
  | Ok (a : A)
  | Raise (e : exn).
Arguments Ok {A} a.
Arguments Raise {A} e.

(** ** utils/network/iptables.py *)

Module Iptables.

Definition STORMSHADOW_CHAIN : string := "STORMSHADOW".
Definition STORMSHADOW_NAT_CHAIN : string := "STORMSHADOW-NAT".
Definition COMMENT_PREFIX : string := "Stormshadow".
Definition DEFAULT_HEARTBEAT_DIR : string := "/run/stormshadow".

(** *** The file system of the heartbeat store

    A path names a regular file or a directory, each with its modification
    time in whole seconds ([int(st.st_mtime)]). Two different path strings
    name different entries. *)

Inductive node : Type :=
  | File (mtime : Z)
  | Dir (mtime : Z).

Definition node_mtime (n : node) : Z :=
  match n with File m => m | Dir m => m end.

Abbreviation filesystem := (gmap string node).

(** [os.path.join(a, b)] of [posixpath]. *)
Definition os_path_join (a b : string) : string :=
  if startswith b "/" then b
  else if String.eqb a EmptyString || endswith a "/" then a +:+ b
  else a +:+ "/" +:+ b.

(** [os.stat(path).st_mtime], truncated to an integer. *)
Definition os_stat (path : string) (fs : filesystem) : result Z :=
  match fs !! path with
  | Some n => Ok (node_mtime n)
  | None => Raise FileNotFoundError
  end.

(** [os.unlink(path)]. *)
Definition os_unlink (path : string) (fs : filesystem) : result unit * filesystem :=
  match fs !! path with
  | Some (File _) => (Ok tt, delete path fs)
  | Some (Dir _) => (Raise IsADirectoryError, fs)
  | None => (Raise FileNotFoundError, fs)
  end.

Definition hb_path_of (heartbeat_dir suid : string) : string :=
  os_path_join heartbeat_dir (suid +:+ ".hb").



Definition heartbeat_remove (suid heartbeat_dir : string) (fs : filesystem)
  : bool * filesystem :=
  let hb_path := hb_path_of heartbeat_dir suid in
  match os_unlink hb_path fs with
  | (Ok _, fs') => (true, fs')
  | (Raise FileNotFoundError, fs') => (true, fs')
  | (Raise _, fs') => (false, fs')
  end.

(** *** Rule comments *)

Definition _comment_for (now : Z) (suid : string) (created_ts : option Z)
    (extra : option string) (preserve : bool) : string :=
  let created_ts := match created_ts with None => now | Some t => t end in
  let parts := [COMMENT_PREFIX; suid; py_str created_ts] in
  let parts := match extra with
               | Some e => if truthy e then parts ++ [e] else parts
               | None => parts
               end in
  let parts := if preserve then parts ++ ["NOT_DELETE"] else parts in
  join ":" parts.

Definition parsed_comment : Type := string * Z * option string * bool.

(** The rendered forms that the decoder accepts: the comment without the
    white space, slashes and stars at its ends. *)
Definition raw_of (comment : string) : string :=
  strip (strip_chars "*/" (strip_chars "/*" (strip comment))).

Definition _parse_comment (comment : string) : option parsed_comment :=
  if negb (truthy comment) || negb (contains COMMENT_PREFIX comment) then None
  else
    let raw := raw_of comment in
    if negb (startswith raw (COMMENT_PREFIX +:+ ":")) then None
    else
      match split_on ":" raw with
      | _ :: suid :: ts :: remaining_parts =>
          match py_int ts with
          | None => None
          | Some created_ts =>
              let '(preserve, remaining_parts) :=
                match last remaining_parts with
                | Some l =>
                    if String.eqb l "NOT_DELETE"
                    then (true, removelast remaining_parts)
                    else (false, remaining_parts)
                | None => (false, remaining_parts)
                end in
              let extra :=
                match remaining_parts with
                | [] => None
                | _ => Some (join ":" remaining_parts)
                end in
              Some (suid, created_ts, extra, preserve)
          end
      | _ => None
      end.

(** *** The firewall

    The firewall tool is an external collaborator. Its state is, for each
    existing chain of each table, the lines that [iptables -S chain] prints,
    in order. [iptables -t table -D chain rule] deletes the first rule that
    the chain lists as [-A chain rule] and exits non-zero when there is
    none; other invocations of the tool are not modelled. *)

Abbreviation firewall := (gmap (string * string) (list string)).

Definition first_word (s : string) : string :=
  fst (span (fun c => negb (Ascii.eqb c " ")) s).

Fixpoint remove_first (x : string) (l : list string) : option (list string) :=
  match l with
  | [] => None
  | y :: l' =>
      if String.eqb x y then Some l'
      else cons y <$> remove_first x l'
  end.

Definition iptables_delete (table args : string) (fw : firewall) : option firewall :=
  if startswith args "-D " then
    let rest := skip 3 args in
    let chain := first_word rest in
    match fw !! (table, chain) with
    | Some lines =>
        (fun lines' => <[(table, chain) := lines']> fw)
          <$> remove_first ("-A " +:+ rest) lines
    | None => None
    end
  else None.

(** [run_command_str] on the command [iptables -t table args] with
    [check=True]: a dry run raises [RuntimeError] before anything is executed. *)
Definition run_iptables (table args : string) (dry_run : bool) (fw : firewall)
  : result unit * firewall :=
  if dry_run then (Raise RuntimeError, fw)
  else match iptables_delete table args fw with
       | Some fw' => (Ok tt, fw')
       | None => (Raise CalledProcessError, fw)
       end.

(** [_iptables_S]: the non-blank lines of the chain; a chain that does not
    exist makes the tool fail, which is logged and gives no lines. *)
Definition _iptables_S (chain table : string) (fw : firewall) : list string :=
  let table := if truthy table then table else "filter" in
  match fw !! (table, chain) with
  | Some lines => List.filter (fun l => truthy (strip l)) lines
  | None => []
  end.

(** The loop of [remove_rules_for_suid] and of the anchor sweeps of
    [remove_all_rules_for_suid]: [selected] is the test on a line. *)
Fixpoint remove_lines (selected : string -> bool) (table : string) (dry_run : bool)
    (lines : list string) (removed : nat) (fw : firewall) : result nat * firewall :=
  match lines with
  | [] => (Ok removed, fw)
  | line :: lines' =>
      if selected line then
        let delete := replace_first "-A" "-D" line in
        match run_iptables table delete dry_run fw with
        | (Ok _, fw') => remove_lines selected table dry_run lines' (S removed) fw'
        | (Raise CalledProcessError, fw') =>
            remove_lines selected table dry_run lines' removed fw'
        | (Raise e, fw') => (Raise e, fw')
        end
      else remove_lines selected table dry_run lines' removed fw
  end.

Definition has_comment_of (suid line : string) : bool :=
  contains "-m comment --comment" line && contains COMMENT_PREFIX line
  && contains suid line.

Definition remove_rules_for_suid (suid table chain : string) (dry_run : bool)
    (fw : firewall) : result nat * firewall :=
  let lines := _iptables_S chain table fw in
  remove_lines (has_comment_of suid) table dry_run lines 0 fw.

(** Sequencing of two counting steps that may raise. *)
Definition and_then (step : firewall -> result nat * firewall)
    (r : result nat * firewall) : result nat * firewall :=
  match r with
  | (Ok n, fw) =>
      match step fw with
      | (Ok m, fw') => (Ok (n + m)%nat, fw')
      | (Raise e, fw') => (Raise e, fw')
      end
  | (Raise e, fw) => (Raise e, fw)
  end.

Definition remove_anchor_jumps (suid table target : string) (dry_run : bool)
    (anchor_chain : string) (fw : firewall) : result nat * firewall :=
  let lines := _iptables_S anchor_chain table fw in
  remove_lines
    (fun line => contains ("-j " +:+ target) line && has_comment_of suid line)
    table dry_run lines 0 fw.

Definition remove_all_rules_for_suid (suid : string) (dry_run : bool) (fw : firewall)
  : result nat * firewall :=
  let filter_anchors :=
    foldl (fun r c => and_then (remove_anchor_jumps suid "filter" STORMSHADOW_CHAIN dry_run c) r)
          (Ok 0%nat, fw) ["INPUT"; "OUTPUT"; "FORWARD"] in
  let nat_anchors :=
    foldl (fun r c => and_then (remove_anchor_jumps suid "nat" STORMSHADOW_NAT_CHAIN dry_run c) r)
          filter_anchors ["OUTPUT"; "PREROUTING"; "POSTROUTING"] in
  and_then (remove_rules_for_suid suid "nat" STORMSHADOW_NAT_CHAIN dry_run)
    (and_then (remove_rules_for_suid suid "filter" STORMSHADOW_CHAIN dry_run) nat_anchors).

(** *** Garbage collection: stale heartbeat files *)

(** The name under which [os.listdir(dir)] reports [path], if it is an
    entry of [dir]. *)
Definition child_name (dir path : string) : option string :=
  let base := if String.eqb dir EmptyString || endswith dir "/" then dir
              else dir +:+ "/" in
  if String.prefix base path then
    let name := skip (String.length base) path in
    if truthy name && negb (contains "/" name) then Some name else None
  else None.

Definition os_listdir (dir : string) (fs : filesystem) : list string :=
  omap (child_name dir) (map_to_list fs).*1.

Fixpoint unlink_stale (now ttl_seconds : Z) (heartbeat_dir : string)
    (names : list string) (removed_count : nat) (fs : filesystem) : nat * filesystem :=
  match names with
  | [] => (removed_count, fs)
  | filename :: names' =>
      if negb (endswith filename ".hb")
      then unlink_stale now ttl_seconds heartbeat_dir names' removed_count fs
      else
        let hb_path := os_path_join heartbeat_dir filename in
        match os_stat hb_path fs with
        | Ok mtime =>
            if ttl_seconds <=? now - mtime then
              match os_unlink hb_path fs with
              | (Ok _, fs') =>
                  unlink_stale now ttl_seconds heartbeat_dir names' (S removed_count) fs'
              | (Raise _, fs') =>
                  unlink_stale now ttl_seconds heartbeat_dir names' removed_count fs'
              end
            else unlink_stale now ttl_seconds heartbeat_dir names' removed_count fs
        | Raise _ => unlink_stale now ttl_seconds heartbeat_dir names' removed_count fs
        end
  end.

Definition cleanup_stale_heartbeats (now ttl_seconds : Z) (heartbeat_dir : string)
    (dry_run : bool) (fs : filesystem) : nat * filesystem :=
  if dry_run then (0%nat, fs)
  else match fs !! heartbeat_dir with
       | None => (0%nat, fs)
       | Some (File _) => (0%nat, fs)
       | Some (Dir _) =>
           unlink_stale now ttl_seconds heartbeat_dir (os_listdir heartbeat_dir fs) 0 fs
       end.

(** *** Garbage collection: the decision on one comment *)

Definition half_ttl_of (ttl_seconds : Z) : Z := Z.max 60 (ttl_seconds / 2).

Definition should_remove (now ttl_seconds : Z) (heartbeat_dir : string)
    (fs : filesystem) (comment_text : string) : result (option string) :=
  match _parse_comment comment_text with
  | None => Ok None
  | Some (suid, created_ts, _extra, preserve) =>
      if preserve then Ok None
      else
        let age := now - created_ts in
        let hb_path := hb_path_of heartbeat_dir suid in
        let half_ttl := half_ttl_of ttl_seconds in
        let verdict (hb_fresh : bool) : result (option string) :=
          if negb hb_fresh || (ttl_seconds <=? age) then Ok (Some suid)
          else Ok None in
        match os_stat hb_path fs with
        | Ok mtime => verdict (now - mtime <? half_ttl)
        | Raise FileNotFoundError => verdict false
        | Raise e => Raise e
        end
  end.

(** The caller's test [if candidate:] on the result of [should_remove]. *)
Definition candidate (r : option string) : option string :=
  match r with
  | Some suid => if truthy suid then Some suid else None
  | None => None
  end.

(** *** Garbage collection: the sweep of the chains *)

(** A match, at the start of [s], of the pattern of the anchor sweep:
    the word --comment, one or more white-space characters, a double quote, one
    or more characters other than a double quote (the group), a double quote.
    The result is the text of the group. *)
Definition match_comment_here (s : string) : option string :=
  if String.prefix "--comment" s then
    let '(spaces, r) := span is_space (skip 9 s) in
    match spaces, r with
    | String _ _, String c r' =>
        if Ascii.eqb c dquote then
          let '(body, closing) := span (fun c => negb (Ascii.eqb c dquote)) r' in
          match body, closing with
          | String _ _, String _ _ => Some body
          | _, _ => None
          end
        else None
    | _, _ => None
    end
  else None.

(** [re.search] with that pattern: the group of the leftmost match. *)
Fixpoint re_search_comment (line : string) : option string :=
  match match_comment_here line with
  | Some body => Some body
  | None =>
      match line with
      | EmptyString => None
      | String _ line' => re_search_comment line'
      end
  end.

(** The text that the sweeps of the dedicated chains hand to [should_remove]:
    of the text after the first --comment, stripped, the part after its first
    space, stripped of white space and then of quote characters; the whole
    line when an index is out of range. *)
Definition comment_text_of (line : string) : string :=
  match split_once "--comment" line with
  | [_; after] =>
      match split_once " " (strip after) with
      | [_; rest] => strip_chars (String "'" (String dquote EmptyString)) (strip rest)
      | _ => line
      end
  | _ => line
  end.

(** The sweep of one anchor chain of the filter table. Every exception
    inside the loop body is logged there. *)
Fixpoint gc_anchor_lines (now ttl_seconds : Z) (heartbeat_dir : string)
    (fs : filesystem) (dry_run : bool) (lines : list string) (removed_total : nat)
    (fw : firewall) : nat * firewall :=
  match lines with
  | [] => (removed_total, fw)
  | line :: lines' =>
      let continue := gc_anchor_lines now ttl_seconds heartbeat_dir fs dry_run lines' in
      if contains ("-j " +:+ STORMSHADOW_CHAIN) line
         && contains "-m comment --comment" line && contains COMMENT_PREFIX line
      then
        match re_search_comment line with
        | Some comment_text =>
            match should_remove now ttl_seconds heartbeat_dir fs comment_text with
            | Ok r =>
                match candidate r with
                | Some _ =>
                    let delete_rule := replace_first "-A" "-D" line in
                    match run_iptables "filter" delete_rule dry_run fw with
                    | (Ok _, fw') => continue (S removed_total) fw'
                    | (Raise _, fw') => continue removed_total fw'
                    end
                | None => continue removed_total fw
                end
            | Raise _ => continue removed_total fw
            end
        | None => continue removed_total fw
        end
      else continue removed_total fw
  end.

(** The sweep of one dedicated chain. *)
Fixpoint gc_chain_lines (now ttl_seconds : Z) (heartbeat_dir : string)
    (fs : filesystem) (dry_run : bool) (table chain : string) (lines : list string)
    (removed_total : nat) (fw : firewall) : result nat * firewall :=
  match lines with
  | [] => (Ok removed_total, fw)
  | line :: lines' =>
      let continue :=
        gc_chain_lines now ttl_seconds heartbeat_dir fs dry_run table chain lines' in
      if contains "-m comment --comment" line && contains COMMENT_PREFIX line then
        match should_remove now ttl_seconds heartbeat_dir fs (comment_text_of line) with
        | Ok r =>
            match candidate r with
            | Some suid =>
                match remove_rules_for_suid suid table chain dry_run fw with
                | (Ok n, fw') => continue (removed_total + n)%nat fw'
                | (Raise e, fw') => (Raise e, fw')
                end
            | None => continue removed_total fw
            end
        | Raise e => (Raise e, fw)
        end
      else continue removed_total fw
  end.

(** [cleanup_stale_rules]: [now0] and [now] are the two readings of the clock. *)
Definition cleanup_stale_rules (now0 now ttl_seconds : Z) (heartbeat_dir : string)
    (dry_run : bool) (fs : filesystem) (fw : firewall)
  : result nat * filesystem * firewall :=
  let '(_, fs) := cleanup_stale_heartbeats now0 ttl_seconds heartbeat_dir dry_run fs in
  let '(removed_total, fw) :=
    foldl (fun '(n, fw) anchor_chain =>
             gc_anchor_lines now ttl_seconds heartbeat_dir fs dry_run
               (_iptables_S anchor_chain "filter" fw) n fw)
          (0%nat, fw) ["INPUT"; "OUTPUT"; "FORWARD"] in
  match gc_chain_lines now ttl_seconds heartbeat_dir fs dry_run "filter" STORMSHADOW_CHAIN
          (_iptables_S STORMSHADOW_CHAIN "filter" fw) removed_total fw with
  | (Raise e, fw) => (Raise e, fs, fw)
  | (Ok removed_total, fw) =>
      match gc_chain_lines now ttl_seconds heartbeat_dir fs dry_run "nat"
              STORMSHADOW_NAT_CHAIN (_iptables_S STORMSHADOW_NAT_CHAIN "nat" fw)
              removed_total fw with
      | (r, fw) => (r, fs, fw)
      end
  end.

(** The owner that the quoted comment of a listed rule decodes to. *)
Definition owner_of (line : string) : option string :=
  match re_search_comment line with
  | Some comment_text => (fun p => p.1.1.1) <$> _parse_comment comment_text
  | None => None
  end.

(** *** Queue numbers in use *)

(** [max(...)] of the numbers of a generator: [ValueError] when it is empty. *)
Definition py_max (l : list Z) : result Z :=
  match l with
  | [] => Raise ValueError
  | x :: xs => Ok (foldl Z.max x xs)
  end.

(** The generator of [get_current_iptables_queue_num]: for each line that
    holds the marker, the integer that the text after the marker reads as. *)
Fixpoint queue_numbers (lines : list string) : result (list Z) :=
  match lines with
  | [] => Ok []
  | line :: lines' =>
      if contains "--queue-num " line then
        match split_str "--queue-num " line !! 1%nat with
        | None => Raise IndexError
        | Some text =>
            match py_int text with
            | None => Raise ValueError
            | Some q =>
                match queue_numbers lines' with
                | Ok qs => Ok (q :: qs)
                | Raise e => Raise e
                end
            end
        end
      else queue_numbers lines'
  end.

(** [get_current_iptables_queue_num]: [run] is the outcome of the listing
    command, its standard output or the exception it raised. *)
Definition get_current_iptables_queue_num (run : result string) : result Z :=
  let body :=
    match run with
    | Raise e => Raise e
    | Ok stdout =>
        let lines :=
          List.filter (contains "NFQUEUE") (split_on newline (strip stdout)) in
        match lines with
        | [] => Ok (-1)
        | _ =>
            match queue_numbers lines with
            | Ok qs => py_max qs
            | Raise e => Raise e
            end
        end
    end in
  match body with
  | Raise CalledProcessError => Ok (-1)
  | Raise IndexError => Ok (-1)
  | r => r
  end.

(** *** Session identifiers *)

(** [uuid.uuid4().hex]: the 32 hexadecimal digits of the 128-bit value [u]
    of the identifier, most significant first. *)
Definition hex_char (d : N) : ascii :=
  if (d <? 10)%N then ascii_of_N (48 + d) else ascii_of_N (87 + d).

Fixpoint hex_go (n : nat) (u : N) (acc : string) : string :=
  match n with
  | O => acc
  | S n' => hex_go n' (u / 16) (String (hex_char (u mod 16)) acc)
  end.

Definition uuid_hex (u : N) : string := hex_go 32 u EmptyString.

(** [generate_suid]: [uuid.uuid4().hex[:10]], with [u] the value drawn. *)
Definition generate_suid (u : N) : string := substring 0 10 (uuid_hex u).

End Iptables.

Import Iptables.

(** ** sip_attacks/spoofer.py *)

Module Spoofer.

Abbreviation bytes := (list Byte.byte).

(** [random.choice(EPHEMERAL_PORTS)] with [EPHEMERAL_PORTS = range(49152, 65536)]:
    [rnd] is the draw of the random source. *)
Definition EPHEMERAL_PORTS_start : Z := 49152.
Definition EPHEMERAL_PORTS_stop : Z := 65536.
Definition random_ephemeral_port (rnd : Z) : Z :=
  EPHEMERAL_PORTS_start + rnd mod (EPHEMERAL_PORTS_stop - EPHEMERAL_PORTS_start).

(** The packet of the kernel queue: its payload and the verdicts issued on it. *)
Inductive verdict : Type := Accept | Drop.

Record Packet : Type := {
  payload : bytes;
  verdicts : list verdict
}.

Definition get_payload (packet : Packet) : bytes := payload packet.
Definition set_payload (raw : bytes) (packet : Packet) : Packet :=
  {| payload := raw; verdicts := verdicts packet |}.
Definition accept (packet : Packet) : Packet :=
  {| payload := payload packet; verdicts := verdicts packet ++ [Accept] |}.
Definition drop (packet : Packet) : Packet :=
  {| payload := payload packet; verdicts := verdicts packet ++ [Drop] |}.

(** The fields of a dissected packet that the handler touches. A checksum
    that was deleted is [None]. *)
Record UDP : Type := {
  sport : Z;
  dport : Z;
  udp_chksum : option Z;
  udp_load : bytes
}.

Record ScapyPacket : Type := {
  src : string;
  dst : string;
  ip_chksum : option Z;
  udp_layer : option UDP
}.

Record NetfilterQueue : Type := { bound : bool }.

Section WithLibraries.

(** The libraries the module calls: [ipaddress] ([ip_network] and the
    addresses of [hosts()] as strings) and the packet library (dissection of
    a payload and the bytes of a packet, which recomputes deleted checksums). *)
Variable network : Type.
Variable ip_network : string -> result network.
Variable hosts : network -> list string.
Variable IP : bytes -> result ScapyPacket.
Variable to_bytes : ScapyPacket -> result bytes.

Record Spoofer : Type := {
  spoofed_subnet : network;
  attack_queue_num : Z;
  attacker_port : Z;
  victim_ip : string;
  victim_port : Z;
  next_ip_number : nat;
  spoofed_ips : list string;
  netfilter_spoofing_queue : option NetfilterQueue;
  should_stop : bool
}.

(** [Spoofer.__init__]. *)
Definition init (attack_queue_num : Z) (spoofed_subnet : string) (victim_port : Z)
    (victim_ip : string) (attacker_port : Z) : result Spoofer :=
  match ip_network spoofed_subnet with
  | Raise e => Raise e
  | Ok net =>
      Ok {| spoofed_subnet := net;
            attack_queue_num := attack_queue_num;
            attacker_port := attacker_port;
            victim_ip := victim_ip;
            victim_port := victim_port;
            next_ip_number := 0;
            spoofed_ips := hosts net;
            netfilter_spoofing_queue := None;
            should_stop := false |}
  end.

Definition set_next_ip_number (n : nat) (self : Spoofer) : Spoofer :=
  {| spoofed_subnet := spoofed_subnet self;
     attack_queue_num := attack_queue_num self;
     attacker_port := attacker_port self;
     victim_ip := victim_ip self;
     victim_port := victim_port self;
     next_ip_number := n;
     spoofed_ips := spoofed_ips self;
     netfilter_spoofing_queue := netfilter_spoofing_queue self;
     should_stop := should_stop self |}.

Definition set_queue (q : option NetfilterQueue) (self : Spoofer) : Spoofer :=
  {| spoofed_subnet := spoofed_subnet self;
     attack_queue_num := attack_queue_num self;
     attacker_port := attacker_port self;
     victim_ip := victim_ip self;
     victim_port := victim_port self;
     next_ip_number := next_ip_number self;
     spoofed_ips := spoofed_ips self;
     netfilter_spoofing_queue := q;
     should_stop := should_stop self |}.

(** The handler's state: the spoofer and the packet it was handed. *)
Definition state : Type := Spoofer * Packet.
Definition M (A : Type) : Type := state -> result A * state.

Definition ret {A} (a : A) : M A := fun st => (Ok a, st).
Definition raise {A} (e : exn) : M A := fun st => (Raise e, st).
Definition bind {A B} (m : M A) (k : A -> M B) : M B :=
  fun st => match m st with
            | (Ok a, st') => k a st'
            | (Raise e, st') => (Raise e, st')
            end.
Definition lift {A} (r : result A) : M A := fun st => (r, st).
Definition on_packet (f : Packet -> Packet) : M unit :=
  fun '(self, packet) => (Ok tt, (self, f packet)).

(** [try: body except Exception: handler] and [try: body finally: final]. *)
Definition try_except {A} (body : M A) (handler : exn -> M A) : M A :=
  fun st => match body st with
            | (Ok a, st') => (Ok a, st')
            | (Raise e, st') => handler e st'
            end.
Definition try_finally {A} (body : M A) (final : M unit) : M A :=
  fun st => match body st with
            | (r, st') =>
                match final st' with
                | (Ok _, st'') => (r, st'')
                | (Raise e, st'') => (Raise e, st'')
                end
            end.

Notation "x <- m ;; k" := (bind m (fun x => k))
  (at level 100, m at next level, right associativity).
Notation "m ;;; k" := (bind m (fun _ => k))
  (at level 100, right associativity).

(** [get_spoofed_ip]: an empty list makes the subscript raise. *)
Definition get_spoofed_ip : M string :=
  fun '(self, packet) =>
    match spoofed_ips self !! next_ip_number self with
    | None => (Raise IndexError, (self, packet))
    | Some ip =>
        let n := ((next_ip_number self + 1) mod length (spoofed_ips self))%nat in
        (Ok ip, (set_next_ip_number n self, packet))
    end.

(** [pkt[UDP].sport = port]: the subscript raises when the layer is missing. *)
Definition set_sport (port : Z) (pkt : ScapyPacket) : result ScapyPacket :=
  match udp_layer pkt with
  | None => Raise IndexError
  | Some u =>
      Ok {| src := src pkt; dst := dst pkt; ip_chksum := ip_chksum pkt;
            udp_layer := Some {| sport := port; dport := dport u;
                                 udp_chksum := udp_chksum u;
                                 udp_load := udp_load u |} |}
  end.

Definition set_src (ip : string) (pkt : ScapyPacket) : ScapyPacket :=
  {| src := ip; dst := dst pkt; ip_chksum := ip_chksum pkt;
     udp_layer := udp_layer pkt |}.

(** [del pkt[IP].chksum] and [del pkt[UDP].chksum]. *)
Definition del_ip_chksum (pkt : ScapyPacket) : ScapyPacket :=
  {| src := src pkt; dst := dst pkt; ip_chksum := None;
     udp_layer := udp_layer pkt |}.
Definition del_udp_chksum (pkt : ScapyPacket) : result ScapyPacket :=
  match udp_layer pkt with
  | None => Raise IndexError
  | Some u =>
      Ok {| src := src pkt; dst := dst pkt; ip_chksum := ip_chksum pkt;
            udp_layer := Some {| sport := sport u; dport := dport u;
                                 udp_chksum := None; udp_load := udp_load u |} |}
  end.

(** The statements of the [try] block before the verdict: parsing the
    payload and rewriting it. *)
Definition rewrite_packet (rnd : Z) : M unit :=
  fun '(self, packet) =>
    (pkt <- lift (IP (get_payload packet)) ;;
     ip <- get_spoofed_ip ;;
     let pkt := set_src ip pkt in
     pkt <- lift (set_sport (random_ephemeral_port rnd) pkt) ;;
     let pkt := del_ip_chksum pkt in
     pkt <- lift (del_udp_chksum pkt) ;;
     raw <- lift (to_bytes pkt) ;;
     on_packet (set_payload raw)) (self, packet).

(** The [finally] block: unbind the queue when a stop was requested. *)
Definition unbind_if_requested : M unit :=
  fun '(self, packet) =>
    match should_stop self, netfilter_spoofing_queue self with
    | true, Some _ => (Ok tt, (set_queue (Some {| bound := false |}) self, packet))
    | _, _ => (Ok tt, (self, packet))
    end.

(** [Spoofer.packet_spoofer]. *)
Definition packet_spoofer (rnd : Z) : M unit :=
  try_finally
    (try_except
       (rewrite_packet rnd ;;; on_packet accept)
       (fun _ => on_packet drop))
    unbind_if_requested.

End WithLibraries.

Arguments spoofed_subnet {network} _.
Arguments attack_queue_num {network} _.
Arguments next_ip_number {network} _.
Arguments spoofed_ips {network} _.
Arguments netfilter_spoofing_queue {network} _.
Arguments should_stop {network} _.
Arguments init {network} ip_network hosts _ _ _ _ _.
Arguments get_spoofed_ip {network} _.
Arguments rewrite_packet {network} IP to_bytes rnd _.
Arguments unbind_if_requested {network} _.
Arguments packet_spoofer {network} IP to_bytes rnd _.

End Spoofer.

(** ** sip_attacks/sip_spoofing.py *)

Module SipSpoofing.












End SipSpoofing.

(** ** utils/attack/AttackSession.py *)

Module AttackInterface.

(** The generator plug-in: its flags, and what its [stop_spoofing] and
    [stop] do to the firewall. *)
Record AttackInterface : Type := {
  dry_run_implemented : bool;
  resume_implemented : bool;
  spoofing_implemented : bool;
  stop_spoofing : firewall -> result bool * firewall;
  stop : firewall -> result unit * firewall
}.

End AttackInterface.

Module AttackSession.

Inductive AttackStatus : Type := INITIALIZED | RUNNING | STOPPED | FAILED | COMPLETED.

Record AttackSession : Type := {
  name : string;
  main_attack : AttackInterface.AttackInterface;
  dry_run : bool;
  status : AttackStatus;
  enable_spoofing : bool;
  suid : string;
  is_resumable : bool;
  use_default_spoofing : bool
}.

Definition set_status (st : AttackStatus) (self : AttackSession) : AttackSession :=
  {| name := name self; main_attack := main_attack self; dry_run := dry_run self;
     status := st; enable_spoofing := enable_spoofing self; suid := suid self;
     is_resumable := is_resumable self;
     use_default_spoofing := use_default_spoofing self |}.

(** [AttackSession.stop]: every exception is logged, none leaves the method. *)
Definition stop (self : AttackSession) (fw : firewall) : AttackSession * firewall :=
  if dry_run self && negb (AttackInterface.dry_run_implemented (main_attack self))
  then (self, fw)
  else
    let fw :=
      if enable_spoofing self
      then snd (AttackInterface.stop_spoofing (main_attack self) fw)
      else fw in
    match AttackInterface.stop (main_attack self) fw with
    | (Raise _, fw) => (self, fw)
    | (Ok _, fw) =>
        let self := set_status STOPPED self in
        match remove_rules_for_suid (suid self) "filter" STORMSHADOW_CHAIN
                (dry_run self) fw with
        | (Raise _, fw) => (self, fw)
        | (Ok _, fw) =>
            (self, snd (remove_rules_for_suid (suid self) "nat" STORMSHADOW_CHAIN
                          (dry_run self) fw))
        end
    end.

End AttackSession.

(** ** utils/config/config_manager.py *)

Module ConfigManager.

(** [get_available_queue_num]: [run] is the outcome of the listing command. *)
Definition get_available_queue_num (run : result string) : result Z :=
  match get_current_iptables_queue_num run with
  | Ok n => Ok (n + 1)
  | Raise e => Raise e
  end.

End ConfigManager.

(** ** utils/config/config.py *)

Module Config.

(** The values of a configuration: what a YAML file and the command line
    give. A dictionary keeps its keys, which are strings, in the order of
    their insertion; a float is its 64 bits. *)
#[local] Unset Elimination Schemes.
Inductive value : Type :=
  | VNone
  | VBool (b : bool)
  | VInt (z : Z)
  | VFloat (bits : N)
  | VStr (s : string)
  | VPath (p : string)
  | VList (l : list value)
  | VDict (d : list (string * value)).
#[local] Set Elimination Schemes.

Abbreviation dict := (list (string * value)).

Inductive error : Type := TypeError | ValueError.

Inductive outcome (A : Type) : Type :=
  | Returns (a : A)
  | Raises (e : error).
Arguments Returns {A} a.
Arguments Raises {A} e.

(** [d.get(k)] without default, [k in d] and [d[k] = v] on a dictionary. *)
Fixpoint dict_get (k : string) (d : dict) : option value :=
  match d with
  | [] => None
  | (k', v) :: d' => if String.eqb k' k then Some v else dict_get k d'
  end.

Definition dict_in (k : string) (d : dict) : bool :=
  match dict_get k d with Some _ => true | None => false end.

Fixpoint dict_set (k : string) (v : value) (d : dict) : dict :=
  match d with
  | [] => [(k, v)]
  | (k', v') :: d' =>
      if String.eqb k' k then (k, v) :: d' else (k', v') :: dict_set k v d'
  end.

(** [key == x] for a string key and an element of a list. *)
Definition is_str (key : string) (x : value) : bool :=
  match x with VStr s => String.eqb key s | _ => false end.

(** [Parameters.get]: [_get_recursive] on the container [d]. A container
    that is no dictionary raises [TypeError] when it is subscripted by a
    string; [key in d] on a string is the test for a substring, on a list the
    test for an element, and raises on the other values. *)
Fixpoint _get_recursive (name : string) (default : value) (d : value)
    (path : list string) : outcome value :=
  match path with
  | [] =>
      match d with
      | VDict items =>
          match dict_get name items with
          | Some v => Returns v
          | None => Returns default
          end
      | _ => Raises TypeError
      end
  | key :: path' =>
      match d with
      | VDict items =>
          match dict_get key items with
          | None => Returns default
          | Some d' => _get_recursive name default d' path'
          end
      | VStr s => if contains key s then Raises TypeError else Returns default
      | VList l => if existsb (is_str key) l then Raises TypeError else Returns default
      | _ => Raises TypeError
      end
  end.

Definition get (name : string) (default : value) (path : list string) (self : dict)
  : outcome value :=
  _get_recursive name default (VDict self) path.

(** [isinstance(value, self.authorized_values)]. *)
Definition authorized (v : value) : bool :=
  match v with VNone => false | _ => true end.

(** [Parameters.set]: [_set_recursive] on the dictionary [d]. *)
Fixpoint _set_recursive (name : string) (value : value) (d : dict)
    (path : list string) : outcome dict :=
  match path with
  | [] => Returns (dict_set name value d)
  | key :: path' =>
      let d := if dict_in key d then d else dict_set key (VDict []) d in
      match dict_get key d with
      | Some (VDict inner) =>
          match path' with
          | [] => Returns (dict_set key (VDict (dict_set name value inner)) d)
          | _ =>
              match _set_recursive name value inner path' with
              | Returns inner' => Returns (dict_set key (VDict inner') d)
              | Raises e => Raises e
              end
          end
      | _ => Raises TypeError
      end
  end.

Definition set (name : string) (value : value) (path : list string) (self : dict)
  : outcome dict :=
  if authorized value then _set_recursive name value self path
  else Raises ValueError.

(** [Parameters.flatten]: one item of [_flatten], then its loop. *)
Fixpoint flatten_item (parent_key k : string) (v : value) (flat_params : dict) : dict :=
  let new_key := if truthy parent_key then parent_key +:+ "." +:+ k else k in
  match v with
  | VDict d =>
      (fix items (d : dict) (flat_params : dict) : dict :=
         match d with
         | [] => flat_params
         | (k', v') :: d' => items d' (flatten_item new_key k' v' flat_params)
         end) d flat_params
  | _ => dict_set new_key v flat_params
  end.

Definition _flatten (d : dict) (parent_key : string) (flat_params : dict) : dict :=
  foldl (fun flat_params kv => flatten_item parent_key kv.1 kv.2 flat_params)
        flat_params d.

Definition flatten (self : dict) : dict := _flatten self EmptyString [].

(** [UpdateFlatConfig]: the parameters of the configuration after the call. *)
Definition UpdateFlatConfig (parameters new_parameters : dict) : dict :=
  foldl (fun parameters kv =>
           if dict_in kv.1 parameters then dict_set kv.1 kv.2 parameters
           else parameters)
        parameters new_parameters.

End Config.

(** ** utils/core/stormshadow.py *)

Module StormShadow.


Definition world : Type := filesystem * firewall.

(** The orchestrator: its session, and what the [stop] of its two
    managers does to the heartbeat directory and the firewall. *)
Record StormShadow : Type := {
  session_uid : string;
  attack_on : bool;
  lab_on : bool;
  attack_manager : option (world -> result unit * world);
  lab_manager : option (world -> result unit * world)
}.

(** The two blocks of [stop] that stop the managers: what they raise is
    logged. *)
Definition stop_managers (self : StormShadow) (w : world) : world :=
  let w := match attack_on self, attack_manager self with
           | true, Some manager_stop => snd (manager_stop w)
           | _, _ => w
           end in
  match lab_on self, lab_manager self with
  | true, Some manager_stop => snd (manager_stop w)
  | _, _ => w
  end.

(** [StormShadow.stop]: the managers, then the heartbeat file, then the
    rules of the session. *)
Definition stop (self : StormShadow) (w : world) : world :=
  let '(fs, fw) := stop_managers self w in
  let '(_, fs) := heartbeat_remove (session_uid self) DEFAULT_HEARTBEAT_DIR fs in
  let '(_, fw) := remove_all_rules_for_suid (session_uid self) false fw in
  (fs, fw).

End StormShadow.

(** ** The data of the examples *)

Module Examples.

(** A queue rule of the dedicated filter chain, as the firewall tool lists it. *)
Definition nfqueue_rule (suid ts port queue : string) : string :=
  "-A STORMSHADOW -p udp -m udp --dport " +:+ port +:+ " -m comment --comment "
  +:+ quoted ("Stormshadow:" +:+ suid +:+ ":" +:+ ts +:+ ":udp_dport=" +:+ port
              +:+ ";queue=" +:+ queue)
  +:+ " -j NFQUEUE --queue-num " +:+ queue.

(** A return-path rule of the dedicated nat chain. *)
Definition dnat_rule (suid ts : string) : string :=
  "-A STORMSHADOW-NAT -d 10.10.123.0/25 -p udp -m comment --comment "
  +:+ quoted ("Stormshadow:" +:+ suid +:+ ":" +:+ ts +:+ ":dnat_to=10.0.0.5:5060")
  +:+ " -j DNAT --to-destination 10.0.0.5:5060".

(** An instance of the address library for the examples. A network is its
    network address and its prefix length. [ip_network] reads four decimal
    octets, a slash and a prefix length, and refuses host bits that are set.
    [hosts] is the enumeration of the library's base class, the addresses
    strictly between the network address and the broadcast address, with the
    two addresses of a prefix of length 31; versions of the library that
    apply it to a prefix of length 32 find no host there. *)
Definition number (s : string) : option N :=
  if truthy s && all_digits s then parse_digits s 0 false else None.

Definition octets (s : string) : option (list N) :=
  mapM number (split_on "." s).

Definition ip_network (s : string) : result (N * N) :=
  match split_on "/" s with
  | [a; p] =>
      match octets a, number p with
      | Some [o1; o2; o3; o4], Some len =>
          let addr := (((o1 * 256 + o2) * 256 + o3) * 256 + o4)%N in
          if forallb (fun o => (o <? 256)%N) [o1; o2; o3; o4] && (len <=? 32)%N
             && (addr mod 2 ^ (32 - len) =? 0)%N
          then Ok (addr, len) else Raise ValueError
      | _, _ => Raise ValueError
      end
  | _ => Raise ValueError
  end.

Definition address_text (a : N) : string :=
  join "." (map (fun k => py_str (Z.of_N ((a / 256 ^ k) mod 256))) [3; 2; 1; 0]%N).

Definition hosts (net : N * N) : list string :=
  let '(network_address, len) := net in
  let broadcast_address := (network_address + 2 ^ (32 - len) - 1)%N in
  if (len =? 31)%N then [address_text network_address; address_text broadcast_address]
  else map (fun i => address_text (network_address + 1 + N.of_nat i))
           (seq 0 (N.to_nat (broadcast_address - network_address - 1))).

(** Two sessions with rules in the dedicated filter chain: the identifier
    of the first, ten hexadecimal digits that happen to be decimal, is the
    creation time of the rule of the second. *)
Definition two_sessions : firewall :=
  {[ ("filter", "STORMSHADOW") :=
       [ "-N STORMSHADOW";
         nfqueue_rule "c0ffee1234" "1762128000" "5070" "2";
         nfqueue_rule "1762128000" "1762100000" "5060" "1" ] ]}.

(** A session with a queue rule in the filter table and a return-path rule
    in the nat table. *)
Definition session_with_nat_rule : firewall :=
  <[ ("nat", "STORMSHADOW-NAT") :=
       [ "-N STORMSHADOW-NAT"; dnat_rule "abc1234567" "1762128000" ] ]>
  {[ ("filter", "STORMSHADOW") :=
       [ "-N STORMSHADOW"; nfqueue_rule "abc1234567" "1762128000" "5060" "1" ] ]}.

(** An anchor jump of the OUTPUT chain, with the given comment. *)
Definition anchor_jump (comment : string) : string :=
  "-A OUTPUT -m comment --comment " +:+ quoted comment +:+ " -j STORMSHADOW".

(** The rules and the heartbeat of a session that was started at time
    1762000000 and then disappeared, beside a preserved jump. *)
Definition abandoned_rules : firewall :=
  <[ ("filter", "OUTPUT") :=
       [ "-P OUTPUT ACCEPT";
         anchor_jump "Stormshadow:abc1234567:1762000000:OUTPUT->STORMSHADOW";
         anchor_jump "Stormshadow:anchor:1762000000:OUTPUT->STORMSHADOW:NOT_DELETE" ] ]>
  {[ ("filter", "STORMSHADOW") :=
       [ "-N STORMSHADOW"; nfqueue_rule "abc1234567" "1762000000" "5060" "1" ] ]}.

Definition abandoned_heartbeats : filesystem :=
  <[ "/run/stormshadow" := Dir 1762000000 ]>
  {[ "/run/stormshadow/abc1234567.hb" := File 1762000000 ]}.

(** A generator whose [stop_spoofing] and [stop] leave the firewall alone. *)
Definition quiet_attack : AttackInterface.AttackInterface :=
  {| AttackInterface.dry_run_implemented := false;
     AttackInterface.resume_implemented := false;
     AttackInterface.spoofing_implemented := true;
     AttackInterface.stop_spoofing := fun fw => (Ok true, fw);
     AttackInterface.stop := fun fw => (Ok tt, fw) |}.



Definition running_session : AttackSession.AttackSession :=
  {| AttackSession.name := "inviteflood";
     AttackSession.main_attack := quiet_attack;
     AttackSession.dry_run := false;
     AttackSession.status := AttackSession.RUNNING;
     AttackSession.enable_spoofing := true;
     AttackSession.suid := "abc1234567";
     AttackSession.is_resumable := false;
     AttackSession.use_default_spoofing := false |}.

(** A listing of the rules with two queue rules. *)
Definition listing_example : string :=
  "-P INPUT ACCEPT" +:+ String newline
  ("-A STORMSHADOW -p udp -m udp --dport 5060 -j NFQUEUE --queue-num 3" +:+ String newline
  ("-A STORMSHADOW -p udp -m udp --dport 5070 -j NFQUEUE --queue-num 12" +:+ String newline
   EmptyString)).

(** An orchestrator without managers. *)
Definition lone_session : StormShadow.StormShadow :=
  {| StormShadow.session_uid := "abc1234567";
     StormShadow.attack_on := false;
     StormShadow.lab_on := false;
     StormShadow.attack_manager := None;
     StormShadow.lab_manager := None |}.

(** A generator that implements the dry run and leaves the firewall alone. *)
Definition rehearsed_attack : AttackInterface.AttackInterface :=
  {| AttackInterface.dry_run_implemented := true;
     AttackInterface.resume_implemented := false;
     AttackInterface.spoofing_implemented := true;
     AttackInterface.stop_spoofing := fun fw => (Ok true, fw);
     AttackInterface.stop := fun fw => (Ok tt, fw) |}.

Definition rehearsal : AttackSession.AttackSession :=
  {| AttackSession.name := "inviteflood";
     AttackSession.main_attack := rehearsed_attack;
     AttackSession.dry_run := true;
     AttackSession.status := AttackSession.RUNNING;
     AttackSession.enable_spoofing := true;
     AttackSession.suid := "abc1234567";
     AttackSession.is_resumable := false;
     AttackSession.use_default_spoofing := false |}.

(** A spoofer on a subnet with two host addresses, and a packet of the queue. *)
Definition small_pool : Spoofer.Spoofer (N * N) :=
  {| Spoofer.spoofed_subnet := (167772160%N, 30%N);
     Spoofer.attack_queue_num := 1;
     Spoofer.attacker_port := 5061;
     Spoofer.victim_ip := "10.0.0.5";
     Spoofer.victim_port := 5060;
     Spoofer.next_ip_number := 0;
     Spoofer.spoofed_ips := hosts (167772160%N, 30%N);
     Spoofer.netfilter_spoofing_queue := None;
     Spoofer.should_stop := false |}.

Definition queued_packet : Spoofer.Packet :=
  {| Spoofer.payload := []; Spoofer.verdicts := [] |}.

(** A toy packet library for the examples: every payload dissects into the
    same datagram, and every packet has the same bytes. *)
Definition toy_datagram : Spoofer.ScapyPacket :=
  {| Spoofer.src := "192.168.1.10"; Spoofer.dst := "10.0.0.5";
     Spoofer.ip_chksum := Some 4660;
     Spoofer.udp_layer := Some {| Spoofer.sport := 5061; Spoofer.dport := 5060;
                                  Spoofer.udp_chksum := Some 22136;
                                  Spoofer.udp_load := [] |} |}.

(** The parameters of a configuration, with nested dictionaries. *)
Definition attack_defaults : Config.dict :=
  [ ("app", Config.VDict [ ("enabled", Config.VDict [ ("attack", Config.VBool true) ]) ]);
    ("attack", Config.VDict [ ("target_ip", Config.VStr "auto");
                              ("target_port", Config.VInt 5060) ]);
    ("name", Config.VStr "lab") ].

End Examples.

(** ** Notions used in the statements *)

Module Notions.

(** Enough fuel: [n] has at most [fuel + 1] digits. *)
Definition fits (fuel : nat) (n : N) : Prop := (n < 10 * 2 ^ N.of_nat fuel)%N.

(** A character that the decoder strips from the ends of a comment. *)
Definition strippable (c : ascii) : bool := is_space c || in_chars "/*" c.

Definition ends_strippable (s : string) : bool :=
  match last_char s with
  | Some c => strippable c
  | None => false
  end.

(** The text after the last colon of [e] (all of [e] when it has no colon). *)
Definition last_segment (e : string) : string :=
  default EmptyString (last (split_on ":" e)).

(** The tuples whose encoding decodes to themselves: the owner has no colon;
    [extra] is absent or a non-empty text; and, for a rule that is not
    preserved, [extra] neither ends in the text NOT_DELETE after its last
    colon nor in a character that the decoder strips. *)
Definition encodable (suid : string) (extra : option string) (preserve : bool) : bool :=
  negb (has_char ":" suid) &&
  match extra with
  | None => true
  | Some e =>
      truthy e &&
      (preserve || (negb (String.eqb (last_segment e) "NOT_DELETE")
                    && negb (ends_strippable e)))
  end.

(** The parts after the time stamp in the encoding of a tuple. *)
Definition rest_of (extra : option string) (preserve : bool) : list string :=
  match extra with Some e => split_on ":" e | None => [] end
  ++ (if preserve then ["NOT_DELETE"] else []).



(** The end of a text after the four strippings of the decoder. *)
Definition rstrip_chain (x : string) : string :=
  rstrip_by is_space
    (rstrip_by (in_chars "*/") (rstrip_by (in_chars "/*") (rstrip_by is_space x))).

(** The lines that the sweep of an anchor chain deletes: jumps to the
    dedicated chain whose quoted comment makes [should_remove] answer with a
    non-empty owner. *)
Definition anchor_selected (now ttl_seconds : Z) (heartbeat_dir : string)
    (fs : filesystem) (line : string) : bool :=
  contains ("-j " +:+ STORMSHADOW_CHAIN) line
  && contains "-m comment --comment" line && contains COMMENT_PREFIX line
  && match re_search_comment line with
     | Some comment_text =>
         match should_remove now ttl_seconds heartbeat_dir fs comment_text with
         | Ok r => bool_decide (is_Some (candidate r))
         | Raise _ => false
         end
     | None => false
     end.

(** A listed rule of [chain]: the text -A, the chain and the rule, with
    single spaces between them. *)
Definition rule_of_chain (chain line : string) : Prop :=
  exists rule, line = "-A " +:+ chain +:+ " " +:+ rule.

(** The queue number that a line of the listing names. *)
Definition queue_of (line : string) : option Z :=
  text ← split_str "--queue-num " line !! 1%nat; py_int text.

(** A hexadecimal digit in lower case. *)
Definition is_hex (c : ascii) : bool := in_chars "0123456789abcdef" c.



(** The chains that full teardown sweeps, in the order of the sweep, each
    with the test that selects a line of the chain for deletion. *)
Definition teardown_steps (suid : string) : list (string * string * (string -> bool)) :=
  map (fun anchor_chain =>
         ("filter", anchor_chain,
          fun line => contains ("-j " +:+ STORMSHADOW_CHAIN) line && has_comment_of suid line))
      ["INPUT"; "OUTPUT"; "FORWARD"]
  ++ map (fun anchor_chain =>
            ("nat", anchor_chain,
             fun line => contains ("-j " +:+ STORMSHADOW_NAT_CHAIN) line
                         && has_comment_of suid line))
         ["OUTPUT"; "PREROUTING"; "POSTROUTING"]
  ++ [ ("filter", STORMSHADOW_CHAIN, has_comment_of suid);
       ("nat", STORMSHADOW_NAT_CHAIN, has_comment_of suid) ].

(** The test of full teardown on the lines of the chain [key]; no line of
    a chain that teardown does not sweep is selected. *)
Definition teardown_test (suid : string) (key : string * string) : string -> bool :=
  match List.find (fun s => bool_decide (s.1 = key)) (teardown_steps suid) with
  | Some s => s.2
  | None => fun _ => false
  end.

(** A chain as the tool lists it: no line is blank, and the lines that
    [selected] selects are listed rules of the chain. *)
Definition tidy_chain (fw : firewall) (key : string * string)
    (selected : string -> bool) : Prop :=
  forall lines, fw !! key = Some lines ->
    Forall (fun l => truthy (strip l) = true) lines
    /\ (forall l, In l lines -> selected l = true -> rule_of_chain key.2 l).

(** One sweep of the deletion loop over a chain, the number of lines it
    deletes and the firewall it leaves. *)
Definition sweep (s : string * string * (string -> bool)) (fw : firewall)
  : result nat * firewall :=
  remove_lines s.2 s.1.1 false (_iptables_S s.1.2 s.1.1 fw) 0 fw.

Definition swept_count (fw : firewall) (s : string * string * (string -> bool)) : nat :=
  length (List.filter s.2 (default [] (fw !! s.1))).

Definition swept_chain (s : string * string * (string -> bool)) (fw : firewall) : firewall :=
  alter (List.filter (fun l => negb (s.2 l))) s.1 fw.

(** A rule as the tool lists it: the matches, among them the comment in one
    word, then the target and its options. The text before the comment does
    not hold the word --comment. *)
Definition listed_with_target (line : string) : Prop :=
  exists pre word tail,
    line = pre +:+ "--comment " +:+ word +:+ " -" +:+ tail
    /\ contains "--comment" pre = false
    /\ (pre = EmptyString \/ last_char pre = Some " "%char)
    /\ word <> EmptyString
    /\ all_chars (fun c => negb (is_space c)) word = true.

(** [k] requests for an address, one after the other: what each request
    returned, and the state after the last. *)
Fixpoint requests {network : Type} (k : nat) (st : Spoofer.state network)
  : list (result string) * Spoofer.state network :=
  match k with
  | O => ([], st)
  | S k' =>
      let '(r, st') := Spoofer.get_spoofed_ip st in
      let '(rs, st'') := requests k' st' in
      (r :: rs, st'')
  end.

(** A flat dictionary: its keys are distinct and none of its values is a
    dictionary. *)
Definition is_dict (v : Config.value) : bool :=
  match v with Config.VDict _ => true | _ => false end.

Definition flat (d : Config.dict) : Prop :=
  NoDup (map fst d) /\ Forall (fun kv => is_dict kv.2 = false) d.

(** A line that the sweep of a dedicated chain looks at: it holds the
    comment marker and the tag. *)
Definition tagged (line : string) : bool :=
  contains "-m comment --comment" line && contains COMMENT_PREFIX line.




End Notions.

Import Notions.

(** * Properties *)

#[local] Arguments String.append !_ _ /.
#[local] Arguments join : simpl never.

(** ** The primitives on examples *)

Example py_str_examples :
  py_str 0 = "0" /\ py_str 1700000000 = "1700000000" /\ py_str (-42) = "-42".
Proof. repeat split; reflexivity. Qed.

Example py_int_examples :
  py_int " 12 " = Some 12 /\ py_int "1_000" = Some 1000 /\ py_int "-7" = Some (-7)
  /\ py_int "+7" = Some 7 /\ py_int EmptyString = None /\ py_int "1__0" = None
  /\ py_int "_1" = None /\ py_int "1_" = None /\ py_int "- 1" = None
  /\ py_int "0x10" = None /\ py_int "007" = Some 7
  /\ py_int (String "031"%char "5") = None /\ py_int (String "160"%char "5") = Some 5.
Proof. repeat split; reflexivity. Qed.

Example split_on_examples :
  split_on ":" "a:b::c" = ["a"; "b"; EmptyString; "c"]
  /\ split_on ":" EmptyString = [EmptyString]
  /\ split_on ":" "abc" = ["abc"]
  /\ split_once "--comment" "a --comment b --comment c" = ["a "; " b --comment c"]
  /\ split_once " " "abc" = ["abc"].
Proof. repeat split; reflexivity. Qed.

Example strip_examples :
  strip "  a b  " = "a b" /\ strip_chars "/*" "/* x */" = " x "
  /\ strip "   " = EmptyString /\ strip_chars "*/" "a/b" = "a/b"
  /\ raw_of "/* Stormshadow:a:1 */" = "Stormshadow:a:1"
  /\ replace_first "-A" "-D" "-A OUTPUT -j X-A" = "-D OUTPUT -j X-A".
Proof. repeat split; reflexivity. Qed.

Example comment_examples :
  _comment_for 0 "abc" (Some 100) (Some "udp_dport=5060;queue=1") true
    = "Stormshadow:abc:100:udp_dport=5060;queue=1:NOT_DELETE"
  /\ _comment_for 1762128000 "abc" None None false = "Stormshadow:abc:1762128000"
  /\ _parse_comment "Stormshadow:abc:100:dnat_to=10.0.0.5:5060"
      = Some ("abc", 100, Some "dnat_to=10.0.0.5:5060", false)
  /\ _parse_comment "Stormshadow:abc" = None
  /\ _parse_comment "Stormshadow:abc:soon" = None
  /\ _parse_comment "iptables Stormshadow:abc:100" = None.
Proof. repeat split; reflexivity. Qed.

Example os_path_join_examples :
  os_path_join "/run/stormshadow" "abc.hb" = "/run/stormshadow/abc.hb"
  /\ os_path_join "/run/stormshadow/" "abc.hb" = "/run/stormshadow/abc.hb"
  /\ os_path_join "/run/stormshadow" "/tmp/x.hb" = "/tmp/x.hb".
Proof. repeat split; reflexivity. Qed.

Example pool_examples :
  Examples.ip_network "10.10.123.0/25" = Ok (168459008%N, 25%N)
  /\ length (Examples.hosts (168459008%N, 25%N)) = 126%nat
  /\ firstn 2 (Examples.hosts (168459008%N, 25%N)) = ["10.10.123.1"; "10.10.123.2"]
  /\ Examples.ip_network "10.10.123.7/25" = Raise ValueError.
Proof. repeat split; vm_compute; reflexivity. Qed.

(** ** Facts about the string primitives *)

Section PyStrFacts.

Lemma append_nil_r (s : string) : s +:+ EmptyString = s.
Proof. induction s as [|c s IH]; simpl; [reflexivity | now rewrite IH]. Qed.

Lemma append_assoc (a b c : string) : (a +:+ b) +:+ c = a +:+ (b +:+ c).
Proof. induction a as [|x a IH]; simpl; [reflexivity | now rewrite IH]. Qed.

Lemma prefix_nil (s : string) : String.prefix EmptyString s = true.
Proof. now destruct s. Qed.

Lemma prefix_append (p s : string) : String.prefix p (p +:+ s) = true.
Proof.
  induction p as [|c p IH]; simpl.
  - now destruct s.
  - destruct (ascii_dec c c) as [_|Hne]; [exact IH | now destruct Hne].
Qed.

Lemma lstrip_by_head p c s : p c = false -> lstrip_by p (String c s) = String c s.
Proof. intros H; simpl; now rewrite H. Qed.

Lemma rstrip_by_last p s c :
  last_char s = Some c -> p c = false -> rstrip_by p s = s.
Proof.
  induction s as [|d s IH]; simpl; [discriminate|].
  destruct s as [|e s].
  - intros [= ->] Hp. simpl. now rewrite Hp.
  - intros Hl Hp. specialize (IH Hl Hp). rewrite IH. reflexivity.
Qed.

Lemma strip_by_id p c s d :
  p c = false -> last_char (String c s) = Some d -> p d = false ->
  strip_by p (String c s) = String c s.
Proof.
  intros Hc Hl Hd. unfold strip_by. rewrite lstrip_by_head by exact Hc.
  now apply rstrip_by_last with d.
Qed.

Lemma last_char_append a b :
  b <> EmptyString -> last_char (a +:+ b) = last_char b.
Proof.
  intros Hb. induction a as [|c a IH]; simpl; [reflexivity|].
  rewrite <- IH. destruct (a +:+ b) eqn:E; [|reflexivity].
  destruct a; simpl in E; [congruence | discriminate].
Qed.

Lemma last_char_cons c s :
  s <> EmptyString -> last_char (String c s) = last_char s.
Proof. destruct s; [congruence | reflexivity]. Qed.

Lemma last_char_None s : last_char s = None -> s = EmptyString.
Proof.
  induction s as [|c s IH]; [reflexivity|]. simpl.
  destruct s; [discriminate | intros H; now specialize (IH H)].
Qed.

(** *** Splitting and joining *)

Lemma split_on_not_nil sep s : split_on sep s <> [].
Proof.
  destruct s as [|c s]; simpl; [discriminate|].
  destruct (Ascii.eqb c sep); [discriminate|].
  destruct (split_on sep s); discriminate.
Qed.

Lemma split_on_no_sep sep s : has_char sep s = false -> split_on sep s = [s].
Proof.
  induction s as [|c s IH]; simpl; [reflexivity|].
  intros H. apply orb_false_iff in H as [Hc Hs].
  rewrite Hc, (IH Hs). reflexivity.
Qed.

Lemma split_on_append sep a b :
  has_char sep a = false ->
  split_on sep (a +:+ String sep b) = a :: split_on sep b.
Proof.
  induction a as [|c a IH]; simpl.
  - intros _. now rewrite Ascii.eqb_refl.
  - intros H. apply orb_false_iff in H as [Hc Ha].
    rewrite Hc, (IH Ha). reflexivity.
Qed.

Lemma join_split sep s : join (String sep EmptyString) (split_on sep s) = s.
Proof.
  induction s as [|c s IH]; simpl; [reflexivity|].
  destruct (Ascii.eqb_spec c sep) as [->|Hne].
  - unfold join in *. simpl.
    destruct (split_on sep s) eqn:E; [now apply split_on_not_nil in E|].
    simpl in IH |- *. now rewrite IH.
  - unfold join in *.
    destruct (split_on sep s) as [|x xs] eqn:E; [now apply split_on_not_nil in E|].
    destruct xs as [|y ys]; simpl in IH |- *; now rewrite <- IH.
Qed.

Lemma join_snoc sep (l : list string) x :
  l <> [] -> join sep (l ++ [x]) = join sep l +:+ sep +:+ x.
Proof.
  induction l as [|y l IH]; [congruence|]. intros _.
  destruct l as [|z l].
  - reflexivity.
  - unfold join in *. simpl in IH |- *. rewrite IH by discriminate.
    now rewrite !append_assoc.
Qed.

Lemma split_on_snoc sep a b :
  has_char sep b = false ->
  split_on sep (a +:+ String sep b) = split_on sep a ++ [b].
Proof.
  intros Hb. induction a as [|c a IH]; simpl.
  - rewrite Ascii.eqb_refl. now rewrite split_on_no_sep.
  - destruct (Ascii.eqb c sep).
    + now rewrite IH.
    + rewrite IH. destruct (split_on sep a) eqn:E; [now apply split_on_not_nil in E|].
      reflexivity.
Qed.

End PyStrFacts.

(** ** [int(str(z)) = z] *)

Section Decimal.

Lemma digit_val_digit_char d : (d < 10)%N -> digit_val (digit_char d) = Some d.
Proof.
  intros H. unfold digit_val, digit_char.
  rewrite N_ascii_embedding by lia.
  replace ((48 <=? 48 + d)%N) with true by (symmetry; apply N.leb_le; lia).
  replace ((48 + d <=? 57)%N) with true by (symmetry; apply N.leb_le; lia).
  simpl. f_equal. lia.
Qed.

Lemma is_digit_digit_char d : (d < 10)%N -> is_digit (digit_char d) = true.
Proof. intros H. unfold is_digit. now rewrite digit_val_digit_char. Qed.

Lemma fits_div fuel n : fits (S fuel) n -> fits fuel (n / 10).
Proof.
  unfold fits. rewrite Nat2N.inj_succ, N.pow_succ_r'. intros H.
  apply N.Div0.div_lt_upper_bound.
  assert (0 < 2 ^ N.of_nat fuel)%N by (apply N.neq_0_lt_0, N.pow_nonzero; lia).
  lia.
Qed.

Lemma fits_log2 n : fits (N.to_nat (N.log2 n)) n.
Proof.
  unfold fits. rewrite N2Nat.id.
  destruct (N.eq_dec n 0%N) as [->|Hn]; [simpl; lia|].
  pose proof (N.log2_spec n ltac:(lia)) as [_ H].
  rewrite N.pow_succ_r' in H. lia.
Qed.

Lemma parse_digits_go fuel : forall n rest prev,
  fits fuel n ->
  parse_digits (digits_go fuel n rest) 0 prev = parse_digits rest n true.
Proof.
  induction fuel as [|fuel IH]; intros n rest prev Hf.
  - unfold fits in Hf. simpl in Hf. simpl.
    rewrite digit_val_digit_char by (apply N.mod_lt; lia).
    rewrite N.mod_small by lia. f_equal.
  - simpl. destruct (N.eqb_spec (n / 10) 0) as [Hz|Hz].
    + simpl. rewrite digit_val_digit_char by (apply N.mod_lt; lia).
      f_equal. rewrite (N.div_mod n 10) at 2 by lia. lia.
    + rewrite IH by now apply fits_div. simpl.
      rewrite digit_val_digit_char by (apply N.mod_lt; lia).
      f_equal. rewrite (N.div_mod n 10) at 3 by lia. lia.
Qed.

Lemma parse_digits_str_N n prev : parse_digits (str_N n) 0 prev = Some n.
Proof. unfold str_N. rewrite parse_digits_go by apply fits_log2. reflexivity. Qed.

Lemma all_digits_go fuel : forall n rest,
  all_digits rest = true -> all_digits (digits_go fuel n rest) = true.
Proof.
  induction fuel as [|fuel IH]; intros n rest Hr; simpl.
  - rewrite is_digit_digit_char by (apply N.mod_lt; lia). exact Hr.
  - destruct (n / 10 =? 0)%N.
    + simpl. rewrite is_digit_digit_char by (apply N.mod_lt; lia). exact Hr.
    + apply IH. simpl. rewrite is_digit_digit_char by (apply N.mod_lt; lia). exact Hr.
Qed.

Lemma digits_go_not_empty fuel : forall n rest, digits_go fuel n rest <> EmptyString.
Proof.
  induction fuel as [|fuel IH]; intros n rest; simpl; [discriminate|].
  destruct (n / 10 =? 0)%N; [discriminate | apply IH].
Qed.

Lemma str_N_digits n : all_digits (str_N n) = true.
Proof. now apply all_digits_go. Qed.

Lemma str_N_head n : exists c s, str_N n = String c s /\ is_digit c = true.
Proof.
  pose proof (str_N_digits n) as H.
  destruct (str_N n) as [|c s] eqn:E; [now apply digits_go_not_empty in E|].
  simpl in H. apply andb_true_iff in H as [Hc _]. eauto.
Qed.

Lemma all_digits_last s :
  s <> EmptyString -> all_digits s = true ->
  exists c, last_char s = Some c /\ is_digit c = true.
Proof.
  induction s as [|c s IH]; [congruence|]. intros _ H.
  simpl in H. apply andb_true_iff in H as [Hc Hs].
  destruct s as [|d s]; [simpl; eauto|].
  destruct (IH ltac:(discriminate) Hs) as (e & He & Hd).
  exists e. split; [|exact Hd]. now rewrite last_char_cons.
Qed.

Lemma all_digits_no_char c s :
  is_digit c = false -> all_digits s = true -> has_char c s = false.
Proof.
  intros Hc. induction s as [|d s IH]; simpl; [reflexivity|].
  intros H. apply andb_true_iff in H as [Hd Hs]. rewrite (IH Hs), orb_false_r.
  destruct (Ascii.eqb_spec d c) as [->|]; [congruence | reflexivity].
Qed.

(** A digit is neither white space nor a sign, a colon or a stripped character. *)
Lemma is_digit_cases c :
  is_digit c = true ->
  is_space c = false /\ in_chars "/*" c = false /\ in_chars "*/" c = false
  /\ Ascii.eqb c "-" = false /\ Ascii.eqb c "+" = false /\ Ascii.eqb c ":" = false
  /\ is_int_space c = false.
Proof.
  destruct c as [[] [] [] [] [] [] [] []]; vm_compute; intros H;
    try discriminate H; repeat split.
Qed.

Lemma py_str_last z : exists c, last_char (py_str z) = Some c /\ is_digit c = true.
Proof.
  unfold py_str. destruct (z <? 0).
  - destruct (all_digits_last (str_N (Z.to_N (- z)))) as (c & Hl & Hc).
    + apply digits_go_not_empty.
    + apply str_N_digits.
    + exists c. split; [|exact Hc]. rewrite last_char_cons; [exact Hl|].
      apply digits_go_not_empty.
  - apply all_digits_last; [apply digits_go_not_empty | apply str_N_digits].
Qed.

Lemma py_str_no_colon z : has_char ":" (py_str z) = false.
Proof.
  unfold py_str. destruct (z <? 0); simpl;
    apply all_digits_no_char; try reflexivity; apply str_N_digits.
Qed.

Lemma py_str_not_empty z : py_str z <> EmptyString.
Proof.
  unfold py_str. destruct (z <? 0); [discriminate | apply digits_go_not_empty].
Qed.

Lemma py_int_py_str z : py_int (py_str z) = Some z.
Proof.
  unfold py_int.
  destruct (py_str_last z) as (d & Hl & Hd).
  apply is_digit_cases in Hd as (_ & _ & _ & _ & _ & _ & Hsp).
  unfold py_str in *. destruct (Z.ltb_spec z 0) as [Hneg|Hpos].
  - rewrite (strip_by_id _ _ _ d) by (try reflexivity; assumption).
    simpl. rewrite parse_digits_str_N. simpl. f_equal. lia.
  - destruct (str_N_head (Z.to_N z)) as (c & s & E & Hc).
    rewrite E in *. apply is_digit_cases in Hc as (_ & _ & _ & Hc2 & Hc3 & _ & Hc1).
    rewrite (strip_by_id _ _ _ d) by assumption.
    rewrite Hc2, Hc3, <- E, parse_digits_str_N. simpl. f_equal. lia.
Qed.

End Decimal.

(** ** Rule comments: encoding then decoding *)

Ltac not_nil :=
  solve [ discriminate | assumption | apply split_on_not_nil
        | let H := fresh in
          intros H; apply app_eq_nil in H as [_ H]; discriminate H ].

Section CommentRoundTrip.

Lemma join_cons2 sep x y l : join sep (x :: y :: l) = x +:+ sep +:+ join sep (y :: l).
Proof. reflexivity. Qed.

Lemma join_app sep (l1 l2 : list string) :
  l1 <> [] -> l2 <> [] -> join sep (l1 ++ l2) = join sep l1 +:+ sep +:+ join sep l2.
Proof.
  intros H1 H2. induction l1 as [|x l1 IH]; [congruence|].
  destruct l1 as [|y l1].
  - destruct l2; [congruence | reflexivity].
  - change ((x :: y :: l1) ++ l2) with (x :: (y :: l1) ++ l2).
    change ((y :: l1) ++ l2) with (y :: l1 ++ l2) at 1.
    rewrite !join_cons2.
    change (y :: l1 ++ l2) with ((y :: l1) ++ l2).
    rewrite IH by discriminate. now rewrite !append_assoc.
Qed.

Lemma split_on_parts sep s :
  Forall (fun x => has_char sep x = false) (split_on sep s).
Proof.
  induction s as [|c s IH]; simpl; [now repeat constructor|].
  destruct (Ascii.eqb c sep) eqn:E; [constructor; [reflexivity | exact IH]|].
  destruct (split_on sep s) as [|x xs].
  - repeat constructor. simpl. now rewrite E.
  - inversion IH; subst. constructor; [|assumption]. simpl. now rewrite E.
Qed.

Lemma split_on_join sep (parts : list string) :
  parts <> [] -> Forall (fun x => has_char sep x = false) parts ->
  split_on sep (join (String sep EmptyString) parts) = parts.
Proof.
  induction parts as [|x parts IH]; [congruence|]. intros _ H.
  inversion H as [|? ? Hx Hp]; subst.
  destruct parts as [|y parts].
  - simpl. now apply split_on_no_sep.
  - rewrite join_cons2. simpl. rewrite split_on_append by exact Hx.
    now rewrite IH.
Qed.

Lemma in_chars_swap c : in_chars "*/" c = in_chars "/*" c.
Proof. unfold in_chars. simpl. now rewrite !orb_false_r, orb_comm. Qed.

(** The decoder's stripping leaves a text alone that neither starts nor
    ends with a stripped character. *)
Lemma strip_chain_id c s d :
  strippable c = false -> last_char (String c s) = Some d -> strippable d = false ->
  raw_of (String c s) = String c s.
Proof.
  unfold raw_of, strippable. intros Hc Hl Hd.
  apply orb_false_iff in Hc as [Hc1 Hc2]. apply orb_false_iff in Hd as [Hd1 Hd2].
  unfold strip, strip_chars.
  rewrite (strip_by_id is_space c s d) by assumption.
  rewrite (strip_by_id (in_chars "/*") c s d) by assumption.
  rewrite (strip_by_id (in_chars "*/") c s d) by (rewrite ?in_chars_swap; assumption).
  now rewrite (strip_by_id is_space c s d) by assumption.
Qed.

(** Decoding a text that is the join of colon-free parts. *)
Lemma parse_comment_parts suid ts (rest : list string) d :
  has_char ":" suid = false ->
  Forall (fun x => has_char ":" x = false) rest ->
  last_char (join ":" (COMMENT_PREFIX :: suid :: py_str ts :: rest)) = Some d ->
  strippable d = false ->
  _parse_comment (join ":" (COMMENT_PREFIX :: suid :: py_str ts :: rest)) =
    let '(preserve, remaining) :=
      match last rest with
      | Some l => if String.eqb l "NOT_DELETE" then (true, removelast rest)
                  else (false, rest)
      | None => (false, rest)
      end in
    Some (suid, ts,
          match remaining with [] => None | _ => Some (join ":" remaining) end,
          preserve).
Proof.
  intros Hs Hrest Hl Hd.
  set (parts := COMMENT_PREFIX :: suid :: py_str ts :: rest) in *.
  assert (Hshape : exists t, join ":" parts = "Stormshadow:" +:+ t).
  { exists (join ":" (suid :: py_str ts :: rest)). reflexivity. }
  destruct Hshape as (t & Ht).
  unfold _parse_comment.
  assert (Htruthy : truthy (join ":" parts) = true) by (rewrite Ht; reflexivity).
  assert (Hcontains : contains COMMENT_PREFIX (join ":" parts) = true).
  { rewrite Ht. reflexivity. }
  rewrite Htruthy, Hcontains. cbn [negb orb].
  assert (Hstrip : raw_of (join ":" parts) = join ":" parts).
  { revert Hl. rewrite Ht. simpl. intros Hl.
    now apply strip_chain_id with d. }
  rewrite Hstrip.
  assert (Hstart : startswith (join ":" parts) (COMMENT_PREFIX +:+ ":") = true).
  { rewrite Ht. apply prefix_append. }
  rewrite Hstart. cbn [negb].
  rewrite split_on_join.
  - unfold parts. rewrite py_int_py_str. reflexivity.
  - discriminate.
  - unfold parts. repeat constructor; try assumption; try reflexivity.
    apply py_str_no_colon.
Qed.

Lemma comment_for_parts now suid ts extra preserve :
  extra <> Some EmptyString ->
  _comment_for now suid (Some ts) extra preserve =
  join ":" (COMMENT_PREFIX :: suid :: py_str ts :: rest_of extra preserve).
Proof.
  intros Hne. unfold _comment_for, rest_of.
  destruct extra as [e|].
  - destruct e as [|c e]; [congruence|]. cbn [truthy String.eqb negb].
    set (A := [COMMENT_PREFIX; suid; py_str ts]).
    change (COMMENT_PREFIX :: suid :: py_str ts :: ?r) with (A ++ r).
    assert (HA : A <> []) by discriminate.
    assert (Hsp := split_on_not_nil ":" (String c e)).
    destruct preserve.
    + rewrite <- app_assoc, !join_app, join_split by not_nil. reflexivity.
    + rewrite app_nil_r, !join_app, join_split by not_nil. reflexivity.
  - destruct preserve; reflexivity.
Qed.

Lemma encodable_extra suid extra preserve :
  encodable suid extra preserve = true ->
  has_char ":" suid = false /\ extra <> Some EmptyString.
Proof.
  unfold encodable. intros H. apply andb_true_iff in H as [H1 H2].
  apply negb_true_iff in H1. split; [exact H1|].
  intros ->. discriminate H2.
Qed.

Lemma last_char_join_snoc (l : list string) x :
  l <> [] -> x <> EmptyString -> last_char (join ":" (l ++ [x])) = last_char x.
Proof.
  intros Hl Hx. rewrite join_snoc by exact Hl.
  rewrite <- append_assoc. now apply last_char_append.
Qed.

Lemma last_char_split e :
  e <> EmptyString ->
  exists seg, last (split_on ":" e) = Some seg
              /\ last_char (join ":" ([COMMENT_PREFIX] ++ split_on ":" e)) = last_char e.
Proof.
  intros He.
  destruct (last (split_on ":" e)) as [seg|] eqn:E.
  - exists seg. split; [reflexivity|].
    rewrite join_app, join_split by (try discriminate; apply split_on_not_nil).
    rewrite <- append_assoc. now apply last_char_append.
  - apply last_None in E. now apply split_on_not_nil in E.
Qed.

End CommentRoundTrip.

Section CommentTheorems.

Lemma rest_of_no_colon extra preserve :
  Forall (fun x => has_char ":" x = false) (rest_of extra preserve).
Proof.
  unfold rest_of. apply Forall_app. split.
  - destruct extra; [apply split_on_parts | constructor].
  - destruct preserve; repeat constructor.
Qed.

Lemma parse_comment_for now suid ts extra preserve :
  encodable suid extra preserve = true ->
  _parse_comment (_comment_for now suid (Some ts) extra preserve)
  = Some (suid, ts, extra, preserve).
Proof.
  intros Henc. destruct (encodable_extra _ _ _ Henc) as [Hs Hne].
  rewrite comment_for_parts by exact Hne.
  unfold encodable in Henc. rewrite Hs in Henc. cbn [negb andb] in Henc.
  pose proof (rest_of_no_colon extra preserve) as Hrest.
  destruct preserve.
  - (* the encoding ends in NOT_DELETE *)
    rewrite (parse_comment_parts suid ts _ "E"); try assumption; try reflexivity.
    + unfold rest_of. rewrite last_snoc. cbn [String.eqb Ascii.eqb Bool.eqb].
      rewrite removelast_last.
      destruct extra as [e|]; [|reflexivity].
      destruct (split_on ":" e) eqn:E; [now apply split_on_not_nil in E|].
      rewrite <- E, join_split. reflexivity.
    + unfold rest_of.
      change (COMMENT_PREFIX :: suid :: py_str ts :: ?r ++ ["NOT_DELETE"])
        with ((COMMENT_PREFIX :: suid :: py_str ts :: r) ++ ["NOT_DELETE"]).
      now rewrite last_char_join_snoc.
  - destruct extra as [e|].
    + (* the encoding ends in the extra text *)
      apply andb_true_iff in Henc as [He Henc]. cbn [orb] in Henc.
      apply andb_true_iff in Henc as [Hseg Hend].
      apply negb_true_iff in Hseg, Hend.
      assert (He' : e <> EmptyString) by (intros ->; discriminate He).
      unfold ends_strippable in Hend.
      destruct (last_char e) as [d|] eqn:Hd; [|now apply last_char_None in Hd].
      unfold rest_of in *. rewrite app_nil_r in *.
      destruct (last_char_split e He') as (seg & Hlast & _).
      rewrite (parse_comment_parts suid ts _ d); try assumption.
      * unfold last_segment in Hseg. rewrite Hlast in *. cbn [default from_option id] in Hseg.
        rewrite Hseg.
        destruct (split_on ":" e) eqn:E; [now apply split_on_not_nil in E|].
        rewrite <- E, join_split. reflexivity.
      * change (COMMENT_PREFIX :: suid :: py_str ts :: split_on ":" e)
          with ([COMMENT_PREFIX; suid; py_str ts] ++ split_on ":" e).
        rewrite join_app, join_split by not_nil.
        rewrite <- append_assoc, last_char_append by exact He'. exact Hd.
    + (* the encoding ends in the time stamp *)
      destruct (py_str_last ts) as (d & Hd & Hdig).
      apply is_digit_cases in Hdig as (Hd1 & Hd2 & _).
      rewrite (parse_comment_parts suid ts _ d); try assumption.
      * reflexivity.
      * change (COMMENT_PREFIX :: suid :: py_str ts :: rest_of None false)
          with ([COMMENT_PREFIX; suid] ++ [py_str ts]).
        rewrite last_char_join_snoc by (try not_nil; apply py_str_not_empty).
        exact Hd.
      * unfold strippable. now rewrite Hd1, Hd2.
Qed.

(** A comment whose accepted form does not start with the tag is not ours. *)
Lemma parse_comment_not_ours s :
  startswith (raw_of s) "Stormshadow:" = false -> _parse_comment s = None.
Proof.
  intros H. unfold _parse_comment.
  destruct (negb (truthy s) || negb (contains COMMENT_PREFIX s)); [reflexivity|].
  change (COMMENT_PREFIX +:+ ":") with "Stormshadow:". now rewrite H.
Qed.

End CommentTheorems.

(** *** The round trip *)

(** C3 (as amended). Encoding then decoding gives back the tuple when the
    owner has no colon, the extra text is absent or non-empty and, for a rule
    that is not preserved, the extra text neither reads NOT_DELETE after its
    last colon nor ends in white space, a slash or a star. Decoding a text
    gives nothing when the text, without the white space, slashes and stars
    at its ends, does not start with the tag and a colon; a result is always
    a whole tuple. *)
Theorem comment_roundtrip
    (now : Z) (suid : string) (ts : Z) (extra : option string) (preserve : bool)
    (s : string) :
  encodable suid extra preserve = true ->
  startswith (raw_of s) "Stormshadow:" = false ->
  _parse_comment (_comment_for now suid (Some ts) extra preserve)
    = Some (suid, ts, extra, preserve)
  /\ _parse_comment s = None.
Proof.
  intros Henc Hs. split.
  - now apply parse_comment_for.
  - now apply parse_comment_not_ours.
Qed.

Lemma comment_roundtrip_witness :
  encodable "abc1234567" (Some "dnat_to=10.0.0.5:5060") false = true
  /\ startswith (raw_of "/* Stormshadowx:abc:1 */") "Stormshadow:" = false
  /\ _parse_comment
       (_comment_for 0 "abc1234567" (Some 1700000000) (Some "dnat_to=10.0.0.5:5060") false)
     = Some ("abc1234567", 1700000000, Some "dnat_to=10.0.0.5:5060", false)
  /\ _parse_comment "/* Stormshadowx:abc:1 */" = None.
Proof.
  split; [reflexivity|]. split; [reflexivity|].
  apply (comment_roundtrip 0 "abc1234567" 1700000000
           (Some "dnat_to=10.0.0.5:5060") false "/* Stormshadowx:abc:1 */");
    reflexivity.
Defined.

(** C3 as stated fails: an extra text that reads NOT_DELETE decodes as the
    preserve flag; and a text that does not start with the tag is decoded
    when the tag follows white space or the marks of a rendered comment. *)
Lemma comment_roundtrip_counterexample :
  _parse_comment (_comment_for 0 "abc" (Some 1) (Some "NOT_DELETE") false)
    <> Some ("abc", 1, Some "NOT_DELETE", false)
  /\ startswith "/* Stormshadow:abc:1 */" "Stormshadow" = false
  /\ _parse_comment "/* Stormshadow:abc:1 */" <> None.
Proof. repeat split; vm_compute; discriminate. Qed.

(** ** Rule comments: the tuples that do not come back *)

Section CommentTightness.

Lemma rstrip_by_length p s : (String.length (rstrip_by p s) <= String.length s)%nat.
Proof.
  induction s as [|c s IH]; simpl; [lia|].
  destruct (rstrip_by p s); [destruct (p c)|]; simpl in *; lia.
Qed.

Lemma rstrip_by_shorter p s d :
  last_char s = Some d -> p d = true ->
  (String.length (rstrip_by p s) < String.length s)%nat.
Proof.
  induction s as [|c s IH]; [discriminate|].
  destruct s as [|e s].
  - simpl. intros [= ->] ->. simpl. lia.
  - intros Hl Hd. rewrite last_char_cons in Hl by discriminate.
    specialize (IH Hl Hd). change (rstrip_by p (String c (String e s)))
      with (match rstrip_by p (String e s) with
            | EmptyString => if p c then EmptyString else String c EmptyString
            | r => String c r
            end).
    destruct (rstrip_by p (String e s)); [destruct (p c)|]; simpl in *; lia.
Qed.

Lemma rstrip_by_append p a s x :
  last_char s = Some a -> p a = false ->
  rstrip_by p (s +:+ x) = s +:+ rstrip_by p x.
Proof.
  induction s as [|c s IH]; [discriminate|].
  destruct s as [|e s].
  - simpl. intros [= ->] Ha. destruct (rstrip_by p x); [now rewrite Ha | reflexivity].
  - intros Hl Ha. rewrite last_char_cons in Hl by discriminate.
    specialize (IH Hl Ha).
    change (rstrip_by p (String c (String e s) +:+ x))
      with (match rstrip_by p (String e s +:+ x) with
            | EmptyString => if p c then EmptyString else String c EmptyString
            | r => String c r
            end).
    rewrite IH. reflexivity.
Qed.

Lemma raw_of_append c s a x :
  strippable c = false -> last_char (String c s) = Some a -> strippable a = false ->
  raw_of (String c s +:+ x) = String c s +:+ rstrip_chain x.
Proof.
  unfold strippable. intros Hc Hl Ha.
  apply orb_false_iff in Hc as [Hc1 Hc2]. apply orb_false_iff in Ha as [Ha1 Ha2].
  unfold raw_of, rstrip_chain, strip, strip_chars, strip_by.
  change (String c s +:+ x) with (String c (s +:+ x)).
  rewrite lstrip_by_head by exact Hc1.
  change (String c (s +:+ x)) with (String c s +:+ x).
  rewrite (rstrip_by_append is_space a) by assumption.
  change (String c s +:+ ?y) with (String c (s +:+ y)).
  rewrite lstrip_by_head by exact Hc2.
  change (String c (s +:+ ?y)) with (String c s +:+ y).
  rewrite (rstrip_by_append (in_chars "/*") a) by assumption.
  change (String c s +:+ ?y) with (String c (s +:+ y)).
  rewrite lstrip_by_head by (rewrite in_chars_swap; exact Hc2).
  change (String c (s +:+ ?y)) with (String c s +:+ y).
  rewrite (rstrip_by_append (in_chars "*/") a)
    by (rewrite ?in_chars_swap; assumption).
  change (String c s +:+ ?y) with (String c (s +:+ y)).
  rewrite lstrip_by_head by exact Hc1.
  change (String c (s +:+ ?y)) with (String c s +:+ y).
  now rewrite (rstrip_by_append is_space a) by assumption.
Qed.

Lemma rstrip_chain_shorter x :
  ends_strippable x = true ->
  (String.length (rstrip_chain x) < String.length x)%nat.
Proof.
  unfold ends_strippable, rstrip_chain.
  destruct (last_char x) as [d|] eqn:Hd; [|discriminate].
  unfold strippable. intros H.
  pose proof (rstrip_by_length is_space
    (rstrip_by (in_chars "*/") (rstrip_by (in_chars "/*") (rstrip_by is_space x)))).
  pose proof (rstrip_by_length (in_chars "*/")
    (rstrip_by (in_chars "/*") (rstrip_by is_space x))).
  pose proof (rstrip_by_length (in_chars "/*") (rstrip_by is_space x)).
  pose proof (rstrip_by_length is_space x).
  destruct (is_space d) eqn:Hsp.
  - pose proof (rstrip_by_shorter is_space x d Hd Hsp). lia.
  - simpl in H. rewrite (rstrip_by_last is_space x d Hd Hsp) in *.
    pose proof (rstrip_by_shorter (in_chars "/*") x d Hd H). lia.
Qed.

(** Decoding a comment through its accepted form. *)
Lemma parse_comment_of_raw c suid ts (rest : list string) :
  truthy c = true -> contains COMMENT_PREFIX c = true ->
  raw_of c = join ":" (COMMENT_PREFIX :: suid :: py_str ts :: rest) ->
  has_char ":" suid = false ->
  Forall (fun x => has_char ":" x = false) rest ->
  _parse_comment c =
    let '(preserve, remaining) :=
      match last rest with
      | Some l => if String.eqb l "NOT_DELETE" then (true, removelast rest)
                  else (false, rest)
      | None => (false, rest)
      end in
    Some (suid, ts,
          match remaining with [] => None | _ => Some (join ":" remaining) end,
          preserve).
Proof.
  intros Htruthy Hcontains Hraw Hs Hrest. unfold _parse_comment.
  rewrite Htruthy, Hcontains, Hraw. cbn [negb orb].
  assert (Hstart : startswith (join ":" (COMMENT_PREFIX :: suid :: py_str ts :: rest))
                     (COMMENT_PREFIX +:+ ":") = true).
  { change (join ":" (COMMENT_PREFIX :: suid :: py_str ts :: rest))
      with ((COMMENT_PREFIX +:+ ":") +:+ join ":" (suid :: py_str ts :: rest)).
    apply prefix_append. }
  rewrite Hstart. cbn [negb].
  rewrite split_on_join.
  - rewrite py_int_py_str. reflexivity.
  - discriminate.
  - repeat constructor; try assumption; try reflexivity. apply py_str_no_colon.
Qed.

(** The owner of a decoded comment has no colon. *)
Lemma parse_comment_suid c suid ts extra preserve :
  _parse_comment c = Some (suid, ts, extra, preserve) -> has_char ":" suid = false.
Proof.
  unfold _parse_comment.
  destruct (negb (truthy c) || negb (contains COMMENT_PREFIX c)); [discriminate|].
  destruct (negb (startswith (raw_of c) (COMMENT_PREFIX +:+ ":"))); [discriminate|].
  pose proof (split_on_parts ":" (raw_of c)) as Hparts.
  destruct (split_on ":" (raw_of c)) as [|p0 [|s0 [|t0 rest]]]; try discriminate.
  destruct (py_int t0); [|discriminate].
  inversion Hparts as [|? ? _ Hparts']; subst.
  inversion Hparts' as [|? ? Hs0 _]; subst.
  destruct (last rest) as [l|]; [destruct (String.eqb l "NOT_DELETE")|];
    now intros [= <- _ _ _].
Qed.

(** The encoding of a tuple with a non-empty extra text that is not
    preserved: a text that the decoder keeps, then the extra text. *)
Lemma comment_for_extra now suid ts e :
  e <> EmptyString ->
  exists s,
    _comment_for now suid (Some ts) (Some e) false = String "S" s +:+ e
    /\ last_char (String "S" s) = Some ":"%char
    /\ (forall x, String "S" s +:+ x
                  = join ":" ([COMMENT_PREFIX; suid; py_str ts] ++ split_on ":" x)).
Proof.
  intros He.
  exists ("tormshadow:" +:+ suid +:+ ":" +:+ py_str ts +:+ ":").
  split; [|split].
  - unfold _comment_for. destruct e; [congruence|]. cbn [truthy String.eqb negb].
    unfold join. simpl. rewrite !append_assoc. simpl. rewrite !append_assoc.
    reflexivity.
  - change (String "S" ("tormshadow:" +:+ suid +:+ ":" +:+ py_str ts +:+ ":"))
      with ("Stormshadow:" +:+ (suid +:+ (":" +:+ (py_str ts +:+ ":")))).
    rewrite <- !append_assoc. now rewrite last_char_append.
  - intros x. rewrite join_app, join_split by not_nil.
    unfold join. simpl. rewrite !append_assoc. simpl. rewrite !append_assoc.
    reflexivity.
Qed.

(** Encoding then decoding gives back the tuple for the encodable tuples
    and for no other: the owner has no colon, the extra text is absent or
    non-empty and, for a rule that is not preserved, the extra text neither
    reads NOT_DELETE after its last colon nor ends in white space, a slash or
    a star. For every other tuple the decoder returns another tuple or
    nothing. *)
Theorem parse_comment_for_iff now suid ts extra preserve :
  _parse_comment (_comment_for now suid (Some ts) extra preserve)
    = Some (suid, ts, extra, preserve)
  <-> encodable suid extra preserve = true.
Proof.
  split; [|apply parse_comment_for].
  intros Hp. pose proof (parse_comment_suid _ _ _ _ _ Hp) as Hs.
  unfold encodable. rewrite Hs. cbn [negb andb].
  destruct extra as [e|]; [|reflexivity].
  destruct e as [|c0 e0].
  { (* an empty extra text is not encoded *)
    exfalso.
    assert (Henc : encodable suid None preserve = true)
      by (unfold encodable; now rewrite Hs).
    pose proof (parse_comment_for now suid ts None preserve Henc) as Hp'.
    change (_comment_for now suid (Some ts) (Some EmptyString) preserve)
      with (_comment_for now suid (Some ts) None preserve) in Hp.
    congruence. }
  cbn [truthy String.eqb negb andb].
  destruct preserve; [reflexivity|]. cbn [orb].
  set (e := String c0 e0) in *.
  assert (He : e <> EmptyString) by discriminate.
  destruct (ends_strippable e) eqn:Hend.
  { (* the decoder strips the end of the extra text *)
    exfalso.
    destruct (comment_for_extra now suid ts e He) as (s & Hc & Hl & Hj).
    pose proof (rstrip_chain_shorter e Hend) as Hlen.
    assert (Hraw : raw_of (_comment_for now suid (Some ts) (Some e) false)
                   = join ":" (COMMENT_PREFIX :: suid :: py_str ts
                                 :: split_on ":" (rstrip_chain e))).
    { rewrite Hc, (raw_of_append "S" s ":") by (try reflexivity; exact Hl).
      apply Hj. }
    rewrite (parse_comment_of_raw _ suid ts (split_on ":" (rstrip_chain e))) in Hp;
      try assumption.
    - destruct (last (split_on ":" (rstrip_chain e))) as [l|] eqn:El.
      + destruct (String.eqb l "NOT_DELETE"); [discriminate Hp|].
        destruct (split_on ":" (rstrip_chain e)) eqn:E;
          [now apply split_on_not_nil in E|].
        rewrite <- E, join_split in Hp. injection Hp as Hp.
        rewrite Hp in Hlen. lia.
      + apply last_None in El. now apply split_on_not_nil in El.
    - rewrite Hc. reflexivity.
    - rewrite Hc, Hj.
      change (join ":" ([COMMENT_PREFIX; suid; py_str ts] ++ split_on ":" e))
        with ("Stormshadow:" +:+ join ":" (suid :: py_str ts :: split_on ":" e)).
      reflexivity.
    - apply split_on_parts. }
  (* the decoder keeps the text: its last part decides *)
  rewrite andb_true_r. apply negb_true_iff.
  destruct (String.eqb (last_segment e) "NOT_DELETE") eqn:Hseg; [exfalso|reflexivity].
  unfold ends_strippable in Hend.
  destruct (last_char e) as [d|] eqn:Hd; [|now apply last_char_None in Hd].
  rewrite comment_for_parts in Hp by discriminate.
  unfold rest_of in Hp. rewrite app_nil_r in Hp.
  rewrite (parse_comment_parts suid ts _ d) in Hp; try assumption.
  - unfold last_segment in Hseg.
    destruct (last (split_on ":" e)) as [l|]; cbn [default from_option id] in Hseg.
    + rewrite Hseg in Hp. discriminate Hp.
    + discriminate Hseg.
  - apply split_on_parts.
  - change (COMMENT_PREFIX :: suid :: py_str ts :: split_on ":" e)
      with ([COMMENT_PREFIX; suid; py_str ts] ++ split_on ":" e).
    rewrite join_app, join_split by not_nil.
    rewrite <- append_assoc, last_char_append by exact He. exact Hd.
Qed.

End CommentTightness.

(** ** Garbage collection: the decision on one rule *)

Section GcDecision.

Context (now ttl : Z) (heartbeat_dir : string) (fs : filesystem).

(** The decision in terms of the state of the heartbeat file. *)
Lemma should_remove_unfold comment suid ts extra :
  _parse_comment comment = Some (suid, ts, extra, false) ->
  should_remove now ttl heartbeat_dir fs comment =
    match fs !! hb_path_of heartbeat_dir suid with
    | Some n =>
        if (now - node_mtime n <? Z.max 60 (ttl / 2)) && (now - ts <? ttl)
        then Ok None else Ok (Some suid)
    | None => Ok (Some suid)
    end.
Proof.
  intros Hp. unfold should_remove, os_stat, half_ttl_of. rewrite Hp.
  destruct (fs !! hb_path_of heartbeat_dir suid) as [n|]; [|reflexivity].
  destruct (now - node_mtime n <? Z.max 60 (ttl / 2)); simpl; [|reflexivity].
  destruct (Z.leb_spec ttl (now - ts)), (Z.ltb_spec (now - ts) ttl);
    try reflexivity; lia.
Qed.


End GcDecision.







(** ** Removal by owner: what is removed and what stays *)

Section RemovalFrame.

Lemma span_no_space chain rest :
  has_char " " chain = false ->
  span (fun c => negb (Ascii.eqb c " ")) (chain +:+ String " " rest)
  = (chain, String " " rest).
Proof.
  induction chain as [|c chain IH]; simpl; [reflexivity|].
  intros H. apply orb_false_iff in H as [Hc Hs].
  rewrite Hc. simpl. now rewrite (IH Hs).
Qed.

Lemma remove_first_middle (l : string) (kept post : list string) :
  Forall (fun k => k <> l) kept ->
  remove_first l (kept ++ l :: post) = Some (kept ++ post).
Proof.
  induction kept as [|k kept IH]; simpl; intros H.
  - now rewrite String.eqb_refl.
  - inversion H as [|? ? Hk Hkept]; subst.
    destruct (String.eqb_spec l k) as [->|_]; [congruence|].
    now rewrite (IH Hkept).
Qed.

(** Deleting a listed rule by its text, with -D for -A. *)
Lemma iptables_delete_rule (table chain line : string) (fw : firewall) :
  has_char " " chain = false -> rule_of_chain chain line ->
  iptables_delete table (replace_first "-A" "-D" line) fw =
    match fw !! (table, chain) with
    | Some lines => (fun lines' => <[(table, chain) := lines']> fw)
                      <$> remove_first line lines
    | None => None
    end.
Proof.
  intros Hsp (rule & ->). unfold iptables_delete. simpl.
  unfold startswith. rewrite prefix_nil.
  unfold first_word. rewrite span_no_space by exact Hsp. reflexivity.
Qed.

Context (selected : string -> bool) (table chain : string).
Hypothesis chain_no_space : has_char " " chain = false.

(** The loop over the listed lines deletes the selected lines one by one:
    [kept] are the lines already passed, [post] the lines still to visit. *)
Lemma remove_lines_frame (post : list string) :
  (forall l, In l post -> selected l = true -> rule_of_chain chain l) ->
  forall (kept : list string) (removed : nat) (fw : firewall),
  Forall (fun k => selected k = false) kept ->
  fw !! (table, chain) = Some (kept ++ post) ->
  remove_lines selected table false post removed fw
  = (Ok (removed + length (List.filter selected post))%nat,
     <[(table, chain) := kept ++ List.filter (fun l => negb (selected l)) post]> fw).
Proof.
  induction post as [|l post IH]; intros Hwf kept removed fw Hkept Hfw; simpl.
  - rewrite Nat.add_0_r, insert_id by exact Hfw. reflexivity.
  - destruct (selected l) eqn:Hsel; simpl.
    + unfold run_iptables.
      rewrite (iptables_delete_rule table chain l fw chain_no_space)
        by (apply Hwf; [now left | exact Hsel]).
      rewrite Hfw, remove_first_middle; simpl.
      * rewrite (IH (fun x Hx => Hwf x (or_intror Hx)) kept (S removed) _ Hkept)
          by apply lookup_insert_eq.
        rewrite insert_insert_eq. f_equal. f_equal. lia.
      * eapply Forall_impl; [exact Hkept|]. simpl. intros k Hk ->. congruence.
    + rewrite (IH (fun x Hx => Hwf x (or_intror Hx)) (kept ++ [l]) removed fw).
      * now rewrite <- app_assoc.
      * apply Forall_app. split; [exact Hkept | now repeat constructor].
      * now rewrite <- app_assoc.
Qed.

End RemovalFrame.

(** In a chain whose lines are not blank and whose tagged lines are listed
    rules of the chain, [remove_rules_for_suid] deletes exactly the lines in
    which the comment marker, the tag and the identifier occur, and counts
    them; every other line stays, in its place. *)
Lemma remove_rules_for_suid_frame (suid table chain : string) (fw : firewall)
    (lines : list string) :
  truthy table = true -> has_char " " chain = false ->
  fw !! (table, chain) = Some lines ->
  Forall (fun l => truthy (strip l) = true) lines ->
  (forall l, In l lines -> has_comment_of suid l = true -> rule_of_chain chain l) ->
  remove_rules_for_suid suid table chain false fw
  = (Ok (length (List.filter (has_comment_of suid) lines)),
     <[(table, chain) := List.filter (fun l => negb (has_comment_of suid l)) lines]> fw).
Proof.
  intros Ht Hsp Hfw Hnb Hwf. unfold remove_rules_for_suid, _iptables_S.
  rewrite Ht, Hfw.
  assert (Hall : List.filter (fun l => truthy (strip l)) lines = lines).
  { clear -Hnb. induction Hnb as [|l lines Hl _ IH]; simpl; [reflexivity|].
    now rewrite Hl, IH. }
  rewrite Hall.
  now rewrite (remove_lines_frame _ table chain Hsp lines Hwf [] 0%nat fw).
Qed.

(** Ownership isolation, as far as it holds: the rules of another session
    stay when the identifier of the removed session occurs in none of them. *)
Lemma remove_rules_for_suid_keeps_others (suid table chain : string) (fw : firewall)
    (lines : list string) (other : string) :
  truthy table = true -> has_char " " chain = false ->
  fw !! (table, chain) = Some lines ->
  Forall (fun l => truthy (strip l) = true) lines ->
  (forall l, In l lines -> has_comment_of suid l = true -> rule_of_chain chain l) ->
  (forall l, In l lines -> owner_of l = Some other -> contains suid l = false) ->
  List.filter (fun l => bool_decide (owner_of l = Some other))
    (_iptables_S chain table (remove_rules_for_suid suid table chain false fw).2)
  = List.filter (fun l => bool_decide (owner_of l = Some other)) lines.
Proof.
  intros Ht Hsp Hfw Hnb Hwf Hother.
  rewrite (remove_rules_for_suid_frame suid table chain fw lines) by assumption.
  unfold _iptables_S. rewrite Ht. simpl. rewrite lookup_insert_eq.
  clear Hfw Hwf. induction lines as [|l lines IH]; [reflexivity|].
  inversion Hnb as [|? ? Hl Hnb']; subst.
  specialize (IH Hnb' (fun x Hx => Hother x (or_intror Hx))).
  simpl. destruct (has_comment_of suid l) eqn:Hsel; simpl.
  - rewrite IH. destruct (bool_decide_reflect (owner_of l = Some other)) as [Ho|_];
      [|reflexivity].
    unfold has_comment_of in Hsel. rewrite (Hother l (or_introl eq_refl) Ho) in Hsel.
    now rewrite andb_false_r in Hsel.
  - rewrite Hl. simpl. now rewrite IH.
Qed.

(** *** Two sessions in one chain *)

(** In the same chain, removing the rules of the second session leaves the
    rule of the first: its identifier occurs in no other line. *)
Example remove_rules_for_suid_keeps_other_session :
  remove_rules_for_suid "c0ffee1234" "filter" STORMSHADOW_CHAIN false
    Examples.two_sessions
  = (Ok 1%nat,
     {[ ("filter", "STORMSHADOW") :=
          [ "-N STORMSHADOW";
            Examples.nfqueue_rule "1762128000" "1762100000" "5060" "1" ] ]}).
Proof. vm_compute. reflexivity. Qed.

(** C7 (the code at a state that breaks the claim). The dedicated filter
    chain holds one rule of session 1762128000 and one rule of session
    c0ffee1234 that was created at time 1762128000. Removing the rules of the
    first session removes both rules, because the identifier is looked for
    anywhere in the line: the chain then lists no rule of the second session. *)
Theorem remove_rules_for_suid_takes_other_session :
  map owner_of (_iptables_S STORMSHADOW_CHAIN "filter" Examples.two_sessions)
    = [None; Some "c0ffee1234"; Some "1762128000"]
  /\ remove_rules_for_suid "1762128000" "filter" STORMSHADOW_CHAIN false
       Examples.two_sessions
     = (Ok 2%nat, {[ ("filter", "STORMSHADOW") := ["-N STORMSHADOW"] ]}).
Proof. split; vm_compute; reflexivity. Qed.

(** ** Garbage collection: the sweep of an anchor chain *)

Section AnchorSweep.

Context (now ttl : Z) (heartbeat_dir : string) (fs : filesystem).

Lemma remove_lines_returns (selected : string -> bool) (table : string)
    (lines : list string) :
  forall (removed : nat) (fw : firewall),
  exists n, (remove_lines selected table false lines removed fw).1 = Ok n.
Proof.
  induction lines as [|l lines IH]; intros removed fw; simpl; [eauto|].
  destruct (selected l); [|apply IH].
  unfold run_iptables. destruct (iptables_delete table _ fw); apply IH.
Qed.

(** Outside a dry run, the sweep of an anchor chain is the deletion loop
    on the lines that [anchor_selected] selects. *)
Lemma gc_anchor_lines_remove_lines (lines : list string) :
  forall (removed : nat) (fw : firewall),
  (Ok (gc_anchor_lines now ttl heartbeat_dir fs false lines removed fw).1,
   (gc_anchor_lines now ttl heartbeat_dir fs false lines removed fw).2)
  = remove_lines (anchor_selected now ttl heartbeat_dir fs) "filter" false
      lines removed fw.
Proof.
  induction lines as [|l lines IH]; intros removed fw; [reflexivity|].
  cbn [gc_anchor_lines remove_lines]. unfold anchor_selected at 1.
  destruct (contains ("-j " +:+ STORMSHADOW_CHAIN) l && contains "-m comment --comment" l
            && contains COMMENT_PREFIX l); cbn [andb]; [|apply IH].
  destruct (re_search_comment l) as [comment_text|]; [|apply IH].
  destruct (should_remove now ttl heartbeat_dir fs comment_text) as [r|e]; [|apply IH].
  destruct (candidate r) as [suid|]; [|apply IH].
  rewrite bool_decide_eq_true_2 by eauto.
  unfold run_iptables. destruct (iptables_delete "filter" _ fw); apply IH.
Qed.

(** In an anchor chain whose lines are listed rules of the chain, the sweep
    deletes exactly the selected jumps and counts them; the other lines, the
    preserved jumps among them, stay in their places. *)
Lemma gc_anchor_lines_frame (chain : string) (lines : list string) (fw : firewall) :
  has_char " " chain = false ->
  fw !! ("filter", chain) = Some lines ->
  (forall l, In l lines -> anchor_selected now ttl heartbeat_dir fs l = true ->
             rule_of_chain chain l) ->
  gc_anchor_lines now ttl heartbeat_dir fs false lines 0 fw
  = (length (List.filter (anchor_selected now ttl heartbeat_dir fs) lines),
     <[("filter", chain) :=
         List.filter (fun l => negb (anchor_selected now ttl heartbeat_dir fs l)) lines]> fw).
Proof.
  intros Hsp Hfw Hwf.
  pose proof (gc_anchor_lines_remove_lines lines 0%nat fw) as H.
  rewrite (remove_lines_frame _ "filter" chain Hsp lines Hwf [] 0%nat fw) in H
    by (try constructor; exact Hfw).
  destruct (gc_anchor_lines now ttl heartbeat_dir fs false lines 0 fw) as [n fw'].
  simpl in H. now injection H as -> ->.
Qed.


End AnchorSweep.




(** The sweep of an anchor chain deletes a jump whose comment, not
    preserved and with a non-empty owner, is stale by the decision above:
    no occurrence of the line is left in the chain. *)
Lemma gc_anchor_sweep_removes_selected
    (now ttl : Z) (heartbeat_dir : string) (fs : filesystem)
    (chain line : string) (lines : list string) (fw : firewall) :
  has_char " " chain = false ->
  fw !! ("filter", chain) = Some lines ->
  (forall l, In l lines -> anchor_selected now ttl heartbeat_dir fs l = true ->
             rule_of_chain chain l) ->
  anchor_selected now ttl heartbeat_dir fs line = true ->
  exists lines',
    (gc_anchor_lines now ttl heartbeat_dir fs false lines 0 fw).2
      !! ("filter", chain) = Some lines'
    /\ ~ In line lines'.
Proof.
  intros Hsp Hfw Hwf Hsel.
  rewrite (gc_anchor_lines_frame now ttl heartbeat_dir fs chain lines fw Hsp Hfw Hwf).
  eexists. split; [apply lookup_insert_eq|].
  intros Hin. apply filter_In in Hin as [_ Hin]. now rewrite Hsel in Hin.
Qed.

(** The sweep of a dedicated chain deletes nothing when the text that it
    extracts from each line is not a comment of ours: it hands to
    [should_remove] the text that follows the comment in the line. *)
Lemma gc_chain_lines_idle
    (now ttl : Z) (heartbeat_dir : string) (fs : filesystem) (dry_run : bool)
    (table chain : string) (lines : list string) :
  (forall l, In l lines ->
     startswith (raw_of (comment_text_of l)) "Stormshadow:" = false) ->
  forall (removed_total : nat) (fw : firewall),
  gc_chain_lines now ttl heartbeat_dir fs dry_run table chain lines removed_total fw
  = (Ok removed_total, fw).
Proof.
  induction lines as [|l lines IH]; intros Hidle removed_total fw; [reflexivity|].
  cbn [gc_chain_lines].
  destruct (contains "-m comment --comment" l && contains COMMENT_PREFIX l).
  - unfold should_remove.
    rewrite (parse_comment_not_ours _ (Hidle l (or_introl eq_refl))). simpl.
    apply IH. intros x Hx. apply Hidle. now right.
  - apply IH. intros x Hx. apply Hidle. now right.
Qed.

(** ** Garbage collection on an example

    A session was started at time 1762000000 and disappeared. Two hours
    and more later, with a time to live of 7200 seconds, garbage collection
    deletes its heartbeat file and its anchor jump and keeps the preserved
    jump. The queue rule of the dedicated chain stays: the sweep of that chain
    hands to [should_remove] the text that follows the comment in the line. *)

Example comment_text_of_listed_rule :
  re_search_comment (Examples.nfqueue_rule "abc1234567" "1762000000" "5060" "1")
    = Some "Stormshadow:abc1234567:1762000000:udp_dport=5060;queue=1"
  /\ comment_text_of (Examples.nfqueue_rule "abc1234567" "1762000000" "5060" "1")
      = "-j NFQUEUE --queue-num 1"
  /\ comment_text_of (Examples.dnat_rule "abc1234567" "1762000000")
      = "-j DNAT --to-destination 10.0.0.5:5060".
Proof. repeat split; reflexivity. Qed.

Example cleanup_stale_rules_abandoned_session :
  cleanup_stale_rules 1762128000 1762128000 7200 DEFAULT_HEARTBEAT_DIR false
    Examples.abandoned_heartbeats Examples.abandoned_rules
  = (Ok 1%nat,
     {[ "/run/stormshadow" := Dir 1762000000 ]},
     <[ ("filter", "OUTPUT") :=
          [ "-P OUTPUT ACCEPT";
            Examples.anchor_jump
              "Stormshadow:anchor:1762000000:OUTPUT->STORMSHADOW:NOT_DELETE" ] ]>
     {[ ("filter", "STORMSHADOW") :=
          [ "-N STORMSHADOW";
            Examples.nfqueue_rule "abc1234567" "1762000000" "5060" "1" ] ]}).
Proof. vm_compute. reflexivity. Qed.

(** ** The heartbeat store *)

Section Heartbeat.

Context (suid heartbeat_dir : string) (fs : filesystem).

Lemma heartbeat_remove_unfold :
  heartbeat_remove suid heartbeat_dir fs =
    match fs !! hb_path_of heartbeat_dir suid with
    | Some (File _) => (true, delete (hb_path_of heartbeat_dir suid) fs)
    | Some (Dir _) => (false, fs)
    | None => (true, fs)
    end.
Proof.
  unfold heartbeat_remove, os_unlink.
  destruct (fs !! hb_path_of heartbeat_dir suid) as [[m|m]|]; reflexivity.
Qed.

End Heartbeat.


(** ** The stop of an attack session *)

Section SessionStop.

Lemma iptables_delete_other_table (table args : string) (fw fw' : firewall)
    (key : string * string) :
  iptables_delete table args fw = Some fw' -> key.1 <> table ->
  fw' !! key = fw !! key.
Proof.
  unfold iptables_delete. destruct (startswith args "-D "); [|discriminate].
  destruct (fw !! (table, first_word (skip 3 args))) as [lines|]; [|discriminate].
  destruct (remove_first _ lines) as [lines'|]; [|discriminate].
  intros [= <-] Hne. apply lookup_insert_ne. intros <-. now apply Hne.
Qed.

Lemma remove_lines_other_table (selected : string -> bool) (table : string)
    (dry_run : bool) (key : string * string) (lines : list string) :
  key.1 <> table -> forall (removed : nat) (fw : firewall),
  (remove_lines selected table dry_run lines removed fw).2 !! key = fw !! key.
Proof.
  intros Hne. induction lines as [|line lines IH]; intros removed fw; simpl.
  - reflexivity.
  - destruct (selected line); [|apply IH].
    unfold run_iptables. destruct dry_run; [reflexivity|].
    destruct (iptables_delete table _ fw) as [fw'|] eqn:E.
    + rewrite IH. eapply iptables_delete_other_table; eassumption.
    + apply IH.
Qed.

Lemma remove_rules_for_suid_no_chain (suid table chain : string) (dry_run : bool)
    (fw : firewall) :
  fw !! (table, chain) = None -> truthy table = true ->
  remove_rules_for_suid suid table chain dry_run fw = (Ok 0%nat, fw).
Proof.
  intros Hnone Ht. unfold remove_rules_for_suid, _iptables_S.
  now rewrite Ht, Hnone.
Qed.

(** The rules of the nat table survive the stop of a session whose generator
    leaves them alone, when the nat table has no chain by the name of the
    filter chain: the cleanup of the nat table lists that chain, not the
    dedicated nat chain. *)
Lemma stop_keeps_nat_rules (self : AttackSession.AttackSession) (fw : firewall)
    (chain : string) :
  (forall (fw0 : firewall) (key : string * string), key.1 = "nat" ->
     (AttackInterface.stop_spoofing (AttackSession.main_attack self) fw0).2 !! key
     = fw0 !! key) ->
  (forall (fw0 : firewall) (key : string * string), key.1 = "nat" ->
     (AttackInterface.stop (AttackSession.main_attack self) fw0).2 !! key
     = fw0 !! key) ->
  fw !! ("nat", STORMSHADOW_CHAIN) = None ->
  (AttackSession.stop self fw).2 !! ("nat", chain) = fw !! ("nat", chain).
Proof.
  intros Hsp Hst Hnone. unfold AttackSession.stop.
  destruct (_ && _); [reflexivity|].
  set (fw1 := if AttackSession.enable_spoofing self then _ else fw).
  assert (H1 : forall key, key.1 = "nat" -> fw1 !! key = fw !! key).
  { intros key Hk. unfold fw1. destruct (AttackSession.enable_spoofing self);
      [now apply Hsp | reflexivity]. }
  pose proof (Hst fw1) as H2.
  destruct (AttackInterface.stop (AttackSession.main_attack self) fw1) as [[[]|e] fw2];
    simpl in H2.
  2: { simpl. rewrite H2, H1; reflexivity. }
  cbn [AttackSession.suid AttackSession.dry_run AttackSession.set_status].
  pose proof (remove_lines_other_table (has_comment_of (AttackSession.suid self))
                "filter" (AttackSession.dry_run self)) as H3.
  unfold remove_rules_for_suid at 1.
  destruct (remove_lines _ "filter" _ _ 0 fw2) as [[n|e] fw3] eqn:E.
  - assert (H4 : forall key, key.1 = "nat" -> fw3 !! key = fw2 !! key).
    { intros key Hk.
      specialize (H3 key (_iptables_S STORMSHADOW_CHAIN "filter" fw2)
                     ltac:(rewrite Hk; discriminate) 0%nat fw2).
      now rewrite E in H3. }
    rewrite remove_rules_for_suid_no_chain.
    + simpl. rewrite H4, H2, H1; reflexivity.
    + rewrite H4, H2, H1; try reflexivity. exact Hnone.
    + reflexivity.
  - simpl.
    specialize (H3 ("nat", chain) (_iptables_S STORMSHADOW_CHAIN "filter" fw2)
                   ltac:(discriminate) 0%nat fw2).
    rewrite E in H3. simpl in H3. rewrite H3, H2, H1; reflexivity.
Qed.

End SessionStop.

(** C6 (the code at a state that breaks the claim). A running session owns
    a queue rule in the dedicated filter chain and a return-path rule in the
    dedicated nat chain. Its stop removes the filter rule and leaves the nat
    rule in place, still tagged with the session; the sweep of full teardown,
    [remove_all_rules_for_suid], removes both. *)
Theorem stop_leaves_nat_rule :
  let fw' := (AttackSession.stop Examples.running_session
                Examples.session_with_nat_rule).2 in
  AttackSession.status
    (AttackSession.stop Examples.running_session Examples.session_with_nat_rule).1
    = AttackSession.STOPPED
  /\ _iptables_S STORMSHADOW_CHAIN "filter" fw' = ["-N STORMSHADOW"]
  /\ _iptables_S STORMSHADOW_NAT_CHAIN "nat" fw'
     = ["-N STORMSHADOW-NAT"; Examples.dnat_rule "abc1234567" "1762128000"]
  /\ owner_of (Examples.dnat_rule "abc1234567" "1762128000") = Some "abc1234567"
  /\ _iptables_S STORMSHADOW_NAT_CHAIN "nat"
       (remove_all_rules_for_suid "abc1234567" false
          Examples.session_with_nat_rule).2
     = ["-N STORMSHADOW-NAT"].
Proof. repeat split; vm_compute; reflexivity. Qed.

(** ** The rewrite worker *)

Section PacketHandler.

Context {network : Type}.
Context (IP : Spoofer.bytes -> result Spoofer.ScapyPacket).
Context (to_bytes : Spoofer.ScapyPacket -> result Spoofer.bytes).

(** Parsing and rewriting issue no verdict. *)
Lemma rewrite_packet_verdicts rnd (self : Spoofer.Spoofer network) packet r self' packet' :
  Spoofer.rewrite_packet IP to_bytes rnd (self, packet) = (r, (self', packet')) ->
  Spoofer.verdicts packet' = Spoofer.verdicts packet.
Proof.
  unfold Spoofer.rewrite_packet, Spoofer.bind, Spoofer.lift, Spoofer.get_spoofed_ip,
    Spoofer.on_packet.
  destruct (IP (Spoofer.get_payload packet)) as [pkt|e]; [|now intros [= _ _ <-]].
  destruct (Spoofer.spoofed_ips self !! Spoofer.next_ip_number self) as [ip|];
    [|now intros [= _ _ <-]].
  destruct (Spoofer.set_sport _ _) as [pkt1|e]; [|now intros [= _ _ <-]].
  destruct (Spoofer.del_udp_chksum _) as [pkt2|e]; [|now intros [= _ _ <-]].
  destruct (to_bytes pkt2) as [raw|e]; now intros [= _ _ <-].
Qed.

Lemma unbind_if_requested_packet (self : Spoofer.Spoofer network) packet :
  exists self', Spoofer.unbind_if_requested (self, packet) = (Ok tt, (self', packet)).
Proof.
  unfold Spoofer.unbind_if_requested.
  destruct (Spoofer.should_stop self), (Spoofer.netfilter_spoofing_queue self); eauto.
Qed.

(** An empty pool makes the rewriting raise, whatever the packet. *)
Lemma rewrite_packet_empty_pool rnd (self : Spoofer.Spoofer network) packet :
  Spoofer.spoofed_ips self = [] ->
  exists e st, Spoofer.rewrite_packet IP to_bytes rnd (self, packet) = (Raise e, st).
Proof.
  intros Hnil.
  unfold Spoofer.rewrite_packet, Spoofer.bind, Spoofer.lift, Spoofer.get_spoofed_ip.
  destruct (IP (Spoofer.get_payload packet)) as [pkt|e]; [|eauto].
  rewrite Hnil. simpl. eauto.
Qed.

End PacketHandler.

#[local] Arguments Spoofer.unbind_if_requested : simpl never.

(** C8. For every packet handed to the handler, whatever the state of the
    spoofer and the draw of the port, the handler returns without raising and
    the packet has received exactly one more verdict: accept when parsing and
    rewriting succeeded, drop when they raised an exception. *)
Theorem packet_spoofer_one_verdict {network : Type}
    (IP : Spoofer.bytes -> result Spoofer.ScapyPacket)
    (to_bytes : Spoofer.ScapyPacket -> result Spoofer.bytes)
    (rnd : Z) (self : Spoofer.Spoofer network) (packet : Spoofer.Packet) :
  exists self' packet' v,
    Spoofer.packet_spoofer IP to_bytes rnd (self, packet) = (Ok tt, (self', packet'))
    /\ Spoofer.verdicts packet' = Spoofer.verdicts packet ++ [v]
    /\ (v = Spoofer.Accept <->
        exists st, Spoofer.rewrite_packet IP to_bytes rnd (self, packet) = (Ok tt, st))
    /\ (v = Spoofer.Drop <->
        exists e st, Spoofer.rewrite_packet IP to_bytes rnd (self, packet) = (Raise e, st)).
Proof.
  unfold Spoofer.packet_spoofer, Spoofer.try_finally, Spoofer.try_except, Spoofer.bind.
  destruct (Spoofer.rewrite_packet IP to_bytes rnd (self, packet))
    as [[[]|e] [self1 packet1]] eqn:E;
    pose proof (rewrite_packet_verdicts _ _ _ _ _ _ _ _ E) as Hv; simpl.
  - destruct (unbind_if_requested_packet self1 (Spoofer.accept packet1)) as (self2 & ->).
    exists self2, (Spoofer.accept packet1), Spoofer.Accept.
    split; [reflexivity|]. split; [simpl; now rewrite Hv|].
    split; split; try discriminate; eauto.
    intros (e & st & [=]).
  - destruct (unbind_if_requested_packet self1 (Spoofer.drop packet1)) as (self2 & ->).
    exists self2, (Spoofer.drop packet1), Spoofer.Drop.
    split; [reflexivity|]. split; [simpl; now rewrite Hv|].
    split; split; try discriminate; eauto.
    intros (st & [=]).
Qed.

(** ** The address pool *)

(** The constructor raises exactly when the address library refuses the
    subnet. *)
Lemma init_raises {network : Type}
    (ip_network : string -> result network) (hosts : network -> list string)
    (attack_queue_num : Z) (spoofed_subnet : string) (victim_port : Z)
    (victim_ip : string) (attacker_port : Z) (e : exn) :
  Spoofer.init ip_network hosts attack_queue_num spoofed_subnet victim_port
    victim_ip attacker_port = Raise e
  <-> ip_network spoofed_subnet = Raise e.
Proof.
  unfold Spoofer.init. destruct (ip_network spoofed_subnet); split; congruence.
Qed.




(** ** The start of the spoofing coordinator *)




(** * Further properties *)

(** ** The added primitives on examples *)

Example generate_suid_examples :
  uuid_hex 0 = "00000000000000000000000000000000"
  /\ uuid_hex 255 = "000000000000000000000000000000ff"
  /\ generate_suid 0x1b9d6bcd_bbfd_4b2d_9b5d_ab8dfbbd4bed = "1b9d6bcdbb".
Proof. repeat split; reflexivity. Qed.

Example split_str_examples :
  split_str "--queue-num " "-j NFQUEUE --queue-num 3" = ["-j NFQUEUE "; "3"]
  /\ split_str "ab" "xabyabz" = ["x"; "y"; "z"]
  /\ split_str "ab" "ab" = [EmptyString; EmptyString]
  /\ split_str "aa" "aaa" = [EmptyString; "a"]
  /\ split_str "ab" EmptyString = [EmptyString]
  /\ get_current_iptables_queue_num (Ok Examples.listing_example) = Ok 12
  /\ ConfigManager.get_available_queue_num (Ok Examples.listing_example) = Ok 13
  /\ ConfigManager.get_available_queue_num (Ok "-P INPUT ACCEPT") = Ok 0
  /\ get_current_iptables_queue_num (Ok "-A X -j NFQUEUE --queue-num 3 --queue-bypass")
     = Raise ValueError.
Proof. repeat split; vm_compute; reflexivity. Qed.

Example parameters_examples :
  Config.get "target_port" Config.VNone ["attack"] Examples.attack_defaults
    = Config.Returns (Config.VInt 5060)
  /\ Config.get "rate" (Config.VInt 0) ["attack"] Examples.attack_defaults
     = Config.Returns (Config.VInt 0)
  /\ Config.get "x" Config.VNone ["name"; "la"] Examples.attack_defaults = Config.Raises Config.TypeError
  /\ Config.get "x" Config.VNone ["name"; "zz"] Examples.attack_defaults = Config.Returns Config.VNone
  /\ Config.set "lab" (Config.VBool false) ["app"; "enabled"] Examples.attack_defaults
     = Config.Returns
         [ ("app", Config.VDict [ ("enabled", Config.VDict [ ("attack", Config.VBool true);
                                                            ("lab", Config.VBool false) ]) ]);
           ("attack", Config.VDict [ ("target_ip", Config.VStr "auto");
                                     ("target_port", Config.VInt 5060) ]);
           ("name", Config.VStr "lab") ]
  /\ Config.set "x" (Config.VInt 1) ["name"] Examples.attack_defaults = Config.Raises Config.TypeError
  /\ Config.set "x" Config.VNone [] Examples.attack_defaults = Config.Raises Config.ValueError
  /\ Config.flatten Examples.attack_defaults
     = [ ("app.enabled.attack", Config.VBool true);
         ("attack.target_ip", Config.VStr "auto");
         ("attack.target_port", Config.VInt 5060);
         ("name", Config.VStr "lab") ].
Proof. repeat split; reflexivity. Qed.

(** ** Rule comments: rendered forms *)

Section RenderedComments.

(** Whether a text is decoded depends on its accepted form only. *)
Lemma contains_append_r sub a b : contains sub b = true -> contains sub (a +:+ b) = true.
Proof.
  intros H. induction a as [|c a IH]; simpl; [exact H|].
  rewrite IH. apply orb_true_r.
Qed.

Lemma contains_append_l sub a b : contains sub a = true -> contains sub (a +:+ b) = true.
Proof.
  induction a as [|c a IH]; simpl.
  - destruct sub; [intros _; destruct b; reflexivity | discriminate].
  - intros H. apply orb_true_iff in H as [H|H].
    + apply orb_true_iff. left.
      clear IH. revert c a H. induction sub as [|x sub IHs]; intros c a H; [reflexivity|].
      simpl in H |- *. destruct (ascii_dec x c); [|discriminate].
      destruct a as [|d a]; simpl.
      * destruct sub; [now destruct b | discriminate].
      * now apply IHs.
    + rewrite (IH H). apply orb_true_r.
Qed.

Lemma comment_for_ends now suid ts extra preserve :
  encodable suid extra preserve = true ->
  exists s d, _comment_for now suid (Some ts) extra preserve = String "S" s
              /\ last_char (String "S" s) = Some d /\ strippable d = false.
Proof.
  intros Henc. destruct (encodable_extra _ _ _ Henc) as [Hs Hne].
  rewrite comment_for_parts by exact Hne.
  exists ("tormshadow:" +:+ join ":" (suid :: py_str ts :: rest_of extra preserve)).
  change (String "S" ("tormshadow:" +:+ join ":" (suid :: py_str ts :: rest_of extra preserve)))
    with (join ":" (COMMENT_PREFIX :: suid :: py_str ts :: rest_of extra preserve)).
  unfold encodable in Henc. rewrite Hs in Henc. cbn [negb andb] in Henc.
  destruct preserve.
  - exists "E"%char. split; [reflexivity|]. split; [|reflexivity].
    unfold rest_of.
    change (COMMENT_PREFIX :: suid :: py_str ts :: ?r ++ ["NOT_DELETE"])
      with ((COMMENT_PREFIX :: suid :: py_str ts :: r) ++ ["NOT_DELETE"]).
    now rewrite last_char_join_snoc.
  - destruct extra as [e|].
    + apply andb_true_iff in Henc as [He Henc]. cbn [orb] in Henc.
      apply andb_true_iff in Henc as [_ Hend]. apply negb_true_iff in Hend.
      assert (He' : e <> EmptyString) by (intros ->; discriminate He).
      unfold ends_strippable in Hend.
      destruct (last_char e) as [d|] eqn:Hd; [|now apply last_char_None in Hd].
      exists d. split; [reflexivity|]. split; [|exact Hend].
      unfold rest_of. rewrite app_nil_r.
      change (COMMENT_PREFIX :: suid :: py_str ts :: split_on ":" e)
        with ([COMMENT_PREFIX; suid; py_str ts] ++ split_on ":" e).
      rewrite join_app, join_split by not_nil.
      rewrite <- append_assoc, last_char_append by exact He'. exact Hd.
    + destruct (py_str_last ts) as (d & Hd & Hdig).
      apply is_digit_cases in Hdig as (Hd1 & Hd2 & _).
      exists d. split; [reflexivity|]. split.
      * change (COMMENT_PREFIX :: suid :: py_str ts :: rest_of None false)
          with ([COMMENT_PREFIX; suid] ++ [py_str ts]).
        rewrite last_char_join_snoc by (try not_nil; apply py_str_not_empty).
        exact Hd.
      * unfold strippable. now rewrite Hd1, Hd2.
Qed.

(** The accepted form of a comment as the listing of the rules renders it. *)
Lemma raw_of_rendered c s d :
  strippable c = false -> last_char (String c s) = Some d -> strippable d = false ->
  raw_of ("/* " +:+ String c s +:+ " */") = String c s.
Proof.
  unfold strippable. intros Hc Hl Hd.
  apply orb_false_iff in Hc as [Hc1 Hc2]. apply orb_false_iff in Hd as [Hd1 Hd2].
  set (X := String c s) in *.
  assert (E1 : strip ("/* " +:+ X +:+ " */") = "/* " +:+ X +:+ " */").
  { unfold strip. apply (strip_by_id is_space "/" _ "/"); try reflexivity.
    rewrite !last_char_cons by (unfold X; discriminate).
    now rewrite last_char_append. }
  assert (E2 : strip_chars "/*" ("/* " +:+ X +:+ " */") = " " +:+ X +:+ " ").
  { unfold strip_chars, strip_by.
    change (lstrip_by (in_chars "/*") ("/* " +:+ X +:+ " */")) with (" " +:+ X +:+ " */").
    replace (" " +:+ X +:+ " */") with ((" " +:+ X +:+ " ") +:+ "*/")
      by (rewrite !append_assoc; reflexivity).
    rewrite (rstrip_by_append (in_chars "/*") " ").
    - simpl. now rewrite append_nil_r.
    - rewrite <- append_assoc. now rewrite last_char_append.
    - reflexivity. }
  assert (E3 : strip_chars "*/" (" " +:+ X +:+ " ") = " " +:+ X +:+ " ").
  { unfold strip_chars. apply (strip_by_id _ " " _ " "); try reflexivity.
    rewrite !last_char_cons by (unfold X; discriminate).
    now rewrite last_char_append. }
  assert (E4 : strip (" " +:+ X +:+ " ") = X).
  { unfold strip, strip_by.
    change (lstrip_by is_space (" " +:+ X +:+ " ")) with (lstrip_by is_space (X +:+ " ")).
    unfold X at 1. change (String c s +:+ " ") with (String c (s +:+ " ")).
    rewrite lstrip_by_head by exact Hc1.
    change (String c (s +:+ " ")) with (X +:+ " ").
    rewrite (rstrip_by_append is_space d) by assumption.
    change (rstrip_by is_space " ") with EmptyString. apply append_nil_r. }
  unfold raw_of. now rewrite E1, E2, E3, E4.
Qed.

Lemma parse_comment_by_raw x y :
  truthy x = true -> contains COMMENT_PREFIX x = true ->
  truthy y = true -> contains COMMENT_PREFIX y = true ->
  raw_of x = raw_of y -> _parse_comment x = _parse_comment y.
Proof.
  intros Hx1 Hx2 Hy1 Hy2 Hraw. unfold _parse_comment.
  now rewrite Hx1, Hx2, Hy1, Hy2, Hraw.
Qed.

End RenderedComments.

(** The listing of the rules renders a comment between the marks of a
    remark. The decoder reads the rendered comment of an encodable tuple as
    it reads the comment itself. *)
Theorem parse_comment_rendered
    (now : Z) (suid : string) (ts : Z) (extra : option string) (preserve : bool) :
  encodable suid extra preserve = true ->
  _parse_comment ("/* " +:+ _comment_for now suid (Some ts) extra preserve +:+ " */")
  = Some (suid, ts, extra, preserve).
Proof.
  intros Henc.
  destruct (comment_for_ends now suid ts extra preserve Henc) as (s & d & Hc & Hl & Hd).
  rewrite <- (parse_comment_for now suid ts extra preserve Henc), Hc.
  assert (Hcont : contains COMMENT_PREFIX (String "S" s) = true).
  { rewrite <- Hc. destruct (encodable_extra _ _ _ Henc) as [_ Hne].
    rewrite comment_for_parts by exact Hne. reflexivity. }
  apply parse_comment_by_raw; try reflexivity.
  - apply (contains_append_r _ "/* "). now apply contains_append_l.
  - exact Hcont.
  - rewrite (raw_of_rendered "S" s d) by (try reflexivity; assumption).
    symmetry. now apply strip_chain_id with d.
Qed.

Lemma parse_comment_rendered_witness :
  encodable "abc1234567" (Some "udp_dport=5060;queue=1") false = true
  /\ _parse_comment
       ("/* " +:+ _comment_for 0 "abc1234567" (Some 1762128000)
                    (Some "udp_dport=5060;queue=1") false +:+ " */")
     = Some ("abc1234567", 1762128000, Some "udp_dport=5060;queue=1", false).
Proof.
  split; [reflexivity|].
  apply (parse_comment_rendered 0 "abc1234567" 1762128000
           (Some "udp_dport=5060;queue=1") false).
  reflexivity.
Defined.

(** ** Session identifiers *)

Section SessionIdentifiers.

Lemma is_hex_hex_char d : (d < 16)%N -> is_hex (hex_char d) = true.
Proof.
  intros H.
  assert (Hd : In d (map N.of_nat (seq 0 16))).
  { apply in_map_iff. exists (N.to_nat d). split; [lia|]. apply in_seq. lia. }
  simpl in Hd. repeat (destruct Hd as [<-|Hd]; [reflexivity|]). destruct Hd.
Qed.

Lemma hex_go_spec n : forall u acc,
  String.length (hex_go n u acc) = (n + String.length acc)%nat
  /\ (all_chars is_hex acc = true -> all_chars is_hex (hex_go n u acc) = true).
Proof.
  induction n as [|n IH]; intros u acc; simpl; [split; auto|].
  destruct (IH (u / 16)%N (String (hex_char (u mod 16)) acc)) as [Hl Hh]. split.
  - rewrite Hl. simpl. lia.
  - intros Hacc. apply Hh. cbn [all_chars]. rewrite Hacc, is_hex_hex_char; [reflexivity|].
    apply N.mod_lt. lia.
Qed.

Lemma substring_prefix_spec p n : forall s,
  (n <= String.length s)%nat ->
  String.length (substring 0 n s) = n
  /\ (all_chars p s = true -> all_chars p (substring 0 n s) = true).
Proof.
  induction n as [|n IH]; intros s Hn.
  - destruct s; simpl; auto.
  - destruct s as [|c s]; simpl in Hn |- *; [lia|].
    destruct (IH s ltac:(lia)) as [Hl Hp]. split; [now rewrite Hl|].
    intros H. apply andb_true_iff in H as [Hc Hs]. now rewrite Hc, Hp.
Qed.

Lemma all_chars_no_char p c s :
  p c = false -> all_chars p s = true -> has_char c s = false.
Proof.
  intros Hc. induction s as [|d s IH]; simpl; [reflexivity|].
  intros H. apply andb_true_iff in H as [Hd Hs]. rewrite (IH Hs), orb_false_r.
  destruct (Ascii.eqb_spec d c) as [->|]; [congruence | reflexivity].
Qed.

Lemma generate_suid_shape u :
  String.length (generate_suid u) = 10%nat
  /\ all_chars is_hex (generate_suid u) = true.
Proof.
  unfold generate_suid, uuid_hex.
  destruct (hex_go_spec 32 u EmptyString) as [Hl Hh].
  destruct (substring_prefix_spec is_hex 10 (hex_go 32 u EmptyString)) as [Hl' Hh'].
  - rewrite Hl. simpl. lia.
  - split; [exact Hl' | apply Hh', Hh; reflexivity].
Qed.

End SessionIdentifiers.

(** An identifier that [generate_suid] draws is ten hexadecimal digits in
    lower case. It is not empty and holds neither a colon nor a space, so a
    comment that carries it decodes to the tuple it was built from, whatever
    the time stamp, when the extra text is one that comes back. *)
Theorem generate_suid_roundtrip
    (u : N) (now ts : Z) (extra : option string) (preserve : bool) :
  (forall e, extra = Some e ->
     e <> EmptyString
     /\ (preserve = true
         \/ (last_segment e <> "NOT_DELETE" /\ ends_strippable e = false))) ->
  String.length (generate_suid u) = 10%nat
  /\ all_chars is_hex (generate_suid u) = true
  /\ _parse_comment (_comment_for now (generate_suid u) (Some ts) extra preserve)
     = Some (generate_suid u, ts, extra, preserve).
Proof.
  intros Hextra. destruct (generate_suid_shape u) as [Hl Hh].
  split; [exact Hl|]. split; [exact Hh|].
  apply parse_comment_for. unfold encodable.
  rewrite (all_chars_no_char is_hex ":" _ eq_refl Hh). cbn [negb andb].
  destruct extra as [e|]; [|reflexivity].
  destruct (Hextra e eq_refl) as [He Hp].
  destruct e as [|c e]; [congruence|]. cbn [truthy String.eqb negb andb].
  destruct Hp as [->|[Hseg Hend]]; [reflexivity|].
  rewrite Hend. destruct (String.eqb_spec (last_segment (String c e)) "NOT_DELETE");
    [congruence|]. now destruct preserve.
Qed.

Lemma generate_suid_roundtrip_witness :
  String.length (generate_suid 0x1b9d6bcd_bbfd_4b2d_9b5d_ab8dfbbd4bed) = 10%nat
  /\ all_chars is_hex (generate_suid 0x1b9d6bcd_bbfd_4b2d_9b5d_ab8dfbbd4bed) = true
  /\ _parse_comment
       (_comment_for 0 (generate_suid 0x1b9d6bcd_bbfd_4b2d_9b5d_ab8dfbbd4bed)
          (Some 1762128000) (Some "udp_dport=5060;queue=1") false)
     = Some (generate_suid 0x1b9d6bcd_bbfd_4b2d_9b5d_ab8dfbbd4bed, 1762128000,
             Some "udp_dport=5060;queue=1", false).
Proof.
  apply (generate_suid_roundtrip 0x1b9d6bcd_bbfd_4b2d_9b5d_ab8dfbbd4bed 0 1762128000
           (Some "udp_dport=5060;queue=1") false).
  intros e [= <-]. split; [discriminate|]. right. split; [|reflexivity].
  vm_compute. discriminate.
Defined.

(** ** The heartbeat store and the decision of garbage collection *)

Section HeartbeatTouch.

Context (now : Z) (suid heartbeat_dir : string) (fs : filesystem).


End HeartbeatTouch.



(** After [heartbeat_remove] returned [True], the decision of garbage
    collection selects every rule of the session that is not preserved,
    whatever its age and the time to live. *)
Theorem heartbeat_remove_exposes_rules
    (suid heartbeat_dir comment : string) (fs fs' : filesystem)
    (now ttl ts : Z) (extra : option string) :
  heartbeat_remove suid heartbeat_dir fs = (true, fs') ->
  _parse_comment comment = Some (suid, ts, extra, false) ->
  should_remove now ttl heartbeat_dir fs' comment = Ok (Some suid).
Proof.
  intros Hrm Hp.
  rewrite (should_remove_unfold now ttl heartbeat_dir fs' comment suid ts extra Hp).
  rewrite heartbeat_remove_unfold in Hrm.
  destruct (fs !! hb_path_of heartbeat_dir suid) as [[k|k]|] eqn:E.
  - injection Hrm as <-. now rewrite lookup_delete_eq.
  - discriminate Hrm.
  - injection Hrm as <-. now rewrite E.
Qed.

Lemma heartbeat_remove_exposes_rules_witness :
  should_remove 1762128100 7200 "/run/stormshadow"
    {[ "/run/stormshadow" := Dir 1762000000 ]}
    "Stormshadow:abc1234567:1762128000:udp_dport=5060;queue=1"
  = Ok (Some "abc1234567").
Proof.
  apply (heartbeat_remove_exposes_rules "abc1234567" "/run/stormshadow"
           "Stormshadow:abc1234567:1762128000:udp_dport=5060;queue=1"
           (<[ "/run/stormshadow/abc1234567.hb" := File 1762128050 ]>
              {[ "/run/stormshadow" := Dir 1762000000 ]})
           {[ "/run/stormshadow" := Dir 1762000000 ]}
           1762128100 7200 1762128000 (Some "udp_dport=5060;queue=1")).
  - vm_compute. reflexivity.
  - reflexivity.
Defined.

(** ** The heartbeat of the spoofer *)

Section SpooferHeartbeat.



End SpooferHeartbeat.



(** ** The collection of stale heartbeats *)

Section StaleHeartbeats.

Context (now ttl : Z) (heartbeat_dir : string).






End StaleHeartbeats.


Example cleanup_stale_heartbeats_example :
  let fs : filesystem :=
    <[ "/run/stormshadow/old1234567.hb" := File 1762000000 ]>
    (<[ "/run/stormshadow/new1234567.hb" := File 1762127000 ]>
     (<[ "/run/stormshadow/notes.txt" := File 1762000000 ]>
      {[ "/run/stormshadow" := Dir 1762000000 ]})) in
  cleanup_stale_heartbeats 1762128000 7200 "/run/stormshadow" false fs
  = (1%nat, delete "/run/stormshadow/old1234567.hb" fs).
Proof. vm_compute. reflexivity. Qed.

(** ** Removal by owner: the exact effect and the dry run *)

(** The rule of the first of two sessions in one chain stays when the
    rules of the second are removed. *)
Lemma remove_rules_for_suid_keeps_others_witness :
  List.filter (fun l => bool_decide (owner_of l = Some "1762128000"))
    (_iptables_S STORMSHADOW_CHAIN "filter"
       (remove_rules_for_suid "c0ffee1234" "filter" STORMSHADOW_CHAIN false
          Examples.two_sessions).2)
  = List.filter (fun l => bool_decide (owner_of l = Some "1762128000"))
      [ "-N STORMSHADOW";
        Examples.nfqueue_rule "c0ffee1234" "1762128000" "5070" "2";
        Examples.nfqueue_rule "1762128000" "1762100000" "5060" "1" ].
Proof.
  apply (remove_rules_for_suid_keeps_others "c0ffee1234" "filter" STORMSHADOW_CHAIN
           Examples.two_sessions
           [ "-N STORMSHADOW";
             Examples.nfqueue_rule "c0ffee1234" "1762128000" "5070" "2";
             Examples.nfqueue_rule "1762128000" "1762100000" "5060" "1" ]
           "1762128000").
  - reflexivity.
  - reflexivity.
  - reflexivity.
  - repeat (apply List.Forall_cons; [reflexivity|]). apply List.Forall_nil.
  - intros l Hin Hsel.
    destruct Hin as [<-|[<-|[<-|[]]]]; try discriminate Hsel; eexists; reflexivity.
  - intros l Hin Ho.
    destruct Hin as [<-|[<-|[<-|[]]]]; vm_compute in Ho; try discriminate Ho; reflexivity.
Defined.

Section RemovalMore.

Lemma filter_filter_negb {A} (sel : A -> bool) (l : list A) :
  List.filter sel (List.filter (fun x => negb (sel x)) l) = []
  /\ List.filter (fun x => negb (sel x)) (List.filter (fun x => negb (sel x)) l)
     = List.filter (fun x => negb (sel x)) l.
Proof.
  induction l as [|x l [IH1 IH2]]; simpl; [split; reflexivity|].
  destruct (sel x) eqn:E; simpl; [now split|]. rewrite E. simpl. now rewrite IH2.
Qed.

(** In a dry run the deletion loop stops at the first selected line, with
    the error of the command runner, and changes nothing. *)
Lemma remove_lines_dry_run (selected : string -> bool) (table : string)
    (lines : list string) : forall (removed : nat) (fw : firewall),
  remove_lines selected table true lines removed fw
  = (if existsb selected lines then Raise RuntimeError else Ok removed, fw).
Proof.
  induction lines as [|l lines IH]; intros removed fw; simpl; [reflexivity|].
  destruct (selected l); simpl; [reflexivity | apply IH].
Qed.

Lemma remove_rules_for_suid_dry (suid table chain : string) (fw : firewall) :
  remove_rules_for_suid suid table chain true fw
  = (if existsb (has_comment_of suid) (_iptables_S chain table fw)
     then Raise RuntimeError else Ok 0%nat, fw).
Proof. unfold remove_rules_for_suid. apply remove_lines_dry_run. Qed.

End RemovalMore.

(** What [remove_rules_for_suid] removes. In a chain whose lines are not
    blank and whose tagged lines are listed rules of the chain, and outside a
    dry run, the function deletes exactly the lines in which the comment
    marker, the tag and the identifier occur, returns their number and leaves
    every other line in its place and every other chain as it is; a second
    call finds nothing to delete and returns 0. *)
Theorem remove_rules_for_suid_exact (suid table chain : string) (fw : firewall)
    (lines : list string) :
  truthy table = true -> has_char " " chain = false ->
  fw !! (table, chain) = Some lines ->
  Forall (fun l => truthy (strip l) = true) lines ->
  (forall l, In l lines -> has_comment_of suid l = true -> rule_of_chain chain l) ->
  let fw' := <[(table, chain) := List.filter (fun l => negb (has_comment_of suid l)) lines]> fw in
  remove_rules_for_suid suid table chain false fw
  = (Ok (length (List.filter (has_comment_of suid) lines)), fw')
  /\ remove_rules_for_suid suid table chain false fw' = (Ok 0%nat, fw').
Proof.
  intros Ht Hsp Hfw Hnb Hwf fw'. split.
  - now apply remove_rules_for_suid_frame.
  - destruct (filter_filter_negb (has_comment_of suid) lines) as [E1 E2].
    rewrite (remove_rules_for_suid_frame suid table chain fw'
               (List.filter (fun l => negb (has_comment_of suid l)) lines)); try assumption.
    + rewrite E1, E2. unfold fw'. now rewrite insert_insert_eq.
    + apply lookup_insert_eq.
    + rewrite Forall_forall in Hnb. apply Forall_forall. intros l Hin.
      apply list_elem_of_In, filter_In in Hin as [Hin _].
      apply Hnb. now apply list_elem_of_In.
    + intros l Hin. apply filter_In in Hin as [Hin _]. now apply Hwf.
Qed.

Lemma remove_rules_for_suid_exact_witness :
  let lines := [ "-N STORMSHADOW";
                 Examples.nfqueue_rule "c0ffee1234" "1762128000" "5070" "2";
                 Examples.nfqueue_rule "abc1234567" "1762100000" "5060" "1" ] in
  let fw : firewall := {[ ("filter", "STORMSHADOW") := lines ]} in
  let fw' :=
    <[("filter", "STORMSHADOW") :=
        List.filter (fun l => negb (has_comment_of "abc1234567" l)) lines]> fw in
  remove_rules_for_suid "abc1234567" "filter" "STORMSHADOW" false fw
  = (Ok (length (List.filter (has_comment_of "abc1234567") lines)), fw')
  /\ remove_rules_for_suid "abc1234567" "filter" "STORMSHADOW" false fw' = (Ok 0%nat, fw').
Proof.
  apply (remove_rules_for_suid_exact "abc1234567" "filter" "STORMSHADOW"
           {[ ("filter", "STORMSHADOW") :=
                [ "-N STORMSHADOW";
                  Examples.nfqueue_rule "c0ffee1234" "1762128000" "5070" "2";
                  Examples.nfqueue_rule "abc1234567" "1762100000" "5060" "1" ] ]}).
  - reflexivity.
  - reflexivity.
  - reflexivity.
  - repeat constructor.
  - intros l [<-|[<-|[<-|[]]]]; vm_compute; try discriminate.
    intros _. eexists. reflexivity.
Defined.

(** In a dry run [remove_rules_for_suid] changes nothing. It returns 0 when
    no line of the chain is selected; as soon as a line is selected it raises
    the [RuntimeError] of the command runner, which it does not handle. *)
Theorem remove_rules_for_suid_dry_run (suid table chain : string) (fw : firewall) :
  remove_rules_for_suid suid table chain true fw
  = (if existsb (has_comment_of suid) (_iptables_S chain table fw)
     then Raise RuntimeError else Ok 0%nat, fw).
Proof. unfold remove_rules_for_suid. apply remove_lines_dry_run. Qed.

(** ** Full teardown *)

Section Teardown.

Lemma remove_all_rules_for_suid_steps (suid : string) (fw : firewall) :
  remove_all_rules_for_suid suid false fw
  = foldl (fun r s => and_then (sweep s) r) (Ok 0%nat, fw) (teardown_steps suid).
Proof. reflexivity. Qed.

Lemma filter_nonblank (lines : list string) :
  Forall (fun l => truthy (strip l) = true) lines ->
  List.filter (fun l => truthy (strip l)) lines = lines.
Proof. induction 1 as [|l lines Hl _ IH]; simpl; [reflexivity|]. now rewrite Hl, IH. Qed.

Lemma sweep_exact (s : string * string * (string -> bool)) (fw : firewall) :
  truthy s.1.1 = true -> has_char " " s.1.2 = false -> tidy_chain fw s.1 s.2 ->
  sweep s fw = (Ok (swept_count fw s), swept_chain s fw).
Proof.
  destruct s as [[table chain] sel]. simpl. intros Ht Hsp Htidy.
  unfold sweep, swept_count, swept_chain, _iptables_S. simpl. rewrite Ht.
  destruct (fw !! (table, chain)) as [lines|] eqn:Hfw.
  - destruct (Htidy lines Hfw) as [Hnb Hwf]. simpl in Hwf.
    rewrite (filter_nonblank lines Hnb).
    rewrite (remove_lines_frame sel table chain Hsp lines Hwf [] 0%nat fw)
      by (try constructor; exact Hfw).
    simpl. f_equal. apply map_eq. intros key.
    destruct (decide (key = (table, chain))) as [->|Hne].
    + now rewrite lookup_insert_eq, lookup_alter_eq, Hfw.
    + now rewrite lookup_insert_ne, lookup_alter_ne by congruence.
  - simpl. f_equal. apply map_eq. intros key.
    destruct (decide (key = (table, chain))) as [->|Hne].
    + now rewrite lookup_alter_eq, Hfw.
    + now rewrite lookup_alter_ne by congruence.
Qed.

Lemma sweeps_exact (steps : list (string * string * (string -> bool))) :
  NoDup (map fst steps) ->
  forall (n : nat) (fw : firewall),
  Forall (fun s => truthy s.1.1 = true /\ has_char " " s.1.2 = false
                   /\ tidy_chain fw s.1 s.2) steps ->
  foldl (fun r s => and_then (sweep s) r) (Ok n, fw) steps
  = (Ok (n + sum_list (map (swept_count fw) steps))%nat,
     foldr swept_chain fw steps).
Proof.
  induction steps as [|s steps IH]; intros Hnd n fw Hall.
  - simpl. now rewrite Nat.add_0_r.
  - change (map fst (s :: steps)) with (s.1 :: map fst steps) in Hnd.
    cbn [foldl foldr map].
    change (sum_list (swept_count fw s :: map (swept_count fw) steps))
      with (swept_count fw s + sum_list (map (swept_count fw) steps))%nat.
    apply NoDup_cons in Hnd as [Hs Hnd]. apply Forall_cons in Hall as [(Ht & Hsp & Htidy) Hall].
    unfold and_then at 2.
    rewrite (sweep_exact s fw Ht Hsp Htidy).
    assert (Hother : forall s', In s' steps -> swept_chain s fw !! s'.1 = fw !! s'.1).
    { intros s' Hin. unfold swept_chain. apply lookup_alter_ne.
      intros E. apply Hs. rewrite E. apply list_elem_of_In, in_map, Hin. }
    change (0 + swept_count fw s)%nat with (swept_count fw s).
    assert (Hsum : map (swept_count (swept_chain s fw)) steps
                   = map (swept_count fw) steps).
    { apply map_ext_in. intros s' Hin. unfold swept_count. now rewrite (Hother s' Hin). }
    rewrite IH.
    + rewrite Hsum. f_equal.
      * f_equal. lia.
      * clear -Hs. induction steps as [|s' steps IH]; [reflexivity|].
        change (map fst (s' :: steps)) with (s'.1 :: map fst steps) in Hs.
        cbn [foldr]. rewrite IH.
        -- unfold swept_chain. apply alter_alter_ne.
           intros E. apply Hs. rewrite E. now left.
        -- intros Hin. apply Hs. now right.
    + exact Hnd.
    + rewrite Forall_forall in Hall |- *. intros s' Hin.
      destruct (Hall s' Hin) as (Ht' & Hsp' & Htidy').
      split; [exact Ht'|]. split; [exact Hsp'|].
      intros ls Hl. apply Htidy'. rewrite <- Hl. symmetry.
      apply Hother. now apply list_elem_of_In.
Qed.

Lemma swept_chains_lookup (steps : list (string * string * (string -> bool)))
    (fw : firewall) (key : string * string) :
  NoDup (map fst steps) ->
  foldr swept_chain fw steps !! key
  = match List.find (fun s => bool_decide (s.1 = key)) steps with
    | Some s => List.filter (fun l => negb (s.2 l)) <$> fw !! key
    | None => fw !! key
    end.
Proof.
  induction steps as [|s steps IH]; intros Hnd; [reflexivity|].
  change (map fst (s :: steps)) with (s.1 :: map fst steps) in Hnd.
  cbn [foldr List.find].
  apply NoDup_cons in Hnd as [Hs Hnd]. unfold swept_chain at 1.
  destruct (bool_decide_reflect (s.1 = key)) as [<-|Hne].
  - rewrite lookup_alter_eq, (IH Hnd).
    destruct (List.find _ steps) as [s'|] eqn:E; [|reflexivity].
    apply find_some in E as [Hin Hk]. apply bool_decide_eq_true in Hk.
    exfalso. apply Hs. rewrite <- Hk. now apply list_elem_of_In, in_map.
  - rewrite lookup_alter_ne by exact Hne. now apply IH.
Qed.

(** Full teardown as the sweep of its chains, one after the other. *)
Lemma remove_all_rules_for_suid_sweeps (suid : string) (fw : firewall) :
  Forall (fun s => tidy_chain fw s.1 s.2) (teardown_steps suid) ->
  remove_all_rules_for_suid suid false fw
  = (Ok (sum_list (map (swept_count fw) (teardown_steps suid))),
     foldr swept_chain fw (teardown_steps suid)).
Proof.
  intros Htidy.
  rewrite remove_all_rules_for_suid_steps, sweeps_exact; [reflexivity| |].
  - apply NoDup_ListNoDup. repeat constructor; simpl; intuition discriminate.
  - rewrite Forall_forall in Htidy. apply Forall_forall. intros s Hin.
    split; [|split].
    + apply list_elem_of_In in Hin. simpl in Hin.
      repeat (destruct Hin as [<-|Hin]; [reflexivity|]). destruct Hin.
    + apply list_elem_of_In in Hin. simpl in Hin.
      repeat (destruct Hin as [<-|Hin]; [reflexivity|]). destruct Hin.
    + now apply Htidy.
Qed.

(** The chains after full teardown, chain by chain. *)
Lemma teardown_swept_lookup (suid : string) (fw : firewall) (key : string * string) :
  foldr swept_chain fw (teardown_steps suid) !! key
  = List.filter (fun l => negb (teardown_test suid key l)) <$> fw !! key.
Proof.
  rewrite swept_chains_lookup
    by (apply NoDup_ListNoDup; repeat constructor; simpl; intuition discriminate).
  unfold teardown_test.
  destruct (List.find _ (teardown_steps suid)) as [s|]; [reflexivity|].
  destruct (fw !! key) as [lines|]; [|reflexivity]. simpl. f_equal.
  induction lines as [|l lines IH]; simpl; [reflexivity | now rewrite <- IH].
Qed.

End Teardown.

(** What full teardown removes. On a firewall whose swept chains are as
    the tool lists them, [remove_all_rules_for_suid] deletes, in the three
    anchor chains of each table, the jumps to the dedicated chain in which the
    comment marker, the tag and the identifier occur and, in the two dedicated
    chains, the lines in which they occur; it returns the number of deleted
    lines and leaves every other line and every other chain as it is. *)
Theorem remove_all_rules_for_suid_exact (suid : string) (fw : firewall) :
  Forall (fun s => tidy_chain fw s.1 s.2) (teardown_steps suid) ->
  remove_all_rules_for_suid suid false fw
  = (Ok (sum_list (map (fun s => length (List.filter s.2 (default [] (fw !! s.1))))
                       (teardown_steps suid))),
     map_imap (fun key lines =>
                 Some (List.filter (fun l => negb (teardown_test suid key l)) lines)) fw).
Proof.
  intros Htidy. rewrite (remove_all_rules_for_suid_sweeps suid fw Htidy).
  f_equal. apply map_eq. intros key.
  rewrite teardown_swept_lookup, map_lookup_imap.
  now destruct (fw !! key).
Qed.

Ltac tidy_one :=
  let ls := fresh "ls" in let Hl := fresh "Hl" in
  intros ls Hl; vm_compute in Hl; try discriminate Hl;
  injection Hl as <-;
  (split; [repeat (apply List.Forall_cons; [reflexivity|]); apply List.Forall_nil
          | let l := fresh "l" in let Hin := fresh "Hin" in let Hsel := fresh "Hsel" in
            intros l Hin Hsel; simpl in Hin;
            repeat (destruct Hin as [<-|Hin];
                    [try (vm_compute in Hsel; discriminate Hsel); eexists; reflexivity|]);
            destruct Hin]).

Ltac tidy_example :=
  repeat (apply List.Forall_cons; [tidy_one|]); apply List.Forall_nil.

Lemma remove_all_rules_for_suid_exact_witness :
  remove_all_rules_for_suid "abc1234567" false Examples.session_with_nat_rule
  = (Ok (sum_list (map (fun s => length (List.filter s.2
                                   (default [] (Examples.session_with_nat_rule !! s.1))))
                       (teardown_steps "abc1234567"))),
     map_imap (fun key lines =>
                 Some (List.filter (fun l => negb (teardown_test "abc1234567" key l)) lines))
              Examples.session_with_nat_rule).
Proof.
  apply (remove_all_rules_for_suid_exact "abc1234567" Examples.session_with_nat_rule).
  tidy_example.
Defined.

(** ** The stop of the orchestrator *)





Example stop_example :
  StormShadow.stop Examples.lone_session
    (<[ "/run/stormshadow/abc1234567.hb" := File 1762128000 ]>
       {[ "/run/stormshadow" := Dir 1762000000 ]},
     Examples.session_with_nat_rule)
  = ({[ "/run/stormshadow" := Dir 1762000000 ]},
     <[ ("nat", "STORMSHADOW-NAT") := [ "-N STORMSHADOW-NAT" ] ]>
     {[ ("filter", "STORMSHADOW") := [ "-N STORMSHADOW" ] ]}).
Proof. vm_compute. reflexivity. Qed.

(** ** Dry runs *)

(** The stop of a session in a dry run deletes no rule: the firewall is as
    the generator leaves it, or untouched when the generator has no dry run.
    The cleanup by identifier raises the error of the command runner at the
    first rule of the session, and the stop ignores it. *)
Theorem stop_dry_run_keeps_rules (self : AttackSession.AttackSession) (fw : firewall) :
  AttackSession.dry_run self = true ->
  (AttackSession.stop self fw).2
  = if AttackInterface.dry_run_implemented (AttackSession.main_attack self)
    then (AttackInterface.stop (AttackSession.main_attack self)
            (if AttackSession.enable_spoofing self
             then (AttackInterface.stop_spoofing (AttackSession.main_attack self) fw).2
             else fw)).2
    else fw.
Proof.
  intros Hdry. unfold AttackSession.stop. rewrite Hdry. simpl.
  destruct (AttackInterface.dry_run_implemented (AttackSession.main_attack self));
    [|reflexivity].
  simpl.
  destruct (AttackInterface.stop (AttackSession.main_attack self) _) as [[[]|e] fw1];
    [|reflexivity].
  cbn [AttackSession.suid AttackSession.dry_run AttackSession.set_status]. rewrite Hdry.
  rewrite remove_rules_for_suid_dry.
  destruct (existsb _ _); [reflexivity|].
  rewrite remove_rules_for_suid_dry. reflexivity.
Qed.

Lemma stop_dry_run_keeps_rules_witness :
  (AttackSession.stop Examples.rehearsal Examples.session_with_nat_rule).2
  = Examples.session_with_nat_rule.
Proof.
  apply (stop_dry_run_keeps_rules Examples.rehearsal Examples.session_with_nat_rule).
  reflexivity.
Defined.

Section GcDryRun.

Context (now ttl : Z) (heartbeat_dir : string) (fs : filesystem).




End GcDryRun.


(** ** Garbage collection: the sweep of a dedicated chain *)

Section ListedRules.

Lemma skip_append (a b : string) : skip (String.length a) (a +:+ b) = b.
Proof. induction a as [|c a IH]; simpl; [reflexivity | exact IH]. Qed.

Lemma prefix_cons (c d : ascii) (p s : string) :
  String.prefix (String c p) (String d s)
  = if Ascii.eqb c d then String.prefix p s else false.
Proof.
  simpl. destruct (ascii_dec c d) as [->|Hne].
  - now rewrite Ascii.eqb_refl.
  - destruct (Ascii.eqb_spec c d); [congruence | reflexivity].
Qed.

(** A separator does not begin inside a text that does not hold it and
    that ends in a character foreign to the separator. *)
Lemma no_straddle (sep : string) : forall (a y : string) (c : ascii),
  String.prefix sep a = false -> last_char a = Some c -> has_char c sep = false ->
  String.prefix sep (a +:+ y) = false.
Proof.
  induction sep as [|s0 sep IH]; intros a y c Hpre Hlast Hc.
  - now rewrite prefix_nil in Hpre.
  - destruct a as [|a0 a]; [discriminate Hlast|].
    change (String a0 a +:+ y) with (String a0 (a +:+ y)).
    rewrite prefix_cons in Hpre |- *.
    destruct (Ascii.eqb_spec s0 a0) as [->|Hne]; [|reflexivity].
    simpl in Hc. apply orb_false_iff in Hc as [Hc0 Hc].
    destruct a as [|a1 a].
    + simpl in Hlast. injection Hlast as <-. now rewrite Ascii.eqb_refl in Hc0.
    + apply (IH _ y c Hpre); [|exact Hc].
      now rewrite last_char_cons in Hlast by discriminate.
Qed.

Lemma contains_cons (sub : string) (c : ascii) (s : string) :
  contains sub (String c s) = String.prefix sub (String c s) || contains sub s.
Proof. reflexivity. Qed.

Lemma split_once_first (sep : string) : forall (pre x : string),
  contains sep pre = false ->
  (forall c, last_char pre = Some c -> has_char c sep = false) ->
  split_once sep (pre +:+ sep +:+ x) = [pre; x].
Proof.
  induction pre as [|c pre IH]; intros x Hcont Hlast.
  - change (EmptyString +:+ sep +:+ x) with (sep +:+ x).
    destruct (sep +:+ x) as [|d r] eqn:E.
    + destruct sep; [|discriminate E]. simpl in Hcont. discriminate Hcont.
    + cbn [split_once]. rewrite <- E, prefix_append, skip_append. reflexivity.
  - change (String c pre +:+ sep +:+ x) with (String c (pre +:+ sep +:+ x)).
    rewrite contains_cons in Hcont. apply orb_false_iff in Hcont as [Hp Hcont].
    cbn [split_once].
    assert (Hlc : exists d, last_char (String c pre) = Some d).
    { destruct (last_char (String c pre)) eqn:E; [eauto|].
      now apply last_char_None in E. }
    destruct Hlc as (d & Hd).
    change (String c (pre +:+ sep +:+ x)) with (String c pre +:+ (sep +:+ x)).
    rewrite (no_straddle sep (String c pre) (sep +:+ x) d Hp Hd (Hlast d Hd)).
    change (String c pre +:+ (sep +:+ x)) with (String c (pre +:+ sep +:+ x)).
    rewrite IH; [reflexivity | exact Hcont|].
    intros e He. apply Hlast.
    destruct pre; [discriminate He|]. now rewrite last_char_cons by discriminate.
Qed.

Lemma rstrip_by_keep (p : ascii -> bool) (x : string) :
  rstrip_by p x <> EmptyString ->
  forall a, rstrip_by p (a +:+ x) = a +:+ rstrip_by p x.
Proof.
  intros Hx. induction a as [|c a IH]; [reflexivity|].
  change (String c a +:+ x) with (String c (a +:+ x)).
  cbn [rstrip_by]. rewrite IH.
  destruct (a +:+ rstrip_by p x) eqn:E.
  - destruct a; simpl in E; [congruence | discriminate E].
  - change (String c a +:+ rstrip_by p x) with (String c (a +:+ rstrip_by p x)).
    now rewrite E.
Qed.

Lemma rstrip_by_head (p : ascii -> bool) (c : ascii) (s : string) :
  p c = false -> exists r, rstrip_by p (String c s) = String c r.
Proof.
  intros Hc. cbn [rstrip_by].
  destruct (rstrip_by p s); [rewrite Hc|]; eauto.
Qed.

Lemma strip_by_head (p : ascii -> bool) (c : ascii) (s : string) :
  p c = false -> exists r, strip_by p (String c s) = String c r.
Proof.
  intros Hc. unfold strip_by. rewrite lstrip_by_head by exact Hc.
  now apply rstrip_by_head.
Qed.

Lemma all_chars_no_space (word : string) :
  all_chars (fun c => negb (is_space c)) word = true ->
  has_char " " word = false /\ contains " " word = false.
Proof.
  induction word as [|c word IH]; [split; reflexivity|].
  cbn [all_chars has_char]. intros H. apply andb_true_iff in H as [Hc Hw].
  destruct (IH Hw) as [H1 H2]. apply negb_true_iff in Hc.
  assert (Hne : Ascii.eqb c " " = false).
  { destruct (Ascii.eqb_spec c " ") as [->|]; [discriminate Hc | reflexivity]. }
  split.
  - now rewrite Hne, H1.
  - rewrite contains_cons, prefix_cons, H2, orb_false_r.
    destruct (Ascii.eqb_spec " " c) as [<-|]; [discriminate Hc | reflexivity].
Qed.

(** The text that the sweep of a dedicated chain extracts from a listed
    rule starts with the target, not with the comment. *)
Lemma comment_text_of_listed (line : string) :
  listed_with_target line ->
  exists r, raw_of (comment_text_of line) = String "-" r.
Proof.
  intros (pre & word & tail & -> & Hpre & Hend & Hword & Hns).
  destruct (all_chars_no_space word Hns) as [Hsp Hcsp].
  destruct word as [|w0 word]; [congruence|].
  assert (Hw0 : is_space w0 = false).
  { simpl in Hns. apply andb_true_iff in Hns as [H _]. now apply negb_true_iff in H. }
  unfold comment_text_of.
  change (pre +:+ "--comment " +:+ String w0 word +:+ " -" +:+ tail)
    with (pre +:+ "--comment" +:+ (" " +:+ String w0 word +:+ " -" +:+ tail)).
  rewrite split_once_first; [|exact Hpre|].
  2: { intros c Hc. destruct Hend as [->|He]; [discriminate Hc|].
       rewrite He in Hc. now injection Hc as <-. }
  (* the text after the comment marker, stripped *)
  assert (Hstrip : exists r, strip (" " +:+ String w0 word +:+ " -" +:+ tail)
                             = String w0 word +:+ " " +:+ String "-" r).
  { unfold strip, strip_by.
    change (lstrip_by is_space (" " +:+ String w0 word +:+ " -" +:+ tail))
      with (lstrip_by is_space (String w0 (word +:+ " -" +:+ tail))).
    rewrite lstrip_by_head by exact Hw0.
    destruct (rstrip_by_head is_space "-" tail eq_refl) as (r & Hr).
    exists r.
    replace (String w0 (word +:+ " -" +:+ tail))
      with ((String w0 word +:+ " ") +:+ String "-" tail)
      by (rewrite append_assoc; reflexivity).
    rewrite rstrip_by_keep by (rewrite Hr; discriminate).
    now rewrite Hr, append_assoc. }
  destruct Hstrip as (r & ->).
  rewrite (split_once_first " " (String w0 word) (String "-" r)); [|exact Hcsp|].
  2: { intros c Hc. cbn [has_char]. rewrite orb_false_r.
       destruct (Ascii.eqb_spec " " c) as [<-|]; [|reflexivity].
       exfalso. clear -Hc Hsp. revert w0 Hc Hsp.
       induction word as [|w1 word IH]; intros w0 Hc Hsp.
       - simpl in Hc. injection Hc as ->. discriminate Hsp.
       - rewrite last_char_cons in Hc by discriminate.
         simpl in Hsp. apply orb_false_iff in Hsp as [_ Hsp]. now apply (IH w1). }
  destruct (strip_by_head is_space "-" r eq_refl) as (r1 & Hr1).
  unfold strip at 1. rewrite Hr1.
  destruct (strip_by_head (in_chars (String "'" (String dquote EmptyString))) "-" r1 eq_refl)
    as (r2 & Hr2).
  unfold strip_chars at 1. rewrite Hr2.
  unfold raw_of.
  destruct (strip_by_head is_space "-" r2 eq_refl) as (r3 & Hr3).
  unfold strip at 2. rewrite Hr3.
  destruct (strip_by_head (in_chars "/*") "-" r3 eq_refl) as (r4 & Hr4).
  unfold strip_chars at 2. rewrite Hr4.
  destruct (strip_by_head (in_chars "*/") "-" r4 eq_refl) as (r5 & Hr5).
  unfold strip_chars. rewrite Hr5.
  destruct (strip_by_head is_space "-" r5 eq_refl) as (r6 & Hr6).
  unfold strip. rewrite Hr6. eauto.
Qed.

End ListedRules.

Section GcExact.

Context (now ttl : Z) (heartbeat_dir : string) (fs : filesystem).



(** The sweep of a dedicated chain deletes nothing when the text that it
    extracts from each tagged line is not a comment of ours. *)
Lemma gc_chain_lines_tagged_idle (dry_run : bool) (table chain : string)
    (lines : list string) :
  (forall l, In l lines -> tagged l = true ->
     startswith (raw_of (comment_text_of l)) "Stormshadow:" = false) ->
  forall (removed_total : nat) (fw : firewall),
  gc_chain_lines now ttl heartbeat_dir fs dry_run table chain lines removed_total fw
  = (Ok removed_total, fw).
Proof.
  induction lines as [|l lines IH]; intros Hidle removed_total fw; [reflexivity|].
  cbn [gc_chain_lines].
  destruct (contains "-m comment --comment" l && contains COMMENT_PREFIX l) eqn:Ht.
  - unfold should_remove.
    rewrite (parse_comment_not_ours _ (Hidle l (or_introl eq_refl) Ht)). simpl.
    apply IH. intros x Hx. apply Hidle. now right.
  - apply IH. intros x Hx. apply Hidle. now right.
Qed.

Lemma gc_chain_lines_listed (dry_run : bool) (table chain : string)
    (lines : list string) :
  (forall l, In l lines -> tagged l = true -> listed_with_target l) ->
  forall (removed_total : nat) (fw : firewall),
  gc_chain_lines now ttl heartbeat_dir fs dry_run table chain lines removed_total fw
  = (Ok removed_total, fw).
Proof.
  intros Hall. apply gc_chain_lines_tagged_idle. intros l Hin Ht.
  destruct (comment_text_of_listed l (Hall l Hin Ht)) as (r & ->). reflexivity.
Qed.


End GcExact.

(** The sweep of a dedicated chain removes no rule that is listed with its
    target behind the comment. For such a line the text that the sweep hands
    to the decision is the target and its options, which is no comment of
    ours; so whatever the heartbeats and the ages, in a dry run or not, the
    sweep of a chain whose tagged lines are such rules deletes nothing and
    counts nothing. *)
Theorem gc_chain_sweep_skips_listed_rules
    (now ttl : Z) (heartbeat_dir : string) (fs : filesystem) (dry_run : bool)
    (table chain : string) (lines : list string) (removed_total : nat) (fw : firewall) :
  (forall l, In l lines -> tagged l = true -> listed_with_target l) ->
  (forall l, In l lines -> tagged l = true ->
     should_remove now ttl heartbeat_dir fs (comment_text_of l) = Ok None)
  /\ gc_chain_lines now ttl heartbeat_dir fs dry_run table chain lines removed_total fw
     = (Ok removed_total, fw).
Proof.
  intros Hall. split.
  - intros l Hin Ht. unfold should_remove.
    rewrite parse_comment_not_ours; [reflexivity|].
    destruct (comment_text_of_listed l (Hall l Hin Ht)) as (r & ->). reflexivity.
  - now apply gc_chain_lines_listed.
Qed.

Lemma gc_chain_sweep_skips_listed_rules_witness :
  let lines := [ "-N STORMSHADOW";
                 Examples.nfqueue_rule "abc1234567" "1762000000" "5060" "1" ] in
  (forall l, In l lines -> tagged l = true ->
     should_remove 1762128000 7200 "/run/stormshadow" (∅ : gmap string node)
       (comment_text_of l) = Ok None)
  /\ gc_chain_lines 1762128000 7200 "/run/stormshadow" (∅ : gmap string node) false
       "filter" STORMSHADOW_CHAIN lines 0 Examples.abandoned_rules
     = (Ok 0%nat, Examples.abandoned_rules).
Proof.
  apply (gc_chain_sweep_skips_listed_rules 1762128000 7200 "/run/stormshadow" ∅ false
           "filter" STORMSHADOW_CHAIN
           [ "-N STORMSHADOW";
             Examples.nfqueue_rule "abc1234567" "1762000000" "5060" "1" ] 0
           Examples.abandoned_rules).
  intros l Hin Ht. destruct Hin as [<-|[<-|[]]]; [discriminate Ht|].
  exists "-A STORMSHADOW -p udp -m udp --dport 5060 -m comment ",
    (quoted "Stormshadow:abc1234567:1762000000:udp_dport=5060;queue=1"),
    "j NFQUEUE --queue-num 1".
  repeat split; try reflexivity.
  - now right.
  - discriminate.
Defined.

(** ** Garbage collection as a whole *)



(** ** Queue numbers *)

Section QueueNumbers.

Lemma split_go_not_nil (sep : string) (s : string) : forall k, split_go sep k s <> [].
Proof.
  induction s as [|c s IH]; intros k; cbn [split_go]; [discriminate|].
  destruct k as [|k]; [|apply IH].
  destruct (String.prefix sep (String c s)); [discriminate|].
  destruct (split_go sep 0 s); discriminate.
Qed.

(** A text that holds the separator splits in two parts at least: the
    subscript 1 is in range. *)
Lemma split_str_second (sep s : string) :
  sep <> EmptyString -> contains sep s = true ->
  exists text, split_str sep s !! 1%nat = Some text.
Proof.
  intros Hsep. unfold split_str. induction s as [|c s IH]; intros H.
  - destruct sep as [|a sep']; [congruence|]. discriminate H.
  - change (contains sep (String c s))
      with (String.prefix sep (String c s) || contains sep s) in H.
    cbn [split_go]. destruct (String.prefix sep (String c s)) eqn:Hp.
    + destruct (split_go sep (String.length sep - 1) s) as [|x xs] eqn:E;
        [now apply split_go_not_nil in E|]. now exists x.
    + simpl in H. destruct (IH H) as (text & Ht).
      destruct (split_go sep 0 s) as [|x xs]; [discriminate Ht|]. now exists text.
Qed.

Lemma queue_numbers_raises (lines : list string) (e : exn) :
  queue_numbers lines = Raise e -> e = ValueError.
Proof.
  induction lines as [|l lines IH]; simpl; [discriminate|].
  destruct (contains "--queue-num " l) eqn:Hl; [|exact IH].
  destruct (split_str_second "--queue-num " l ltac:(discriminate) Hl) as (text & ->).
  destruct (py_int text); [|now intros [= <-]].
  destruct (queue_numbers lines); [discriminate|]. intros [= <-]. now apply IH.
Qed.

Lemma queue_numbers_spec (lines : list string) : forall qs,
  queue_numbers lines = Ok qs ->
  forall line, In line lines -> contains "--queue-num " line = true ->
  exists q, queue_of line = Some q /\ In q qs.
Proof.
  induction lines as [|l lines IH]; intros qs Hq line Hin Hm; [destruct Hin|].
  simpl in Hq. unfold queue_of.
  destruct (contains "--queue-num " l) eqn:Hl.
  - destruct (split_str "--queue-num " l !! 1%nat) as [text|] eqn:Ht; [|discriminate].
    destruct (py_int text) as [q|] eqn:Hi; [|discriminate].
    destruct (queue_numbers lines) as [qs'|] eqn:Hqs; [|discriminate].
    injection Hq as <-. destruct Hin as [<-|Hin].
    + exists q. rewrite Ht. simpl. split; [exact Hi | now left].
    + destruct (IH qs' eq_refl line Hin Hm) as (q' & Hq' & Hin').
      exists q'. split; [exact Hq' | now right].
  - destruct Hin as [<-|Hin]; [congruence|]. now apply IH.
Qed.

Lemma queue_numbers_unmarked (lines : list string) :
  Forall (fun l => contains "--queue-num " l = false) lines ->
  queue_numbers lines = Ok [].
Proof.
  induction 1 as [|l lines Hl _ IH]; simpl; [reflexivity|]. now rewrite Hl.
Qed.

Lemma foldl_max_le (xs : list Z) : forall x,
  x <= foldl Z.max x xs /\ Forall (fun q => q <= foldl Z.max x xs) xs.
Proof.
  induction xs as [|y xs IH]; intros x; simpl; [split; [lia | constructor]|].
  destruct (IH (Z.max x y)) as [H1 H2]. split; [lia|].
  constructor; [lia | exact H2].
Qed.

Lemma py_max_upper (l : list Z) (m : Z) :
  py_max l = Ok m -> forall q, In q l -> q <= m.
Proof.
  destruct l as [|x xs]; [discriminate|]. intros [= <-] q Hin.
  destruct (foldl_max_le xs x) as [H1 H2]. destruct Hin as [<-|Hin]; [exact H1|].
  rewrite Forall_forall in H2. apply H2. now apply list_elem_of_In.
Qed.

End QueueNumbers.

(** The queue number that the configuration takes as available is larger
    than every queue number that the listing of the rules names in a line of
    a queue rule; it is 0 when the listing holds no queue rule. *)
Theorem get_available_queue_num_fresh (stdout : string) (n : Z) :
  ConfigManager.get_available_queue_num (Ok stdout) = Ok n ->
  (forall line, In line (split_on newline (strip stdout)) ->
     contains "NFQUEUE" line = true -> contains "--queue-num " line = true ->
     exists q, queue_of line = Some q /\ q < n)
  /\ ((forall line, In line (split_on newline (strip stdout)) ->
         contains "NFQUEUE" line = false) -> n = 0).
Proof.
  unfold ConfigManager.get_available_queue_num, get_current_iptables_queue_num.
  set (lines := List.filter (contains "NFQUEUE") (split_on newline (strip stdout))).
  intros H. split.
  - intros line Hin Hq Hm.
    assert (Hl : In line lines) by (apply filter_In; now split).
    destruct lines as [|l0 lines0] eqn:E; [destruct Hl|]. rewrite <- E in *.
    destruct (queue_numbers lines) as [qs|e] eqn:Hqs.
    + destruct (queue_numbers_spec lines qs Hqs line Hl Hm) as (q & Hq' & Hin').
      exists q. split; [exact Hq'|].
      destruct (py_max qs) as [m|e] eqn:Hmax.
      * injection H as <-. pose proof (py_max_upper qs m Hmax q Hin'). lia.
      * destruct qs; [destruct Hin' | discriminate Hmax].
    + rewrite (queue_numbers_raises lines e Hqs) in H. discriminate H.
  - intros Hnone.
    assert (E : lines = []).
    { unfold lines. clear H lines.
      induction (split_on newline (strip stdout)) as [|l ls IH]; [reflexivity|].
      simpl. rewrite (Hnone l (or_introl eq_refl)).
      apply IH. intros x Hx. apply Hnone. now right. }
    rewrite E in H. now injection H as <-.
Qed.

Lemma get_available_queue_num_fresh_witness :
  (forall line, In line (split_on newline (strip Examples.listing_example)) ->
     contains "NFQUEUE" line = true -> contains "--queue-num " line = true ->
     exists q, queue_of line = Some q /\ q < 13)
  /\ ((forall line, In line (split_on newline (strip Examples.listing_example)) ->
         contains "NFQUEUE" line = false) -> 13 = 0).
Proof.
  apply (get_available_queue_num_fresh Examples.listing_example 13). vm_compute. reflexivity.
Defined.

(** The edges of [get_current_iptables_queue_num]. A listing command that
    exits with an error gives -1, and so does a listing without any queue
    rule. A listing with queue rules none of which names a queue number
    raises [ValueError], which the function does not handle; the function
    never raises [IndexError] or the error of the command. *)
Theorem get_current_iptables_queue_num_edges (stdout : string) (run : result string) :
  get_current_iptables_queue_num (Raise CalledProcessError) = Ok (-1)
  /\ (Forall (fun l => contains "NFQUEUE" l = false)
        (split_on newline (strip stdout)) ->
      get_current_iptables_queue_num (Ok stdout) = Ok (-1))
  /\ (Exists (fun l => contains "NFQUEUE" l = true)
        (split_on newline (strip stdout)) ->
      Forall (fun l => contains "--queue-num " l = false)
        (split_on newline (strip stdout)) ->
      get_current_iptables_queue_num (Ok stdout) = Raise ValueError)
  /\ get_current_iptables_queue_num run <> Raise IndexError
  /\ get_current_iptables_queue_num run <> Raise CalledProcessError.
Proof.
  split; [reflexivity|]. split; [|split; [|split]].
  - intros Hnone. unfold get_current_iptables_queue_num.
    replace (List.filter _ _) with (@nil string); [reflexivity|].
    symmetry. induction Hnone as [|l ls Hl _ IH]; simpl; [reflexivity|]. now rewrite Hl.
  - intros Hsome Hun. unfold get_current_iptables_queue_num.
    set (lines := List.filter (contains "NFQUEUE") (split_on newline (strip stdout))).
    assert (Hne : lines <> []).
    { unfold lines. apply Exists_exists in Hsome as (l & Hin & Hl).
      intros E. assert (Hf : In l (List.filter (contains "NFQUEUE")
                                     (split_on newline (strip stdout)))).
      { apply filter_In. split; [now apply list_elem_of_In | exact Hl]. }
      rewrite E in Hf. destruct Hf. }
    assert (Hq : queue_numbers lines = Ok []).
    { apply queue_numbers_unmarked. apply Forall_forall. intros l Hin.
      apply list_elem_of_In, filter_In in Hin as [Hin _].
      rewrite Forall_forall in Hun. apply Hun. now apply list_elem_of_In. }
    rewrite Hq. destruct lines; [congruence | reflexivity].
  - unfold get_current_iptables_queue_num.
    destruct run as [out|[]]; try discriminate;
      destruct (List.filter _ _); try discriminate;
      destruct (queue_numbers _) as [qs|[]]; try discriminate;
      destruct (py_max qs) as [m|[]] eqn:E; try discriminate;
      destruct qs; discriminate E.
  - unfold get_current_iptables_queue_num.
    destruct run as [out|[]]; try discriminate;
      destruct (List.filter _ _); try discriminate;
      destruct (queue_numbers _) as [qs|[]]; try discriminate;
      destruct (py_max qs) as [m|[]] eqn:E; try discriminate;
      destruct qs; discriminate E.
Qed.

(** ** The address pool in turn, and the rewritten packet *)

Section RoundRobin.

Context {network : Type}.

Lemma get_spoofed_ip_step (self : Spoofer.Spoofer network) (packet : Spoofer.Packet)
    (ip : string) :
  Spoofer.spoofed_ips self !! Spoofer.next_ip_number self = Some ip ->
  Spoofer.get_spoofed_ip (self, packet)
  = (Ok ip, (Spoofer.set_next_ip_number network
               ((Spoofer.next_ip_number self + 1) mod length (Spoofer.spoofed_ips self))%nat
               self, packet)).
Proof. intros H. unfold Spoofer.get_spoofed_ip. now rewrite H. Qed.

Lemma requests_from (k : nat) : forall (self : Spoofer.Spoofer network)
    (packet : Spoofer.Packet),
  (Spoofer.next_ip_number self < length (Spoofer.spoofed_ips self))%nat ->
  requests k (self, packet)
  = (map (fun j => from_option Ok (Raise IndexError)
                     (Spoofer.spoofed_ips self
                        !! ((Spoofer.next_ip_number self + j)
                              mod length (Spoofer.spoofed_ips self))%nat))
         (seq 0 k),
     (if k is O then self
      else Spoofer.set_next_ip_number network
             ((Spoofer.next_ip_number self + k)
                mod length (Spoofer.spoofed_ips self))%nat self, packet)).
Proof.
  induction k as [|k IH]; intros self packet Hi; [reflexivity|].
  cbn [requests].
  destruct (lookup_lt_is_Some_2 _ _ Hi) as (ip & Hip).
  rewrite (get_spoofed_ip_step self packet ip Hip).
  destruct self as [net q ap vip vp i ips nq stop]. simpl in *.
  assert (Hi' : ((i + 1) mod length ips < length ips)%nat)
    by (apply Nat.mod_upper_bound; lia).
  unfold Spoofer.set_next_ip_number at 1. simpl.
  rewrite (IH {| Spoofer.spoofed_subnet := net; Spoofer.attack_queue_num := q;
                 Spoofer.attacker_port := ap; Spoofer.victim_ip := vip;
                 Spoofer.victim_port := vp;
                 Spoofer.next_ip_number := ((i + 1) mod length ips)%nat;
                 Spoofer.spoofed_ips := ips; Spoofer.netfilter_spoofing_queue := nq;
                 Spoofer.should_stop := stop |} packet Hi'). simpl.
  f_equal.
  - rewrite Nat.add_0_r, (Nat.mod_small i) by exact Hi. rewrite Hip.
    simpl. f_equal. rewrite <- seq_shift, map_map.
    apply map_ext. intros j.
    rewrite Nat.Div0.add_mod_idemp_l. do 3 f_equal. lia.
  - f_equal. destruct k as [|k].
    + reflexivity.
    + unfold Spoofer.set_next_ip_number. simpl. f_equal.
      rewrite Nat.Div0.add_mod_idemp_l. f_equal. lia.
Qed.

End RoundRobin.

(** The pool is served in turn. A spoofer that was constructed on a subnet
    with at least one host address answers the requests for an address with
    the addresses of the pool in their order, starting again at the first
    after the last; no request raises. *)
Theorem get_spoofed_ip_round_robin {network : Type}
    (ip_network : string -> result network) (hosts : network -> list string)
    (attack_queue_num : Z) (spoofed_subnet : string) (victim_port : Z)
    (victim_ip : string) (attacker_port : Z) (self : Spoofer.Spoofer network)
    (packet : Spoofer.Packet) (k : nat) :
  Spoofer.init ip_network hosts attack_queue_num spoofed_subnet victim_port
    victim_ip attacker_port = Ok self ->
  Spoofer.spoofed_ips self <> [] ->
  let ips := Spoofer.spoofed_ips self in
  (requests k (self, packet)).1
    = map (fun j => from_option Ok (Raise IndexError) (ips !! (j mod length ips)%nat))
          (seq 0 k)
  /\ Forall (fun r => exists ip, r = Ok ip /\ In ip ips) (requests k (self, packet)).1
  /\ Spoofer.next_ip_number (requests k (self, packet)).2.1 = (k mod length ips)%nat.
Proof.
  intros Hinit Hne ips.
  assert (H0 : Spoofer.next_ip_number self = 0%nat).
  { unfold Spoofer.init in Hinit. destruct (ip_network spoofed_subnet); [|discriminate].
    now injection Hinit as <-. }
  assert (Hlen : (0 < length ips)%nat).
  { unfold ips. destruct (Spoofer.spoofed_ips self); [congruence | simpl; lia]. }
  pose proof (requests_from k self packet) as H. rewrite H0 in H.
  specialize (H Hlen). fold ips in H. rewrite H. cbn [fst snd Nat.add].
  split; [reflexivity|]. split.
  - apply Forall_forall. intros r Hr. apply list_elem_of_In, in_map_iff in Hr as (j & <- & _).
    destruct (lookup_lt_is_Some_2 ips (j mod length ips)%nat) as (ip & Hip).
    + apply Nat.mod_upper_bound. lia.
    + rewrite Hip. exists ip. split; [reflexivity|].
      apply list_elem_of_In. eapply list_elem_of_lookup_2. exact Hip.
  - destruct k as [|k]; [now rewrite H0, Nat.Div0.mod_0_l|]. reflexivity.
Qed.

Lemma get_spoofed_ip_round_robin_witness :
  (requests 5 (Examples.small_pool, Examples.queued_packet)).1
    = map (fun j => from_option Ok (Raise IndexError)
                      (Spoofer.spoofed_ips Examples.small_pool
                         !! (j mod length (Spoofer.spoofed_ips Examples.small_pool))%nat))
          (seq 0 5)
  /\ Forall (fun r => exists ip, r = Ok ip /\ In ip (Spoofer.spoofed_ips Examples.small_pool))
       (requests 5 (Examples.small_pool, Examples.queued_packet)).1
  /\ Spoofer.next_ip_number (requests 5 (Examples.small_pool, Examples.queued_packet)).2.1
     = (5 mod length (Spoofer.spoofed_ips Examples.small_pool))%nat.
Proof.
  apply (get_spoofed_ip_round_robin Examples.ip_network Examples.hosts 1 "10.0.0.0/30"
           5060 "10.0.0.5" 5061 Examples.small_pool Examples.queued_packet 5).
  - reflexivity.
  - vm_compute. discriminate.
Defined.

Example requests_example :
  (requests 5 (Examples.small_pool, Examples.queued_packet)).1
  = [Ok "10.0.0.1"; Ok "10.0.0.2"; Ok "10.0.0.1"; Ok "10.0.0.2"; Ok "10.0.0.1"].
Proof. vm_compute. reflexivity. Qed.

(** The packet that the handler accepts and the packet that it drops. When
    the payload dissects into a datagram and the bytes of the rewritten
    datagram can be built, the accepted packet carries these bytes: its source
    address is the next address of the pool, its source port lies in the
    ephemeral range, both checksums are left to be computed again, and the
    destination, the destination port and the load are those of the packet
    that arrived. A packet that is dropped keeps the payload it arrived with. *)
Theorem packet_spoofer_payload {network : Type}
    (IP : Spoofer.bytes -> result Spoofer.ScapyPacket)
    (to_bytes : Spoofer.ScapyPacket -> result Spoofer.bytes)
    (rnd : Z) (self : Spoofer.Spoofer network) (packet : Spoofer.Packet) :
  let out := (Spoofer.packet_spoofer IP to_bytes rnd (self, packet)).2.2 in
  (forall pkt u ip raw,
     IP (Spoofer.get_payload packet) = Ok pkt ->
     Spoofer.udp_layer pkt = Some u ->
     Spoofer.spoofed_ips self !! Spoofer.next_ip_number self = Some ip ->
     let port := Spoofer.random_ephemeral_port rnd in
     to_bytes {| Spoofer.src := ip; Spoofer.dst := Spoofer.dst pkt;
                 Spoofer.ip_chksum := None;
                 Spoofer.udp_layer :=
                   Some {| Spoofer.sport := port; Spoofer.dport := Spoofer.dport u;
                           Spoofer.udp_chksum := None;
                           Spoofer.udp_load := Spoofer.udp_load u |} |} = Ok raw ->
     49152 <= port < 65536
     /\ out = {| Spoofer.payload := raw;
                 Spoofer.verdicts := Spoofer.verdicts packet ++ [Spoofer.Accept] |})
  /\ (last (Spoofer.verdicts out) = Some Spoofer.Drop ->
      Spoofer.payload out = Spoofer.payload packet).
Proof.
  intros out. split.
  - intros pkt u ip raw Hip Hu Hpool port Hraw. split.
    + unfold port, Spoofer.random_ephemeral_port, Spoofer.EPHEMERAL_PORTS_start,
        Spoofer.EPHEMERAL_PORTS_stop.
      pose proof (Z.mod_pos_bound rnd (65536 - 49152) ltac:(lia)). lia.
    + unfold out, Spoofer.packet_spoofer, Spoofer.try_finally, Spoofer.try_except,
        Spoofer.rewrite_packet.
      unfold Spoofer.bind, Spoofer.lift, Spoofer.get_spoofed_ip, Spoofer.on_packet.
      rewrite Hip, Hpool.
      unfold Spoofer.set_sport, Spoofer.del_udp_chksum, Spoofer.del_ip_chksum,
        Spoofer.set_src. cbn. rewrite Hu. cbn. fold port. rewrite Hraw. cbn.
      match goal with
      | |- context [Spoofer.unbind_if_requested (?s, ?p)] =>
          destruct (unbind_if_requested_packet s p) as (self2 & ->)
      end.
      reflexivity.
  - intros Hlast. unfold out in *. clear out.
    unfold Spoofer.packet_spoofer, Spoofer.try_finally, Spoofer.try_except,
      Spoofer.bind in *.
    destruct (Spoofer.rewrite_packet IP to_bytes rnd (self, packet))
      as [[[]|e] [self1 packet1]] eqn:E.
    + exfalso. revert Hlast. simpl.
      destruct (unbind_if_requested_packet self1 (Spoofer.accept packet1)) as (self2 & ->).
      simpl. rewrite last_snoc. discriminate.
    + simpl.
      destruct (unbind_if_requested_packet self1 (Spoofer.drop packet1)) as (self2 & ->).
      simpl. revert E.
      unfold Spoofer.rewrite_packet, Spoofer.bind, Spoofer.lift, Spoofer.get_spoofed_ip,
        Spoofer.on_packet.
      destruct (IP (Spoofer.get_payload packet)) as [pkt|e']; [|now intros [= _ _ <-]].
      destruct (Spoofer.spoofed_ips self !! Spoofer.next_ip_number self) as [ip|];
        [|now intros [= _ _ <-]].
      destruct (Spoofer.set_sport _ _) as [pkt1|e']; [|now intros [= _ _ <-]].
      destruct (Spoofer.del_udp_chksum _) as [pkt2|e']; [|now intros [= _ _ <-]].
      destruct (to_bytes pkt2) as [raw|e']; [discriminate | now intros [= _ _ <-]].
Qed.

(** ** The parameters of the configuration *)

Section Parameters.

Import Config.

Lemma dict_get_set (k : string) (v : value) (d : dict) :
  dict_get k (dict_set k v d) = Some v.
Proof.
  induction d as [|[k' v'] d IH]; simpl.
  - now rewrite String.eqb_refl.
  - destruct (String.eqb k' k) eqn:E; simpl; [now rewrite String.eqb_refl|].
    now rewrite E.
Qed.

Lemma dict_get_set_ne (k k' : string) (v : value) (d : dict) :
  k' <> k -> dict_get k' (dict_set k v d) = dict_get k' d.
Proof.
  intros Hne. induction d as [|[k0 v0] d IH]; simpl.
  - destruct (String.eqb_spec k k'); [congruence | reflexivity].
  - destruct (String.eqb_spec k0 k) as [->|Hk]; simpl.
    + destruct (String.eqb_spec k k'); [congruence|].
      destruct (String.eqb_spec k k'); [congruence | reflexivity].
    + destruct (String.eqb k0 k'); [reflexivity | exact IH].
Qed.

Lemma dict_set_keys_in (k : string) (v : value) (d : dict) :
  dict_in k d = true -> map fst (dict_set k v d) = map fst d.
Proof.
  unfold dict_in. induction d as [|[k' v'] d IH]; simpl; [discriminate|].
  destruct (String.eqb_spec k' k) as [->|Hk]; simpl; [reflexivity|].
  intros H. now rewrite IH.
Qed.

(** What a successful [set] has done, read with [get] at the same path. *)
Lemma set_recursive_get (name : string) (v default : value) (path : list string) :
  forall d d' : dict,
  _set_recursive name v d path = Returns d' ->
  _get_recursive name default (VDict d') path = Returns v
  /\ forall name', name' <> name ->
       _get_recursive name' default (VDict d') path
       = _get_recursive name' default (VDict d) path.
Proof.
  induction path as [|key path IH]; intros d d' Hset.
  - simpl in Hset. injection Hset as <-. simpl. rewrite dict_get_set. split; [reflexivity|].
    intros name' Hne. now rewrite dict_get_set_ne.
  - cbn [_set_recursive] in Hset. cbn [_get_recursive].
    unfold dict_in in Hset.
    destruct (dict_get key d) as [old|] eqn:Hold; cbv beta iota zeta in Hset.
    + rewrite Hold in Hset.
      destruct old as [| | | | | | |inner]; try discriminate Hset.
      destruct path as [|key2 path].
      * injection Hset as <-. rewrite dict_get_set. simpl. rewrite dict_get_set.
        split; [reflexivity|]. intros name' Hne. now rewrite dict_get_set_ne.
      * destruct (_set_recursive name v inner (key2 :: path)) as [inner'|e] eqn:Hin;
          [|discriminate Hset].
        injection Hset as <-. rewrite dict_get_set.
        destruct (IH inner inner' Hin) as [H1 H2]. split; [exact H1 | exact H2].
    + rewrite dict_get_set in Hset.
      destruct path as [|key2 path].
      * injection Hset as <-. rewrite dict_get_set. simpl.
        rewrite String.eqb_refl. split; [reflexivity|].
        intros name' Hne. destruct (String.eqb_spec name name'); [congruence | reflexivity].
      * destruct (_set_recursive name v [] (key2 :: path)) as [inner'|e] eqn:Hin;
          [|discriminate Hset].
        injection Hset as <-. rewrite dict_get_set.
        destruct (IH [] inner' Hin) as [H1 H2]. split; [exact H1|].
        intros name' Hne. rewrite (H2 name' Hne). reflexivity.
Qed.

End Parameters.

(** Reading back what was set. After a [set] of a parameter that did not
    raise, [get] with the same name and path returns the value that was set,
    whatever the default; and [get] with another name and the same path
    returns what it returned before. A value of no authorized type is
    refused with [ValueError]. *)
Theorem parameters_get_after_set
    (name : string) (v default : Config.value) (path : list string)
    (self self' : Config.dict) :
  Config.set name v path self = Config.Returns self' ->
  Config.get name default path self' = Config.Returns v
  /\ (forall name', name' <> name ->
        Config.get name' default path self' = Config.get name' default path self)
  /\ Config.set name Config.VNone path self = Config.Raises Config.ValueError.
Proof.
  unfold Config.set, Config.get. intros Hset.
  destruct (Config.authorized v); [|discriminate].
  destruct (set_recursive_get name v default path self self' Hset) as [H1 H2].
  split; [exact H1|]. split; [exact H2 | reflexivity].
Qed.

Lemma parameters_get_after_set_witness :
  let self' :=
    [ ("app", Config.VDict [ ("enabled", Config.VDict [ ("attack", Config.VBool true);
                                                       ("lab", Config.VBool false) ]) ]);
      ("attack", Config.VDict [ ("target_ip", Config.VStr "auto");
                                ("target_port", Config.VInt 5060) ]);
      ("name", Config.VStr "lab") ] in
  Config.get "lab" Config.VNone ["app"; "enabled"] self'
    = Config.Returns (Config.VBool false)
  /\ (forall name', name' <> "lab" ->
        Config.get name' Config.VNone ["app"; "enabled"] self'
        = Config.get name' Config.VNone ["app"; "enabled"] Examples.attack_defaults)
  /\ Config.set "lab" Config.VNone ["app"; "enabled"] Examples.attack_defaults
     = Config.Raises Config.ValueError.
Proof.
  apply (parameters_get_after_set "lab" (Config.VBool false) Config.VNone
           ["app"; "enabled"] Examples.attack_defaults).
  reflexivity.
Defined.

Section Flatten.

Import Config.

Lemma dict_set_keys_new (k : string) (v : value) (d : dict) :
  dict_in k d = false -> dict_set k v d = d ++ [(k, v)].
Proof.
  unfold dict_in. induction d as [|[k' v'] d IH]; simpl; [reflexivity|].
  destruct (String.eqb k' k); [discriminate|]. intros H. now rewrite IH.
Qed.

Lemma dict_in_spec (k : string) (d : dict) : dict_in k d = true <-> In k (map fst d).
Proof.
  unfold dict_in. induction d as [|[k' v'] d IH]; simpl; [split; [discriminate | tauto]|].
  destruct (String.eqb_spec k' k) as [->|Hne]; [split; auto|].
  rewrite IH. split; [auto | intros [H|H]; [congruence | exact H]].
Qed.

Lemma dict_set_flat (k : string) (v : value) (d : dict) :
  is_dict v = false -> flat d -> flat (dict_set k v d).
Proof.
  intros Hv [Hnd Hall]. destruct (dict_in k d) eqn:Hin.
  - split.
    + now rewrite dict_set_keys_in.
    + clear Hnd Hin. induction d as [|[k' v'] d IH]; simpl.
      * repeat constructor. exact Hv.
      * apply Forall_cons in Hall as [H1 H2].
        destruct (String.eqb k' k); constructor; auto.
  - rewrite dict_set_keys_new by exact Hin. split.
    + rewrite map_app. simpl. apply NoDup_app. split; [exact Hnd|]. split.
      * intros x Hx Hx'. apply list_elem_of_In in Hx'. destruct Hx' as [<-|[]].
        apply list_elem_of_In, dict_in_spec in Hx. congruence.
      * apply NoDup_singleton.
    + apply Forall_app. split; [exact Hall|]. repeat constructor. exact Hv.
Qed.

Lemma flatten_item_dict (parent_key k : string) (d : dict) (flat_params : dict) :
  flatten_item parent_key k (VDict d) flat_params
  = _flatten d (if truthy parent_key then parent_key +:+ "." +:+ k else k) flat_params.
Proof.
  unfold _flatten. cbn [flatten_item].
  generalize (if truthy parent_key then parent_key +:+ "." +:+ k else k). intros key.
  revert flat_params. induction d as [|[k' v'] d IH]; intros flat_params; [reflexivity|].
  cbn [foldl fst snd]. apply IH.
Qed.

Lemma flatten_item_flat : forall (v : value) (parent_key k : string) (flat_params : dict),
  flat flat_params -> flat (flatten_item parent_key k v flat_params).
Proof.
  fix IH 1. intros v parent_key k flat_params Hflat.
  destruct v as [| | | | | | |d];
    try (cbn [flatten_item]; apply dict_set_flat; [reflexivity | exact Hflat]).
  cbn [flatten_item].
  generalize (if truthy parent_key then parent_key +:+ "." +:+ k else k). intros key.
  revert flat_params Hflat. induction d as [|[k' v'] d IHd]; intros flat_params Hflat.
  - exact Hflat.
  - apply IHd. apply IH. exact Hflat.
Qed.

Lemma _flatten_flat (d : dict) (parent_key : string) (flat_params : dict) :
  flat flat_params -> flat (_flatten d parent_key flat_params).
Proof.
  unfold _flatten. revert flat_params.
  induction d as [|[k v] d IH]; intros flat_params Hflat; [exact Hflat|].
  cbn [foldl fst snd]. apply IH. now apply flatten_item_flat.
Qed.

(** Flattening a flat dictionary puts its items, in their order, behind
    the items already there, when the keys are new. *)
Lemma _flatten_of_flat (d : dict) : forall flat_params : dict,
  flat d -> (forall k, In k (map fst d) -> dict_in k flat_params = false) ->
  _flatten d EmptyString flat_params = flat_params ++ d.
Proof.
  unfold _flatten.
  induction d as [|[k v] d IH]; intros flat_params [Hnd Hall] Hnew.
  - simpl. now rewrite app_nil_r.
  - cbn [foldl fst snd]. simpl in Hnd. apply NoDup_cons in Hnd as [Hk Hnd].
    apply Forall_cons in Hall as [Hv Hall]. simpl in Hv.
    assert (E : flatten_item EmptyString k v flat_params = flat_params ++ [(k, v)]).
    { destruct v; try discriminate Hv; cbn [flatten_item truthy String.eqb negb];
        apply dict_set_keys_new, Hnew; now left. }
    rewrite E, IH.
    + now rewrite <- app_assoc.
    + now split.
    + intros k' Hk'. destruct (dict_in k' (flat_params ++ [(k, v)])) eqn:Hin;
        [|reflexivity].
      apply dict_in_spec in Hin. rewrite map_app in Hin. apply in_app_iff in Hin.
      destruct Hin as [Hin|[<-|[]]].
      * apply dict_in_spec in Hin. rewrite Hnew in Hin; [discriminate | now right].
      * exfalso. apply Hk. now apply list_elem_of_In.
Qed.

End Flatten.

(** The flattened parameters are flat, and flattening them again changes
    nothing: the result of [flatten] has distinct keys, none of its values is
    a dictionary, and it is its own flattening. *)
Theorem flatten_flat_and_idempotent (self : Config.dict) :
  NoDup (map fst (Config.flatten self))
  /\ Forall (fun kv => is_dict kv.2 = false) (Config.flatten self)
  /\ Config.flatten (Config.flatten self) = Config.flatten self.
Proof.
  assert (Hflat : flat (Config.flatten self)).
  { apply _flatten_flat. split; constructor. }
  destruct Hflat as [Hnd Hall]. split; [exact Hnd|]. split; [exact Hall|].
  unfold Config.flatten at 1. now rewrite _flatten_of_flat.
Qed.

Section UpdateFlat.

Import Config.

Lemma dict_in_keys (k : string) (d d' : dict) :
  map fst d = map fst d' -> dict_in k d = dict_in k d'.
Proof.
  intros H. destruct (dict_in k d) eqn:E1, (dict_in k d') eqn:E2; try reflexivity.
  - apply dict_in_spec in E1. rewrite H in E1. apply dict_in_spec in E1. congruence.
  - apply dict_in_spec in E2. rewrite <- H in E2. apply dict_in_spec in E2. congruence.
Qed.

Lemma dict_get_None (k : string) (d : dict) : ~ In k (map fst d) -> dict_get k d = None.
Proof.
  intros H. destruct (dict_get k d) eqn:E; [|reflexivity].
  exfalso. apply H, dict_in_spec. unfold dict_in. now rewrite E.
Qed.

End UpdateFlat.

(** [UpdateFlatConfig] never adds a parameter. The configuration keeps its
    keys, in their order; a key of the new parameters that the configuration
    does not have is ignored, and a key that it has takes the new value. *)
Theorem UpdateFlatConfig_keeps_keys (parameters new_parameters : Config.dict) :
  map fst (Config.UpdateFlatConfig parameters new_parameters) = map fst parameters
  /\ (NoDup (map fst new_parameters) ->
      forall k, Config.dict_get k (Config.UpdateFlatConfig parameters new_parameters)
                = if Config.dict_in k parameters
                  then match Config.dict_get k new_parameters with
                       | Some v => Some v
                       | None => Config.dict_get k parameters
                       end
                  else None).
Proof.
  revert parameters. unfold Config.UpdateFlatConfig.
  induction new_parameters as [|[k0 v0] new_parameters IH]; intros parameters.
  - simpl. split; [reflexivity|]. intros _ k. unfold Config.dict_in.
    now destruct (Config.dict_get k parameters).
  - cbn [foldl fst snd].
    set (parameters1 := if Config.dict_in k0 parameters then Config.dict_set k0 v0 parameters
                        else parameters).
    assert (Hkeys : map fst parameters1 = map fst parameters).
    { unfold parameters1. destruct (Config.dict_in k0 parameters) eqn:E; [|reflexivity].
      now apply dict_set_keys_in. }
    destruct (IH parameters1) as [IH1 IH2]. split; [now rewrite IH1|].
    intros Hnd k. simpl in Hnd. apply NoDup_cons in Hnd as [Hk0 Hnd].
    rewrite (IH2 Hnd k), (dict_in_keys k parameters1 parameters Hkeys).
    destruct (Config.dict_in k parameters) eqn:Hin; [|reflexivity].
    cbn [Config.dict_get]. destruct (String.eqb_spec k0 k) as [->|Hne].
    + rewrite (dict_get_None k new_parameters)
        by (intros H; apply Hk0; now apply list_elem_of_In).
      unfold parameters1. rewrite Hin. apply dict_get_set.
    + destruct (Config.dict_get k new_parameters); [reflexivity|].
      unfold parameters1. destruct (Config.dict_in k0 parameters); [|reflexivity].
      apply dict_get_set_ne. congruence.
Qed.

Example UpdateFlatConfig_example :
  Config.UpdateFlatConfig
    [ ("target_ip", Config.VStr "127.0.0.1"); ("target_port", Config.VInt 5060) ]
    [ ("target_port", Config.VInt 5070); ("rate", Config.VInt 10) ]
  = [ ("target_ip", Config.VStr "127.0.0.1"); ("target_port", Config.VInt 5070) ].
Proof. reflexivity. Qed.
